(** * BioinfoMCP: the generation / validation / refinement loop

    A shallow embedding of the two converters of the repository

      - [src/bioinfomcp_converter.py] and [src/main.py]   (one artifact: an MCP server module)
      - [src2/skill_validator.py], [src2/skill_converter.py] and [src2/main.py]
        (three artifacts: SKILL.md, a reference document, an example script)

    and the properties of their parsing, validation and retry logic.

    Python strings are lists of Unicode code points.  The regular expressions
    of the source are kept as syntax trees and run by a small backtracking
    matcher that enumerates the matches in the priority order of Python's
    [re] module.  Two things live outside the repository and are taken as
    parameters: the Python parser [ast.parse] and the chat-completion
    backend. *)

From Stdlib Require Import NArith ZArith Ascii String.
From stdpp Require Import gmap strings list.

(** ** Python strings *)

Abbreviation char := N.
Abbreviation pystr := (list N).

(** A literal of the source, as code points. *)
Definition str (s : string) : pystr :=
  map N_of_ascii (list_ascii_of_string s).

Definition LF : char := 10%N.

(** [str.isspace] of a single character.  The [\s] class of [re] on [str]
    patterns is the same set. *)
Definition isspace (c : char) : bool :=
  (((9 <=? c) && (c <=? 13)) || ((28 <=? c) && (c <=? 32))
   || (c =? 133) || (c =? 160) || (c =? 5760)
   || ((8192 <=? c) && (c <=? 8202))
   || (c =? 8232) || (c =? 8233) || (c =? 8239) || (c =? 8287) || (c =? 12288))%N.

Fixpoint lstrip (s : pystr) : pystr :=
  match s with
  | c :: t => if isspace c then lstrip t else s
  | [] => []
  end.

Definition rstrip (s : pystr) : pystr := rev (lstrip (rev s)).

(** [s.strip()] *)
Definition strip (s : pystr) : pystr := rstrip (lstrip s).

Definition char_eqb (a b : char) : bool := N.eqb a b.

(** [s.startswith(p)] *)
Fixpoint startswith (p s : pystr) : bool :=
  match p, s with
  | [], _ => true
  | a :: p', b :: s' => char_eqb a b && startswith p' s'
  | _ :: _, [] => false
  end.

(** [sub in s] *)
Fixpoint str_in (sub s : pystr) : bool :=
  startswith sub s ||
  match s with
  | _ :: t => str_in sub t
  | [] => false
  end.

(** [s.partition(sep)] for a non-empty [sep]: the text before and after
    the first occurrence of [sep], or [None] when [sep] does not occur
    (Python then returns [(s, '', '')]).  The source does not call it; it
    is the way the statements below say where a marker first occurs. *)
Fixpoint str_partition (sep s : pystr) : option (pystr * pystr) :=
  if startswith sep s then Some ([], drop (length sep) s)
  else match s with
       | c :: t =>
           match str_partition sep t with
           | Some (a, b) => Some (c :: a, b)
           | None => None
           end
       | [] => None
       end.

(** Truth value of a Python [str]: non-empty. *)
Definition nonempty (s : pystr) : bool :=
  match s with [] => false | _ :: _ => true end.

(** ** Regular expressions

    The fragment of [re] syntax the source uses.  Repetition is only ever
    applied to a single-character atom ([.*?], [\s*], [\s+], [#+]). *)

Inductive atom : Type :=
| Lit (c : char)      (* an ordinary or escaped character *)
| Dot                 (* .   *)
| Space.              (* \s  *)

Inductive regex : Type :=
| Eps
| One (a : atom)
| Cat (r1 r2 : regex)
| Alt (r1 r2 : regex)            (* r1|r2 *)
| Star (a : atom)                (* a*    *)
| Plus (a : atom)                (* a+    *)
| LazyStar (a : atom)            (* a*?   *)
| Group (r : regex)              (* (r), the only capturing group of a pattern *)
| Bol                            (* ^     *)
| Eol.                           (* $     *)

Record flags : Type := Flags { DOTALL : bool; MULTILINE : bool }.

Definition no_flags : flags := Flags false false.
Definition re_DOTALL : flags := Flags true false.
Definition re_MULTILINE : flags := Flags false true.

(** A sequence of literal characters. *)
Fixpoint lit (s : pystr) : regex :=
  match s with
  | [] => Eps
  | c :: t => Cat (One (Lit c)) (lit t)
  end.

(** [re.escape(s)] yields a pattern that matches [s] literally. *)
Definition re_escape (s : pystr) : regex := lit s.

(** A matcher state: the character before the current position (if any),
    the input still to be read, and the text of group 1 once it is closed. *)
Record mstate : Type := MState {
  prev : option char;
  rest : pystr;
  grp : option pystr
}.

Definition atom_ok (fl : flags) (a : atom) (c : char) : bool :=
  match a with
  | Lit d => char_eqb d c
  | Dot => DOTALL fl || negb (char_eqb c LF)
  | Space => isspace c
  end.

(** Closing group 1: it holds what was read of [full] down to [rest st']. *)
Definition close_group (full : pystr) (st' : mstate) : mstate :=
  MState (prev st') (rest st')
    (Some (take (length full - length (rest st')) full)).

(** [a*?]: the shortest run first. *)
Fixpoint lazy_star (ok : char -> bool) (p : option char) (s : pystr)
    (g : option pystr) : list mstate :=
  MState p s g ::
  match s with
  | c :: t => if ok c then lazy_star ok (Some c) t g else []
  | [] => []
  end.

(** [a*]: the longest run first. *)
Fixpoint greedy_star (ok : char -> bool) (p : option char) (s : pystr)
    (g : option pystr) : list mstate :=
  match s with
  | c :: t => if ok c then greedy_star ok (Some c) t g else []
  | [] => []
  end ++ [MState p s g].

Definition at_bol (fl : flags) (p : option char) : bool :=
  match p with
  | None => true
  | Some c => MULTILINE fl && char_eqb c LF
  end.

Definition at_eol (fl : flags) (s : pystr) : bool :=
  match s with
  | [] => true
  | c :: t => char_eqb c LF && (MULTILINE fl || negb (nonempty t))
  end.

(** All the ways [r] matches at [st], in the order in which a backtracking
    matcher tries them; the head of the list is the match [re] reports. *)
Fixpoint rmatch (fl : flags) (r : regex) (st : mstate) : list mstate :=
  match r with
  | Eps => [st]
  | One a =>
      match rest st with
      | c :: t => if atom_ok fl a c then [MState (Some c) t (grp st)] else []
      | [] => []
      end
  | Cat r1 r2 => rmatch fl r1 st ≫= rmatch fl r2
  | Alt r1 r2 => rmatch fl r1 st ++ rmatch fl r2 st
  | Star a => greedy_star (atom_ok fl a) (prev st) (rest st) (grp st)
  | Plus a =>
      match rest st with
      | c :: t =>
          if atom_ok fl a c
          then greedy_star (atom_ok fl a) (Some c) t (grp st) else []
      | [] => []
      end
  | LazyStar a => lazy_star (atom_ok fl a) (prev st) (rest st) (grp st)
  | Group r1 => close_group (rest st) <$> rmatch fl r1 st
  | Bol => if at_bol fl (prev st) then [st] else []
  | Eol => if at_eol fl (rest st) then [st] else []
  end.

(** A match object: where the match starts and the state at its end. *)
Record rmatch_obj : Type := MatchObj { m_from : pystr; m_end : mstate }.

(** Truth value of the result of [re.match] or [re.search]. *)
Definition is_match (m : option rmatch_obj) : bool :=
  match m with Some _ => true | None => false end.

(** [m.group(1)] *)
Definition group1 (m : rmatch_obj) : pystr := default [] (grp (m_end m)).

(** [re.match(r, s, flags)]: a match at the start of [s]. *)
Definition re_match (fl : flags) (r : regex) (s : pystr) : option rmatch_obj :=
  MatchObj s <$> head (rmatch fl r (MState None s None)).

Fixpoint search_from (fl : flags) (r : regex) (p : option char) (s : pystr)
    : option rmatch_obj :=
  match rmatch fl r (MState p s None) with
  | m :: _ => Some (MatchObj s m)
  | [] =>
      match s with
      | c :: t => search_from fl r (Some c) t
      | [] => None
      end
  end.

(** [re.search(r, s, flags)]: the match at the leftmost position that has one. *)
Definition re_search (fl : flags) (r : regex) (s : pystr) : option rmatch_obj :=
  search_from fl r None s.

(** [re.findall(r, s, flags)] for a pattern with one group: group 1 of the
    successive non-overlapping matches, left to right.  [n] bounds the number
    of scanning steps. *)
Fixpoint findall_from (n : nat) (fl : flags) (r : regex) (p : option char)
    (s : pystr) : list pystr :=
  match n with
  | O => []
  | S n' =>
      let skip :=
        match s with
        | c :: t => findall_from n' fl r (Some c) t
        | [] => []
        end in
      match rmatch fl r (MState p s None) with
      | m :: _ =>
          default [] (grp m) ::
          (if (length (rest m) <? length s)%nat
           then findall_from n' fl r (prev m) (rest m)
           else skip)
      | [] => skip
      end
  end.

Definition re_findall (fl : flags) (r : regex) (s : pystr) : list pystr :=
  findall_from (S (length s)) fl r None s.

Notation "r1 ⋅ r2" := (Cat r1 r2) (at level 41, right associativity).

(** ** Exceptions, interpolation, truth values *)

(** An exception that no handler of the source catches: its class and text. *)
Record exn : Type := Exn { exn_class : pystr; exn_text : pystr }.

Inductive result (A : Type) : Type :=
| Ret (a : A)
| Raise (e : exn).
Arguments Ret {A} a.
Arguments Raise {A} e.

(** What [ast.parse(src)] does: it returns a tree, raises [SyntaxError]
    (kept as [str(e)]), or raises an exception of another class. *)
Inductive parse_outcome : Type :=
| Parsed
| SyntaxError (msg : pystr)
| OtherError (e : exn).

(** A verdict [(ok, message)]: [(1, None)] or [(0, "...")]. *)
Definition verdict : Type := Z * option pystr.

(** Truth value of a Python [int]. *)
Definition truthy (n : Z) : bool := negb (n =? 0)%Z.

(** [f"{v}"] for a value that is a [str] or [None]. *)
Definition format_value (v : option pystr) : pystr :=
  match v with
  | Some s => s
  | None => str "None"
  end.

(** ** The chat-completion backend

    [client.chat.completions.create(messages=[system, user], ...)] followed
    by [.choices[0].message.content].  The service answers as it pleases:
    its answer may depend on everything that was sent before.  The requests
    sent so far are the only state of a conversion.  The call is taken to
    return a text.  A failure of the transport, and an answer whose content
    is [None] (a [TypeError] in the regular-expression call that follows),
    end the program in the source; they are outside this development, and
    no statement below is about them. *)

Definition request : Type := pystr * pystr.    (* system text, user text *)
Definition chat_api : Type := list request -> request -> pystr.

Definition IO (A : Type) : Type := list request -> result A * list request.

#[export] Instance io_ret : MRet IO := λ A a log, (Ret a, log).
#[export] Instance io_bind : MBind IO := λ A B f m log,
  match m log with
  | (Ret a, log') => f a log'
  | (Raise e, log') => (Raise e, log')
  end.

Definition lift {A} (r : result A) : IO A := λ log, (r, log).

Definition chat_completions_create (client : chat_api) (system user : pystr)
    : IO pystr :=
  λ log, (Ret (client log (system, user)), log ++ [(system, user)]).

(** [while not ok(r): r = body(r)] followed by [return out(r)], cut off
    after [fuel] turns; [None] says that the loop is still running then. *)
Fixpoint while_failing {R A} (ok : R -> Z) (out : R -> A) (body : R -> IO R)
    (fuel : nat) (r : R) : IO (option A) :=
  if negb (truthy (ok r)) then
    match fuel with
    | O => mret None
    | S fuel' =>
        r' ← body r;
        while_failing ok out body fuel' r'
    end
  else mret (Some (out r)).

(** * [src2/skill_validator.py] *)

Module skill_validator.

Definition REQUIRED_SECTIONS : list pystr :=
  [ str "Overview";
    str "When to Use This Skill";
    str "Core Capabilities";
    str "Installation and Setup";
    str "Quick Start";
    str "Standard Workflow";
    str "Common Tasks";
    str "Key Parameters";
    str "Best Practices";
    str "Common Pitfalls";
    str "Additional Resources";
    str "Bundled Resources" ].

Definition REQUIRED_FRONTMATTER_KEYS : list pystr :=
  [ str "name"; str "description"; str "license"; str "context"; str "metadata" ].

(** [not content or not content.strip()] *)
Definition is_blank (content : pystr) : bool :=
  negb (nonempty content) || negb (nonempty (strip content)).

(** [r'^---\s*\n(.*?)\n---'] *)
Definition frontmatter_re : regex :=
  Bol ⋅ lit (str "---") ⋅ Star Space ⋅ One (Lit LF)
      ⋅ Group (LazyStar Dot) ⋅ lit (LF :: str "---").

(** [rf'#\s+{re.escape(section)}'] *)
Definition section_re (section : pystr) : regex :=
  One (Lit 35%N) ⋅ Plus Space ⋅ re_escape section.

(** [r'^#+\s+'] *)
Definition header_re : regex :=
  Bol ⋅ Plus (Lit 35%N) ⋅ Plus Space.

(** [f"{key}:" not in frontmatter_text] *)
Definition key_missing (frontmatter_text key : pystr) : bool :=
  negb (str_in (key ++ str ":") frontmatter_text).

(** [not re.search(pattern, content)] *)
Definition section_missing (content section : pystr) : bool :=
  negb (is_match (re_search no_flags (section_re section) content)).

Definition validate_skill_md (content : pystr) : verdict :=
  if is_blank content then
    (0%Z, Some (str "SKILL.md content is empty"))
  else
    match re_match re_DOTALL frontmatter_re content with
    | None =>
        (0%Z, Some (str "SKILL.md is missing YAML frontmatter (--- delimiters)"))
    | Some fm_match =>
        let frontmatter_text := group1 fm_match in
        match List.find (key_missing frontmatter_text) REQUIRED_FRONTMATTER_KEYS with
        | Some key =>
            (0%Z, Some (str "YAML frontmatter is missing required key: " ++ key))
        | None =>
            match List.find (section_missing content) REQUIRED_SECTIONS with
            | Some section =>
                (0%Z, Some (str "SKILL.md is missing required section: '# "
                              ++ section ++ str "'"))
            | None =>
                if negb (str_in (str "```") content) then
                  (0%Z, Some (str "SKILL.md has no code blocks"))
                else (1%Z, None)
            end
        end
    end.

Definition validate_reference_md (content : pystr) : verdict :=
  if is_blank content then
    (0%Z, Some (str "Reference document is empty"))
  else if negb (is_match (re_search re_MULTILINE header_re content)) then
    (0%Z, Some (str "Reference document has no headers"))
  else (1%Z, None).

(** Only [SyntaxError] is handled; an exception of another class raised by
    [ast.parse] leaves the function. *)
Definition validate_example_script (ast_parse : pystr -> parse_outcome)
    (content : pystr) : result verdict :=
  if is_blank content then Ret (1%Z, None)
  else
    match ast_parse content with
    | Parsed => Ret (1%Z, None)
    | SyntaxError e =>
        Ret (0%Z, Some (str "Example script has SyntaxError: " ++ e))
    | OtherError e => Raise e
    end.

End skill_validator.

(** [r'```python\n(.*?)\n```'], used by both converters. *)
Definition code_fence_re : regex :=
  lit (str "```python" ++ [LF]) ⋅ Group (LazyStar Dot) ⋅ lit (LF :: str "```").

(** * [src2/skill_converter.py]: class [BioinfoSkillConverter] *)

Module BioinfoSkillConverter.
Import skill_validator.

(** The fields of an instance, and the runtime it calls into. *)
Record self_t : Type := Self {
  sys_prompt : pystr;
  author : pystr;
  license_name : pystr;
  client : chat_api;
  ast_parse : pystr -> parse_outcome;
  (** the text [extract_help_document] obtains for (tool, manual, flag);
      [None] when the help command cannot be run.  The source reads the
      manual, or runs the command, anew at every attempt, and reading can
      raise (a manual that is missing or cannot be opened); here the text is
      taken as given, and such a failure is outside this development *)
  help_document : pystr -> pystr -> bool -> option pystr
}.

Definition extract_help_document (self : self_t) (tool_name manual : pystr)
    (run_help_command : bool) : option pystr :=
  help_document self tool_name manual run_help_command.

Definition generate_prompt (self : self_t) (tool_name : pystr)
    (help_docs : option pystr) : pystr :=
  str "
Convert the following bioinformatics tool documentation into a Claude Scientific Skill package.

Tool Name: "
  ++ tool_name
  ++ str "
Skill Author: "
  ++ author self
  ++ str "
License: "
  ++ license_name self
  ++ str "

Help Document:
"
  ++ format_value help_docs
  ++ str "

Generate the complete skill package with all three blocks:
1. ===SKILL.md=== - The full SKILL.md with YAML frontmatter and all required sections
2. ===REFERENCE.md=== - Comprehensive parameter reference
3. ===EXAMPLE_SCRIPT.py=== - A working Python example script

Make sure to extract ALL parameters and cover ALL subcommands from the documentation.
".

(** [r'===SKILL\.md===(.*?)(?:===REFERENCE\.md===|$)'] *)
Definition skill_block_re : regex :=
  lit (str "===SKILL.md===") ⋅ Group (LazyStar Dot)
    ⋅ Alt (lit (str "===REFERENCE.md===")) Eol.

(** [r'===REFERENCE\.md===(.*?)(?:===EXAMPLE_SCRIPT\.py===|$)'] *)
Definition reference_block_re : regex :=
  lit (str "===REFERENCE.md===") ⋅ Group (LazyStar Dot)
    ⋅ Alt (lit (str "===EXAMPLE_SCRIPT.py===")) Eol.

(** [r'===EXAMPLE_SCRIPT\.py===(.*?)$'] *)
Definition script_block_re : regex :=
  lit (str "===EXAMPLE_SCRIPT.py===") ⋅ Group (LazyStar Dot) ⋅ Eol.

(** The extraction half of [parse_skill], one definition per variable. *)
Definition extract_skill_md (llm_response : pystr) : pystr :=
  match re_search re_DOTALL skill_block_re llm_response with
  | Some skill_match => strip (group1 skill_match)
  | None => []
  end.

Definition extract_reference_md (llm_response : pystr) : pystr :=
  match re_search re_DOTALL reference_block_re llm_response with
  | Some ref_match => strip (group1 ref_match)
  | None => []
  end.

Definition extract_example_script (llm_response : pystr) : pystr :=
  match re_search re_DOTALL script_block_re llm_response with
  | Some script_match =>
      let example_script := strip (group1 script_match) in
      match re_findall re_DOTALL code_fence_re example_script with
      | code :: _ => code
      | [] => example_script
      end
  | None => []
  end.

(** The [contents] dictionary literal. *)
Definition make_contents (skill_md reference_md example_script : pystr)
    : gmap string pystr :=
  <["example_script" := example_script]>
    (<["reference_md" := reference_md]>
       (<["skill_md" := skill_md]> ∅)).

Definition skill_result : Type := Z * option pystr * gmap string pystr.

Definition parse_skill (self : self_t) (llm_response : pystr)
    : result skill_result :=
  let skill_md := extract_skill_md llm_response in
  let reference_md := extract_reference_md llm_response in
  let example_script := extract_example_script llm_response in
  let contents := make_contents skill_md reference_md example_script in
  let '(ok, err) := validate_skill_md skill_md in
  if negb (truthy ok) then
    Ret (0%Z, Some (str "SKILL.md validation failed: " ++ format_value err), contents)
  else
    let '(ok, err) := validate_reference_md reference_md in
    if negb (truthy ok) then
      Ret (0%Z, Some (str "Reference validation failed: " ++ format_value err),
           contents)
    else
      match validate_example_script (ast_parse self) example_script with
      | Raise e => Raise e
      | Ret (ok, err) =>
          if negb (truthy ok) then
            Ret (0%Z,
                 Some (str "Example script validation failed: " ++ format_value err),
                 contents)
          else Ret (1%Z, None, contents)
      end.

(** [contents.get(key)] taken as a condition: present and non-empty. *)
Definition get_truthy (contents : gmap string pystr) (key : string) : bool :=
  match contents !! key with
  | Some v => nonempty v
  | None => false
  end.

(** [contents[key]] inside a branch guarded by [contents.get(key)]. *)
Definition item (contents : gmap string pystr) (key : string) : pystr :=
  default [] (contents !! key).

(** The [existing] text of [refine_after_feedback]. *)
Definition existing_blocks (contents : gmap string pystr) : pystr :=
  let existing := [] in
  let existing :=
    if get_truthy contents "skill_md"
    then existing ++ str "===SKILL.md===" ++ [LF] ++ item contents "skill_md" ++ [LF; LF]
    else existing in
  let existing :=
    if get_truthy contents "reference_md"
    then existing ++ str "===REFERENCE.md===" ++ [LF]
                  ++ item contents "reference_md" ++ [LF; LF]
    else existing in
  if get_truthy contents "example_script"
  then existing ++ str "===EXAMPLE_SCRIPT.py===" ++ [LF] ++ str "```python" ++ [LF]
                ++ item contents "example_script" ++ [LF] ++ str "```" ++ [LF]
  else existing.

(** The [prompt] of [refine_after_feedback]. *)
Definition refine_prompt (tool_name : pystr) (contents : gmap string pystr)
    (error_message : option pystr) : pystr :=
  let existing := existing_blocks contents in
  str "
The initial skill package for "
  ++ tool_name
  ++ str ":

"
  ++ existing
  ++ str "

contains the following error:
"
  ++ format_value error_message
  ++ str "

Please fix the content and ensure that:
1. SKILL.md has valid YAML frontmatter with name, description, license, context, metadata keys
2. SKILL.md contains ALL required sections: Overview, When to Use This Skill, Core Capabilities, Installation and Setup, Quick Start, Standard Workflow, Common Tasks, Key Parameters, Best Practices, Common Pitfalls, Additional Resources, Bundled Resources
3. SKILL.md contains at least one code block
4. Reference document is not empty and has headers
5. Example script (if present) has valid Python syntax

Provide the corrected output with all three blocks using the ===SKILL.md===, ===REFERENCE.md===, and ===EXAMPLE_SCRIPT.py=== delimiters.
".

Definition refine_after_feedback (self : self_t) (tool_name : pystr)
    (contents : gmap string pystr) (error_message : option pystr)
    : IO skill_result :=
  let prompt := refine_prompt tool_name contents error_message in
  response_content ← chat_completions_create (client self) (sys_prompt self) prompt;
  lift (parse_skill self response_content).

Definition autogenerate_skill (self : self_t) (tool_name manual : pystr)
    (run_help_command : bool) : IO skill_result :=
  let help_docs := extract_help_document self tool_name manual run_help_command in
  let prompt := generate_prompt self tool_name help_docs in
  response_content ← chat_completions_create (client self) (sys_prompt self) prompt;
  lift (parse_skill self response_content).

(** ** [src2/main.py] *)

(** [any(contents.values())] *)
Definition any_values (contents : gmap string pystr) : bool :=
  existsb nonempty (snd <$> map_to_list contents).

(** One turn of the [while] loop of [convert_skill].  [result[2]] is a
    dictionary on every path of [parse_skill], never [None]. *)
Definition retry_once (self : self_t) (tool_name manual : pystr)
    (run_help_command : bool) (result : skill_result) : IO skill_result :=
  if negb (any_values result.2) then
    autogenerate_skill self tool_name manual run_help_command
  else
    refine_after_feedback self tool_name result.2 result.1.2.

(** [while not result[0]: ...] and [return result[2]]. *)
Definition retry_loop (fuel : nat) (self : self_t) (tool_name manual : pystr)
    (run_help_command : bool) (result : skill_result)
    : IO (option (gmap string pystr)) :=
  while_failing (λ result, result.1.1) (λ result, result.2)
    (retry_once self tool_name manual run_help_command) fuel result.

Definition convert_skill (fuel : nat) (self : self_t) (tool_name manual : pystr)
    (run_help_command : bool) : IO (option (gmap string pystr)) :=
  result ← autogenerate_skill self tool_name manual run_help_command;
  retry_loop fuel self tool_name manual run_help_command result.

End BioinfoSkillConverter.

(** * [src/bioinfomcp_converter.py]: class [BioinfoMCP] *)

Module BioinfoMCP.

Record self_t : Type := Self {
  sys_prompt : pystr;
  client : chat_api;
  ast_parse : pystr -> parse_outcome;
  (** as in [BioinfoSkillConverter]: the text is taken as given; a failure
      of [pymupdf.open] on the manual is outside this development *)
  help_document : pystr -> pystr -> bool -> option pystr
}.

Definition extract_help_document (self : self_t) (tool_name manual : pystr)
    (run_help_command : bool) : option pystr :=
  help_document self tool_name manual run_help_command.

Definition generate_prompt (tool_name : pystr) (help_docs : option pystr) : pystr :=
  str "
Convert the following bioinformatics tool into an MCP tool definition.

Tool Name: "
  ++ tool_name
  ++ str "
Help Document:
"
  ++ format_value help_docs
  ++ str "

Parse the Input parameters correctly, follow the MCP best practices, and provide the complete python code with the @mcp.tool() decorator.
".

(** [(ok, message, code)] with [code] a [str] or [None]. *)
Definition mcp_result : Type := Z * option pystr * option pystr.

Definition parse_mcpcode (self : self_t) (gpt_response : pystr)
    : result mcp_result :=
  match re_findall re_DOTALL code_fence_re gpt_response with
  | [] =>
      Ret (0%Z, Some (str "There is no python code found in the gpt_response"), None)
  | code :: _ =>
      match ast_parse self code with
      | SyntaxError e =>
          Ret (0%Z,
               Some (str "Code is not working with the following SyntaxError: " ++ e),
               Some code)
      | OtherError e => Raise e
      | Parsed =>
          if negb (str_in (str "@mcp.tool") code) then
            Ret (0%Z, Some (str "Code is missing the @mcp.tool() decorator"), Some code)
          else Ret (1%Z, None, Some code)
      end
  end.

(** The [prompt] of [refine_after_feedback]. *)
Definition refine_prompt (tool_name : pystr) (code error_message : option pystr)
    : pystr :=
  str "
            The initial code block for "
  ++ tool_name
  ++ str ":
            ```python
            "
  ++ format_value code
  ++ str "
            ```
            contains the following Error:
            "
  ++ format_value error_message
  ++ str "

            Please fix the code and ensure that 
            1. Cover every internal functions of the tool
            2. Has proper error handling
            3. Validates input parameters
            4. Returns structured output
            5. Follows MCP best practices

            Provide only the corrected python code.

        ".

Definition refine_after_feedback (self : self_t) (tool_name : pystr)
    (code error_message : option pystr) : IO mcp_result :=
  let prompt := refine_prompt tool_name code error_message in
  response_content ← chat_completions_create (client self) (sys_prompt self) prompt;
  lift (parse_mcpcode self response_content).

Definition autogenerate_mcp_tool (self : self_t) (tool_name manual : pystr)
    (run_help_command : bool) : IO mcp_result :=
  let help_docs := extract_help_document self tool_name manual run_help_command in
  let prompt := generate_prompt tool_name help_docs in
  response_content ← chat_completions_create (client self) (sys_prompt self) prompt;
  lift (parse_mcpcode self response_content).

(** ** [src/main.py] *)

(** One turn of the [while] loop of [convert_mcptool]. *)
Definition retry_once (self : self_t) (tool manual : pystr)
    (run_help_command : bool) (conv_result : mcp_result) : IO mcp_result :=
  match conv_result.2 with
  | None => autogenerate_mcp_tool self tool manual run_help_command
  | Some _ =>
      refine_after_feedback self tool conv_result.2 conv_result.1.2
  end.

(** [while not conv_result[0]: ...]; what is written afterwards is
    [conv_result[2]]. *)
Definition retry_loop (fuel : nat) (self : self_t) (tool manual : pystr)
    (run_help_command : bool) (conv_result : mcp_result)
    : IO (option (option pystr)) :=
  while_failing (λ conv_result, conv_result.1.1) (λ conv_result, conv_result.2)
    (retry_once self tool manual run_help_command) fuel conv_result.

(** The body of the [for] loop for the one tool of [bioinfo_tools_ls]; the
    value returned is the text written to the server file. *)
Definition convert_mcptool (fuel : nat) (self : self_t) (tool_name manual : pystr)
    (run_help_command : bool) : IO (option (option pystr)) :=
  conv_result ← autogenerate_mcp_tool self tool_name manual run_help_command;
  retry_loop fuel self tool_name manual run_help_command conv_result.

End BioinfoMCP.

(** * [src2/main.py]: [write_skill_files]

    [pathlib] is kept abstract: [Path(output_dir)] and the operator [/] are
    parameters.  What the function asks of the file system is recorded in
    order; the lines it prints are left out, and so is a failure of the file
    system itself, which ends the program. *)

Inductive fs_op (path : Type) : Type :=
| Makedirs (p : path)                 (* os.makedirs(p, exist_ok=True) *)
| OpenW (p : path)                    (* open(p, "w"): created or emptied *)
| FileWrite (p : path) (s : pystr).   (* f.write(s) on the file opened at p *)
Arguments Makedirs {path} p.
Arguments OpenW {path} p.
Arguments FileWrite {path} p s.

(** [contents[key]] *)
Definition getitem (contents : gmap string pystr) (key : string) : result pystr :=
  match contents !! key with
  | Some v => Ret v
  | None => Raise (Exn (str "KeyError") (str (String.append "'" (String.append key "'"))))
  end.

Section files.
Context {path : Type}.
Variable Path : pystr → path.
Variable joinpath : path → pystr → path.

Definition write_skill_files (tool_name : pystr) (contents : gmap string pystr)
    (output_dir : pystr) : result path * list (fs_op path) :=
  let skill_dir := joinpath (Path output_dir) tool_name in
  let refs_dir := joinpath skill_dir (str "references") in
  let scripts_dir := joinpath skill_dir (str "scripts") in
  let fs := [Makedirs skill_dir; Makedirs refs_dir; Makedirs scripts_dir] in
  let fs := fs ++ [OpenW (joinpath skill_dir (str "SKILL.md"))] in
  match getitem contents "skill_md" with
  | Raise e => (Raise e, fs)
  | Ret skill_md =>
      let fs := fs ++ [FileWrite (joinpath skill_dir (str "SKILL.md")) skill_md] in
      let reference_path := joinpath refs_dir (tool_name ++ str "_reference.md") in
      let fs := fs ++ [OpenW reference_path] in
      match getitem contents "reference_md" with
      | Raise e => (Raise e, fs)
      | Ret reference_md =>
          let fs := fs ++ [FileWrite reference_path reference_md] in
          match getitem contents "example_script" with
          | Raise e => (Raise e, fs)
          | Ret example_script =>
              if nonempty example_script && nonempty (strip example_script) then
                let script_path := joinpath scripts_dir (tool_name ++ str "_example.py") in
                (Ret skill_dir,
                 fs ++ [OpenW script_path; FileWrite script_path example_script])
              else (Ret skill_dir, fs)
          end
      end
  end.

End files.

(** * Vocabulary of the proofs *)

(** The character before the position reached by reading the literal [M]. *)
Fixpoint lit_prev (M : pystr) (p : option char) : option char :=
  match M with
  | [] => p
  | c :: M' => lit_prev M' (Some c)
  end.

(** The shortest prefix [a] of [s = a ++ b] whose remainder satisfies [stop]. *)
Fixpoint lazy_until (stop : pystr -> bool) (s : pystr) : option (pystr * pystr) :=
  if stop s then Some ([], s)
  else match s with
       | c :: t =>
           match lazy_until stop t with
           | Some (a, b) => Some (c :: a, b)
           | None => None
           end
       | [] => None
       end.

(** [K] is a group-free tail of a pattern that matches exactly where [stop]
    holds of the remaining input. *)
Definition stops (fl : flags) (K : regex) (stop : pystr -> bool) : Prop :=
  ∀ st,
    (stop (rest st) = false → rmatch fl K st = []) ∧
    (stop (rest st) = true → ∃ m ms, rmatch fl K st = m :: ms ∧ grp m = grp st).

(** [M] occurs in [pre ++ M] at the very end only: in any text that begins
    with [pre ++ M], the first [M] is the one after [pre]. *)
Definition first_at (M pre : pystr) : Prop :=
  str_partition M (pre ++ M) = Some (pre, []).

(** A verdict has one of the two shapes [(1, None)] and [(0, d)], [d] a
    non-empty text. *)
Definition well_shaped (v : verdict) : Prop :=
  v = (1%Z, None) ∨ ∃ d, v = (0%Z, Some d) ∧ d ≠ [].

(** The three-artifact schema as data: artifact name and delimiter marker. *)
Definition skill_schema : list (string * pystr) :=
  [ ("skill_md", str "===SKILL.md===");
    ("reference_md", str "===REFERENCE.md===");
    ("example_script", str "===EXAMPLE_SCRIPT.py===") ].

(** [#], then blanks, then the text [section], somewhere in [content]. *)
Definition heading_occurs (content section : pystr) : Prop :=
  ∃ pre ws post,
    content = pre ++ [35%N] ++ ws ++ section ++ post
    ∧ ws ≠ [] ∧ forallb isspace ws = true.

(** The metadata block of a document: what [fm_match.group(1)] holds. *)
Definition frontmatter_of (content : pystr) : option pystr :=
  group1 <$> re_match re_DOTALL skill_validator.frontmatter_re content.

(** [sep.join(parts)] *)
Fixpoint join (sep : pystr) (parts : list pystr) : pystr :=
  match parts with
  | [] => []
  | [x] => x
  | x :: rest => x ++ sep ++ join sep rest
  end.

(** [s.split('\n')] *)
Fixpoint split_lines (s : pystr) : list pystr :=
  match s with
  | [] => [[]]
  | c :: t =>
      if char_eqb c LF then [] :: split_lines t
      else match split_lines t with
           | l :: ls => (c :: l) :: ls
           | [] => [[c]]
           end
  end.

Definition pystr_eqb (a b : pystr) : bool := bool_decide (a = b).

(** A Markdown heading of level 1 with the text [heading]: a line that,
    without the surrounding blanks, is one [#], blanks, and the text. *)
Definition is_level1_heading (heading line : pystr) : bool :=
  match strip line with
  | c :: r =>
      char_eqb c 35%N && negb (pystr_eqb (lstrip r) r) && pystr_eqb (lstrip r) heading
  | [] => false
  end.

Definition has_level1_heading (content heading : pystr) : bool :=
  existsb (is_level1_heading heading) (split_lines content).

(** A [key: value] line of a metadata block: a line that, after its
    indentation, begins with [key:]. *)
Definition has_key_line (frontmatter_text key : pystr) : bool :=
  existsb (λ line, startswith (key ++ str ":") (lstrip line))
    (split_lines frontmatter_text).

(** ** A sample runtime

    What [ast.parse] of CPython 3.10 and 3.11 (the Dockerfile template of
    [src/main.py] is based on [python:3.10-slim]) answers on the sources the
    examples below hand to it: a source with a NUL character raises
    [ValueError] (as the documentation of [compile] says), U+00A0 alone and
    an unclosed parenthesis are syntax errors.  Every other source is taken
    to parse; the examples rely on that for the empty source,
    [sample_code] and [sample_script] only, which CPython accepts. *)
Definition cpython_sample (src : pystr) : parse_outcome :=
  if str_in [0%N] src then
    OtherError (Exn (str "ValueError")
                  (str "source code string cannot contain null bytes"))
  else if pystr_eqb src [160%N] then
    SyntaxError (str "invalid non-printable character U+00A0 (<unknown>, line 1)")
  else if pystr_eqb src (str "x = (") then
    SyntaxError (str "'(' was never closed (<unknown>, line 1)")
  else Parsed.

(** A parser that never leaves [ast.parse] with anything but a tree or a
    [SyntaxError]. *)
Definition lenient_parser (src : pystr) : parse_outcome :=
  if pystr_eqb src (str "x = (") then
    SyntaxError (str "'(' was never closed (<unknown>, line 1)")
  else Parsed.

Definition sample_code : pystr :=
  join [LF] [ str "@mcp.tool()"; str "def run(): pass" ].

Definition fenced (code : pystr) : pystr :=
  str "```python" ++ [LF] ++ code ++ [LF] ++ str "```".

Definition sample_frontmatter (name_key : pystr) : pystr :=
  join [LF]
    [ str "---";
      name_key ++ str ": fastqc";
      str "description: quality control";
      str "license: BSD-3-Clause";
      str "context: fork";
      str "metadata:";
      str "  author: BioinfoMCP";
      str "---" ].

(** A guide document with every required section; [mark] is put in front of
    [Best Practices]. *)
Definition sample_sections (mark : pystr) : pystr :=
  join [LF]
    [ str "# Overview";
      str "# When to Use This Skill";
      str "# Core Capabilities";
      str "# Installation and Setup";
      str "# Quick Start";
      str "```bash"; str "fastqc reads.fq"; str "```";
      str "# Standard Workflow";
      str "# Common Tasks";
      str "# Key Parameters";
      mark ++ str "Best Practices";
      str "# Common Pitfalls";
      str "# Additional Resources";
      str "# Bundled Resources" ].

Definition sample_guide : pystr :=
  sample_frontmatter (str "name") ++ [LF] ++ sample_sections (str "# ").

(** A guide document whose metadata block has no [metadata] key. *)
Definition sample_guide_no_metadata : pystr :=
  join [LF]
    [ str "---"; str "name: fastqc"; str "description: quality control";
      str "license: BSD-3-Clause"; str "context: fork"; str "---" ]
  ++ [LF] ++ sample_sections (str "# ").

Definition sample_reference : pystr := str "# Parameters".

Definition sample_script : pystr := str "print(1)".

(** A well-formed three-block completion around the guide [guide]. *)
Definition sample_completion (guide : pystr) : pystr :=
  join [LF]
    [ str "Here is the package."; str "===SKILL.md==="; guide;
      str "===REFERENCE.md==="; sample_reference;
      str "===EXAMPLE_SCRIPT.py==="; fenced sample_script ].

(** A backend that answers the [n]-th request with the [n]-th text of a
    list. *)
Definition canned_client (answers : list pystr) : chat_api :=
  λ log _, nth (length log) answers [].

Definition sample_skill_self (answers : list pystr)
    (parser : pystr -> parse_outcome) : BioinfoSkillConverter.self_t :=
  BioinfoSkillConverter.Self (str "You write skill packages.")
    (str "BioinfoMCP") (str "BSD-3-Clause")
    (canned_client answers) parser (λ _ _ _, Some (str "usage: fastqc [options]")).

Definition sample_mcp_self (answers : list pystr)
    (parser : pystr -> parse_outcome) : BioinfoMCP.self_t :=
  BioinfoMCP.Self (str "You write MCP servers.")
    (canned_client answers) parser (λ _ _ _, Some (str "usage: fastqc [options]")).

(** ** The retry loops as transition systems

    A configuration is the result of the latest attempt together with the
    requests sent so far; a step is one turn of the [while] loop, taken when
    the latest result failed and the next attempt returned. *)

Definition loop_step {R} (ok : R -> Z) (body : R -> IO R)
    (c c' : R * list request) : Prop :=
  truthy (ok c.1) = false ∧ body c.1 c.2 = (Ret c'.1, c'.2).

Definition skill_step (self : BioinfoSkillConverter.self_t) (tool_name manual : pystr)
    (run_help_command : bool)
    : relation (BioinfoSkillConverter.skill_result * list request) :=
  loop_step (λ result, result.1.1)
    (BioinfoSkillConverter.retry_once self tool_name manual run_help_command).

Definition mcp_step (self : BioinfoMCP.self_t) (tool manual : pystr)
    (run_help_command : bool) : relation (BioinfoMCP.mcp_result * list request) :=
  loop_step (λ conv_result, conv_result.1.1)
    (BioinfoMCP.retry_once self tool manual run_help_command).

(** The first prompt of a conversion. *)
Definition skill_original_prompt (self : BioinfoSkillConverter.self_t)
    (tool_name manual : pystr) (run_help_command : bool) : pystr :=
  BioinfoSkillConverter.generate_prompt self tool_name
    (BioinfoSkillConverter.extract_help_document self tool_name manual run_help_command).

Definition mcp_original_prompt (self : BioinfoMCP.self_t)
    (tool_name manual : pystr) (run_help_command : bool) : pystr :=
  BioinfoMCP.generate_prompt tool_name
    (BioinfoMCP.extract_help_document self tool_name manual run_help_command).

(** A line of [content] begins with one or more [#] followed by blanks. *)
Definition header_occurs (content : pystr) : Prop :=
  ∃ pre n ws post,
    content = pre ++ replicate (S n) 35%N ++ ws ++ post
    ∧ (pre = [] ∨ ∃ pre', pre = pre' ++ [LF])
    ∧ ws ≠ [] ∧ forallb isspace ws = true.

(** The text after the first occurrence of the marker [M]; empty when [M]
    does not occur. *)
Definition text_after (M resp : pystr) : pystr :=
  match str_partition M resp with
  | Some (_, body) => body
  | None => []
  end.

(** The text between the first occurrence of the marker [M] and the next
    occurrence of [M2], or the end of the text when there is none. *)
Definition block_after (M M2 resp : pystr) : pystr :=
  let body := text_after M resp in
  match str_partition M2 body with
  | Some (a, _) => a
  | None => body
  end.

(** A sample of [pathlib] for the examples: paths as texts, [/] putting a
    slash between its operands.  That is what [PurePosixPath] answers on the
    operands of the examples (plain names, no slash, no dot component); the
    theorems do not depend on it. *)
Definition sample_Path (s : pystr) : pystr := s.

Definition sample_joinpath (p name : pystr) : pystr := p ++ str "/" ++ name.

(** The request that a turn of the loop of [convert_skill] sends after the
    failed result [result]: the branch of the [if] and the arguments it
    passes on. *)
Definition skill_next_request (self : BioinfoSkillConverter.self_t)
    (tool_name manual : pystr) (run_help_command : bool)
    (result : BioinfoSkillConverter.skill_result) : request :=
  (BioinfoSkillConverter.sys_prompt self,
   if BioinfoSkillConverter.any_values result.2
   then BioinfoSkillConverter.refine_prompt tool_name result.2 result.1.2
   else skill_original_prompt self tool_name manual run_help_command).

(** The same for the loop of [convert_mcptool]. *)
Definition mcp_next_request (self : BioinfoMCP.self_t)
    (tool manual : pystr) (run_help_command : bool)
    (conv_result : BioinfoMCP.mcp_result) : request :=
  (BioinfoMCP.sys_prompt self,
   match conv_result.2 with
   | None => mcp_original_prompt self tool manual run_help_command
   | Some _ => BioinfoMCP.refine_prompt tool conv_result.2 conv_result.1.2
   end).

(** * Facts about strings *)

Section strings.
Implicit Types (s t p sub sep : pystr) (c : char).

Lemma char_eqb_eq c d : char_eqb c d = true ↔ c = d.
Proof. unfold char_eqb. apply N.eqb_eq. Qed.

Lemma char_eqb_refl c : char_eqb c c = true.
Proof. by apply char_eqb_eq. Qed.

Lemma startswith_spec p s : startswith p s = true ↔ ∃ t, s = p ++ t.
Proof.
  revert s. induction p as [|a p IH]; intros s; simpl.
  - split; [eauto | done].
  - destruct s as [|b s].
    + split; [done | intros [t Ht]; discriminate].
    + rewrite andb_true_iff, char_eqb_eq, IH. split.
      * intros [-> [t ->]]. eauto.
      * intros [t Ht]. injection Ht as -> ->. eauto.
Qed.

Lemma startswith_app p t : startswith p (p ++ t) = true.
Proof. apply startswith_spec. eauto. Qed.

Lemma startswith_drop p s : startswith p s = true → s = p ++ drop (length p) s.
Proof.
  intros [t ->]%startswith_spec. by rewrite drop_app_length.
Qed.

Lemma str_in_spec sub s : str_in sub s = true ↔ ∃ a b, s = a ++ sub ++ b.
Proof.
  induction s as [|c s IH]; simpl.
  - rewrite orb_false_r, startswith_spec. split.
    + intros [t Ht]. exists [], t. done.
    + intros (a & b & Hab). destruct a; [|done]. simpl in Hab. eauto.
  - rewrite orb_true_iff, startswith_spec, IH. split.
    + intros [[t Ht] | (a & b & ->)].
      * exists [], t. done.
      * exists (c :: a), b. done.
    + intros (a & b & Hab). destruct a as [|d a].
      * left. exists b. done.
      * right. injection Hab as -> ->. eauto.
Qed.

Lemma str_in_app_r sub a s : str_in sub (a ++ s) = false → str_in sub s = false.
Proof.
  intros H. apply not_true_is_false. intros (x & y & ->)%str_in_spec.
  apply not_false_iff_true in H; [done|].
  apply str_in_spec. exists (a ++ x), y. by rewrite <- !app_assoc.
Qed.

Lemma str_in_app_l sub s b : str_in sub (s ++ b) = false → str_in sub s = false.
Proof.
  intros H. apply not_true_is_false. intros (x & y & ->)%str_in_spec.
  apply not_false_iff_true in H; [done|].
  apply str_in_spec. exists x, (y ++ b). by rewrite <- !app_assoc.
Qed.

Lemma str_in_startswith sub s : str_in sub s = false → startswith sub s = false.
Proof. destruct s; simpl; intros H; by apply orb_false_elim in H as [? _]. Qed.

Lemma str_in_self sub : str_in sub sub = true.
Proof. apply str_in_spec. exists [], []. by rewrite app_nil_r. Qed.

Lemma str_in_trans a b s : str_in a b = true → str_in b s = true → str_in a s = true.
Proof.
  rewrite !str_in_spec. intros (x & y & ->) (u & v & ->).
  exists (u ++ x), (y ++ v). by rewrite <- !app_assoc.
Qed.

Lemma str_in_nil s : str_in [] s = true.
Proof. by destruct s. Qed.

(** [s.partition(sep)] splits at the first occurrence. *)
Lemma str_partition_Some sep s a b :
  str_partition sep s = Some (a, b) →
  s = a ++ sep ++ b ∧
  ∀ x y, a = x ++ y → y ≠ [] → startswith sep (y ++ sep ++ b) = false.
Proof.
  revert a. induction s as [|c s IH]; intros a; simpl.
  - destruct (startswith sep []) eqn:E; [|done].
    intros [= <- <-]. split.
    + apply startswith_drop in E. by rewrite app_nil_l.
    + intros x y Hxy. by destruct x, y.
  - destruct (startswith sep (c :: s)) eqn:E.
    + intros [= <- <-]. split.
      * by apply startswith_drop in E.
      * intros x y Hxy. by destruct x, y.
    + destruct (str_partition sep s) as [[a' b']|] eqn:E'; [|done].
      intros [= <- <-]. destruct (IH a' eq_refl) as [-> Hfirst]. split; [done|].
      intros x y Hxy Hy. destruct x as [|d x]; simpl in Hxy.
      * subst y. done.
      * injection Hxy as -> ->. by eapply Hfirst.
Qed.

Lemma str_partition_None sep s : str_partition sep s = None ↔ str_in sep s = false.
Proof.
  induction s as [|c s IH]; simpl.
  - destruct (startswith sep []); simpl; split; done.
  - destruct (startswith sep (c :: s)); simpl; [split; done|].
    rewrite <- IH. destruct (str_partition sep s) as [[? ?]|]; split; done.
Qed.

Lemma str_partition_cons sep c s :
  str_partition sep (c :: s) =
    if startswith sep (c :: s) then Some ([], drop (length sep) (c :: s))
    else match str_partition sep s with
         | Some (a, b) => Some (c :: a, b)
         | None => None
         end.
Proof. done. Qed.

Lemma str_partition_hit sep s :
  startswith sep s = true → str_partition sep s = Some ([], drop (length sep) s).
Proof. intros H. destruct s; simpl; by rewrite H. Qed.

(** The converse: a split with no earlier occurrence is the partition. *)
Lemma str_partition_first sep a b :
  (∀ x y, a = x ++ y → y ≠ [] → startswith sep (y ++ sep ++ b) = false) →
  str_partition sep (a ++ sep ++ b) = Some (a, b).
Proof.
  induction a as [|c a IH]; intros Hfirst.
  - rewrite app_nil_l, str_partition_hit by apply startswith_app.
    by rewrite drop_app_length.
  - rewrite <- app_comm_cons, str_partition_cons, app_comm_cons.
    rewrite (Hfirst [] (c :: a)) by done.
    rewrite IH; [done|]. intros x y -> Hy. by apply (Hfirst (c :: x) y).
Qed.

Lemma str_partition_nil_l sep b : str_partition sep (sep ++ b) = Some ([], b).
Proof. apply (str_partition_first sep []). intros x y Hxy. by destruct x, y. Qed.

End strings.

(** ** Stripping *)

Section stripping.
Implicit Types (s a b : pystr) (c : char).

Lemma lstrip_app a b :
  lstrip (a ++ b) = if forallb isspace a then lstrip b else lstrip a ++ b.
Proof.
  induction a as [|c a IH]; simpl; [done|].
  destruct (isspace c); simpl; done.
Qed.

Lemma lstrip_nonspace c s : isspace c = false → lstrip (c :: s) = c :: s.
Proof. intros H. simpl. by rewrite H. Qed.

Lemma lstrip_all_space a : forallb isspace a = true → lstrip a = [].
Proof.
  induction a as [|c a IH]; simpl; [done|].
  destruct (isspace c); simpl; [done | discriminate].
Qed.

Lemma lstrip_nil_all_space a : lstrip a = [] → forallb isspace a = true.
Proof.
  induction a as [|c a IH]; simpl; [done|].
  destruct (isspace c); simpl; [done | discriminate].
Qed.

Lemma rstrip_snoc_space s c : isspace c = true → rstrip (s ++ [c]) = rstrip s.
Proof.
  intros H. unfold rstrip. rewrite rev_app_distr. simpl. by rewrite H.
Qed.

Lemma rstrip_snoc_nonspace s c : isspace c = false → rstrip (s ++ [c]) = s ++ [c].
Proof.
  intros H. unfold rstrip. rewrite rev_app_distr. simpl. rewrite H.
  simpl. by rewrite rev_involutive.
Qed.

Lemma rstrip_app_nonspace a c b :
  isspace c = false → rstrip ((a ++ [c]) ++ b) = (a ++ [c]) ++ rstrip b.
Proof.
  intros H. unfold rstrip. rewrite (rev_app_distr (a ++ [c]) b), lstrip_app.
  destruct (forallb isspace (rev b)) eqn:E.
  - rewrite (lstrip_all_space _ E), app_nil_r. rewrite rev_app_distr. simpl.
    rewrite H. simpl. by rewrite rev_involutive.
  - rewrite rev_app_distr, !rev_app_distr. simpl. by rewrite rev_involutive.
Qed.

Lemma strip_snoc_space s c : isspace c = true → strip (s ++ [c]) = strip s.
Proof.
  intros H. unfold strip. rewrite lstrip_app.
  destruct (forallb isspace s) eqn:E.
  - simpl. rewrite H. by rewrite (lstrip_all_space _ E).
  - by apply rstrip_snoc_space.
Qed.

Lemma strip_cons_space s c : isspace c = true → strip (c :: s) = strip s.
Proof. intros H. unfold strip. simpl. by rewrite H. Qed.

(** A text with a non-space first and last character is its own strip. *)
Lemma strip_framed c a d :
  isspace c = false → isspace d = false → strip (c :: a ++ [d]) = c :: a ++ [d].
Proof.
  intros Hc Hd. unfold strip. rewrite (lstrip_nonspace _ _ Hc).
  by rewrite app_comm_cons, rstrip_snoc_nonspace.
Qed.

(** Stripping around a block that starts and ends with non-space characters. *)
Lemma strip_around a c M d b :
  isspace c = false → isspace d = false →
  strip (a ++ (c :: M ++ [d]) ++ b) = lstrip a ++ (c :: M ++ [d]) ++ rstrip b.
Proof.
  intros Hc Hd. unfold strip.
  assert (lstrip (a ++ (c :: M ++ [d]) ++ b) = lstrip a ++ (c :: M ++ [d]) ++ b) as ->.
  { rewrite lstrip_app. destruct (forallb isspace a) eqn:E; [|done].
    rewrite (lstrip_all_space _ E). simpl. by rewrite Hc. }
  rewrite (app_assoc (lstrip a)), (app_comm_cons M [d] c), (app_assoc (lstrip a)).
  rewrite rstrip_app_nonspace by done. by rewrite <- !app_assoc.
Qed.

Lemma lstrip_head s c t : lstrip s = c :: t → isspace c = false.
Proof.
  induction s as [|a s IH]; simpl; [done|].
  destruct (isspace a) eqn:E; [done|]. by intros [= <- <-].
Qed.

Lemma forallb_rev (f : N → bool) (l : pystr) : forallb f (rev l) = forallb f l.
Proof.
  induction l as [|a l IH]; simpl; [done|].
  rewrite forallb_app, IH. simpl. rewrite andb_true_r. apply andb_comm.
Qed.

Lemma rstrip_nil_all_space s : rstrip s = [] → forallb isspace s = true.
Proof.
  unfold rstrip. intros H. apply (f_equal (@rev N)) in H.
  rewrite rev_involutive in H. simpl in H.
  apply lstrip_nil_all_space in H. by rewrite forallb_rev in H.
Qed.

Lemma strip_nil_all_space s : strip s = [] ↔ forallb isspace s = true.
Proof.
  unfold strip. split.
  - intros H%rstrip_nil_all_space. apply lstrip_nil_all_space.
    destruct (lstrip s) as [|c t] eqn:E; [done|].
    apply lstrip_head in E. simpl in H. by rewrite E in H.
  - intros H. by rewrite (lstrip_all_space _ H).
Qed.

(** What [rstrip] keeps in front of the stripped text is blank. *)
Lemma rstrip_strip s : ∃ w, rstrip s = w ++ strip s.
Proof.
  unfold strip. induction s as [|c s [w IH]]; [by exists []|].
  simpl. destruct (isspace c) eqn:E.
  - destruct (forallb isspace s) eqn:Es.
    + exists []. rewrite (lstrip_all_space _ Es). simpl.
      assert (rstrip (c :: s) = []) as ->; [|done].
      unfold rstrip. rewrite (lstrip_all_space (rev (c :: s))); [done|].
      rewrite forallb_rev. simpl. by rewrite E, Es.
    + exists (c :: w). rewrite <- app_comm_cons, <- IH.
      unfold rstrip. simpl. rewrite lstrip_app.
      rewrite forallb_rev, Es. rewrite rev_app_distr. done.
  - exists []. done.
Qed.

End stripping.

(** * Facts about the matcher *)

Section matcher.
Implicit Types (s t M : pystr) (c : char) (p : option char) (g : option pystr).
Implicit Types (fl : flags) (r R K : regex) (st m : mstate).

Lemma rmatch_lit fl M st :
  rmatch fl (lit M) st =
    if startswith M (rest st)
    then [MState (lit_prev M (prev st)) (drop (length M) (rest st)) (grp st)]
    else [].
Proof.
  revert st. induction M as [|a M IH]; intros [p s g]; simpl; [done|].
  destruct s as [|c s]; simpl; [done|].
  destruct (char_eqb a c) eqn:E; simpl; [|done].
  apply char_eqb_eq in E as ->.
  rewrite IH. simpl. by rewrite app_nil_r.
Qed.

Lemma rmatch_cat_lit fl M R st :
  rmatch fl (lit M ⋅ R) st =
    if startswith M (rest st)
    then rmatch fl R (MState (lit_prev M (prev st)) (drop (length M) (rest st)) (grp st))
    else [].
Proof.
  cbn [rmatch]. rewrite rmatch_lit.
  destruct (startswith M (rest st)); simpl; [|done]. by rewrite app_nil_r.
Qed.

(** ** Tails of a pattern *)

Lemma stops_eol fl : stops fl Eol (at_eol fl).
Proof.
  intros st. cbn [rmatch]. split; intros ->; [done|]. eauto.
Qed.

Lemma stops_lit fl M : stops fl (lit M) (startswith M).
Proof.
  intros st. rewrite rmatch_lit. split; intros ->; [done|]. eauto.
Qed.

Lemma stops_alt fl K1 K2 stop1 stop2 :
  stops fl K1 stop1 → stops fl K2 stop2 →
  stops fl (Alt K1 K2) (λ b, stop1 b || stop2 b).
Proof.
  intros H1 H2 st. destruct (H1 st) as [H1f H1t], (H2 st) as [H2f H2t].
  cbn [rmatch]. split.
  - intros [E1 E2]%orb_false_elim. by rewrite H1f, H2f.
  - intros E. destruct (stop1 (rest st)) eqn:E1.
    + destruct (H1t eq_refl) as (m & ms & -> & Hg). simpl. eauto.
    + simpl in E. destruct (H2t E) as (m & ms & -> & Hg).
      rewrite (H1f eq_refl). simpl. eauto.
Qed.

(** ** The lazy capture [(.*?)] under [re.DOTALL] *)

Lemma lazy_until_Some stop s a b :
  lazy_until stop s = Some (a, b) →
  s = a ++ b ∧ stop b = true ∧
  ∀ x y, a = x ++ y → y ≠ [] → stop (y ++ b) = false.
Proof.
  revert a. induction s as [|c s IH]; intros a; simpl.
  - destruct (stop []) eqn:E; [|done]. intros [= <- <-].
    split_and!; [done..|]. intros x y Hxy. by destruct x, y.
  - destruct (stop (c :: s)) eqn:E.
    + intros [= <- <-]. split_and!; [done..|]. intros x y Hxy. by destruct x, y.
    + destruct (lazy_until stop s) as [[a' b']|]; [|done].
      intros [= <- <-]. destruct (IH a' eq_refl) as (-> & Hb & Hfirst).
      split_and!; [done..|].
      intros x y Hxy Hy. destruct x as [|d x]; simpl in Hxy.
      * by subst y.
      * injection Hxy as -> ->. by eapply Hfirst.
Qed.

Lemma lazy_until_ext stop1 stop2 s :
  (∀ x y, s = x ++ y → stop1 y = stop2 y) →
  lazy_until stop1 s = lazy_until stop2 s.
Proof.
  induction s as [|c s IH]; intros H; simpl.
  - by rewrite (H [] []).
  - rewrite (H [] (c :: s)) by done. rewrite IH; [done|].
    intros x y ->. by apply (H (c :: x) y).
Qed.

Lemma lazy_until_first stop a b :
  stop b = true →
  (∀ x y, a = x ++ y → y ≠ [] → stop (y ++ b) = false) →
  lazy_until stop (a ++ b) = Some (a, b).
Proof.
  induction a as [|c a IH]; intros Hb Hfirst.
  - rewrite app_nil_l. destruct b; simpl; by rewrite Hb.
  - rewrite <- app_comm_cons. simpl. rewrite app_comm_cons.
    rewrite (Hfirst [] (c :: a)) by done.
    rewrite IH; [done..|]. intros x y -> Hy. by apply (Hfirst (c :: x) y).
Qed.

Lemma close_group_take k s st' :
  rest st' = s →
  close_group (k ++ s) st' = MState (prev st') s (Some k).
Proof.
  intros <-. unfold close_group. f_equal. f_equal.
  rewrite length_app, Nat.add_sub. by rewrite take_app_length.
Qed.

Lemma lazy_group_unfold fl K k s p g :
  DOTALL fl = true →
  (close_group (k ++ s) <$> lazy_star (atom_ok fl Dot) p s g) ≫= rmatch fl K =
    rmatch fl K (MState p s (Some k)) ++
    match s with
    | c :: t =>
        (close_group ((k ++ [c]) ++ t) <$> lazy_star (atom_ok fl Dot) (Some c) t g)
          ≫= rmatch fl K
    | [] => []
    end.
Proof.
  intros Hfl. destruct s as [|c t]; cbn [lazy_star fmap list_fmap mbind list_bind].
  - by rewrite close_group_take.
  - rewrite close_group_take by done. cbn [atom_ok]. rewrite Hfl.
    cbn [orb]. by rewrite <- (app_assoc k [c] t).
Qed.

Lemma lazy_group_head fl K stop :
  DOTALL fl = true → stops fl K stop →
  ∀ s k p g,
    grp <$> head ((close_group (k ++ s) <$> lazy_star (atom_ok fl Dot) p s g)
                    ≫= rmatch fl K)
    = (λ ab, Some (k ++ ab.1)) <$> lazy_until stop s.
Proof.
  intros Hfl HK. induction s as [|c t IH]; intros k p g;
    rewrite lazy_group_unfold by done; cbn [lazy_until].
  - destruct (HK (MState p [] (Some k))) as [Hf Ht]; cbn [rest grp] in *.
    destruct (stop []) eqn:E.
    + destruct (Ht eq_refl) as (m & ms & -> & Hg). simpl. by rewrite Hg, app_nil_r.
    + by rewrite (Hf eq_refl).
  - destruct (HK (MState p (c :: t) (Some k))) as [Hf Ht]; cbn [rest grp] in *.
    destruct (stop (c :: t)) eqn:E.
    + destruct (Ht eq_refl) as (m & ms & -> & Hg). simpl. by rewrite Hg, app_nil_r.
    + rewrite (Hf eq_refl), app_nil_l, IH.
      destruct (lazy_until stop t) as [[a b]|]; simpl; [|done].
      by rewrite <- app_assoc.
Qed.

(** The capture of [(.*?)K] at a given position. *)
Lemma rmatch_lazy_group fl K stop s p g :
  DOTALL fl = true → stops fl K stop →
  grp <$> head (rmatch fl (Group (LazyStar Dot) ⋅ K) (MState p s g))
  = (λ ab, Some ab.1) <$> lazy_until stop s.
Proof.
  intros Hfl HK. cbn [rmatch rest prev grp].
  apply (lazy_group_head fl K stop Hfl HK s [] p g).
Qed.

(** ** Searching for [M(.*?)K] *)

Lemma search_from_nil fl r p s :
  rmatch fl r (MState p s None) = [] →
  search_from fl r p s =
    match s with
    | c :: t => search_from fl r (Some c) t
    | [] => None
    end.
Proof. intros H. destruct s; simpl; by rewrite H. Qed.

Lemma search_from_hit fl r p s m ms :
  rmatch fl r (MState p s None) = m :: ms →
  search_from fl r p s = Some (MatchObj s m).
Proof. intros H. destruct s; simpl; by rewrite H. Qed.

(** A pattern that starts with a literal absent from the text finds nothing. *)
Lemma search_literal_absent fl M R s p :
  str_in M s = false → search_from fl (lit M ⋅ R) p s = None.
Proof.
  revert p. induction s as [|c s IH]; intros p H.
  - rewrite search_from_nil; [done|].
    rewrite rmatch_cat_lit. cbn [rest]. by rewrite (str_in_startswith _ _ H).
  - rewrite search_from_nil.
    + apply IH. simpl in H. by apply orb_false_elim in H as [_ ?].
    + rewrite rmatch_cat_lit. cbn [rest]. by rewrite (str_in_startswith _ _ H).
Qed.

(** [M(.*?)K] at a given position. *)
Lemma rmatch_block fl M K stop p s :
  DOTALL fl = true → stops fl K stop →
  grp <$> head (rmatch fl (lit M ⋅ Group (LazyStar Dot) ⋅ K) (MState p s None))
  = if startswith M s
    then (λ ab, Some ab.1) <$> lazy_until stop (drop (length M) s)
    else None.
Proof.
  intros Hfl HK. rewrite rmatch_cat_lit. cbn [rest prev grp].
  destruct (startswith M s); [|done].
  by apply rmatch_lazy_group.
Qed.

Lemma rmatch_block_hit fl M K stop p s a b :
  DOTALL fl = true → stops fl K stop →
  startswith M s = true →
  lazy_until stop (drop (length M) s) = Some (a, b) →
  ∃ m ms, rmatch fl (lit M ⋅ Group (LazyStar Dot) ⋅ K) (MState p s None) = m :: ms
          ∧ grp m = Some a.
Proof.
  intros Hfl HK E Hlazy.
  pose proof (rmatch_block fl M K stop p s Hfl HK) as Hhd.
  rewrite E, Hlazy in Hhd.
  destruct (rmatch fl (lit M ⋅ Group (LazyStar Dot) ⋅ K) (MState p s None))
    as [|m ms]; [done|].
  exists m, ms. split; [done|]. by injection Hhd.
Qed.

Lemma rmatch_block_inv fl M K stop p s m ms :
  DOTALL fl = true → stops fl K stop →
  rmatch fl (lit M ⋅ Group (LazyStar Dot) ⋅ K) (MState p s None) = m :: ms →
  ∃ a b, s = M ++ a ++ b ∧ grp m = Some a ∧
         lazy_until stop (drop (length M) s) = Some (a, b).
Proof.
  intros Hfl HK Em.
  pose proof (rmatch_block fl M K stop p s Hfl HK) as Hhd.
  rewrite Em in Hhd. destruct (startswith M s) eqn:E; [|done].
  destruct (lazy_until stop (drop (length M) s)) as [[a b]|] eqn:El; [|done].
  injection Hhd as Hg. exists a, b. split_and!; [|done..].
  apply lazy_until_Some in El as (Hab & _ & _). rewrite <- Hab.
  by apply startswith_drop.
Qed.

Lemma rmatch_block_miss fl M R p s :
  startswith M s = false → rmatch fl (lit M ⋅ R) (MState p s None) = [].
Proof. intros E. rewrite rmatch_cat_lit. cbn [rest]. by rewrite E. Qed.

(** The match found is at the first occurrence of [M], when [(.*?)K] can be
    completed there. *)
Lemma search_block fl M K stop s pre body a b :
  DOTALL fl = true → stops fl K stop →
  str_partition M s = Some (pre, body) →
  lazy_until stop body = Some (a, b) →
  ∀ p, ∃ mo,
    search_from fl (lit M ⋅ Group (LazyStar Dot) ⋅ K) p s = Some mo ∧ group1 mo = a.
Proof.
  intros Hfl HK. revert pre. induction s as [|c s IH]; intros pre Hpart Hlazy p.
  - simpl in Hpart. destruct (startswith M []) eqn:E; [|done].
    injection Hpart as <- <-.
    destruct (rmatch_block_hit fl M K stop p [] a b Hfl HK E Hlazy)
      as (m & ms & Em & Hg).
    exists (MatchObj [] m). split; [by eapply search_from_hit|].
    unfold group1. simpl. by rewrite Hg.
  - rewrite str_partition_cons in Hpart.
    destruct (startswith M (c :: s)) eqn:E.
    + injection Hpart as <- <-.
      destruct (rmatch_block_hit fl M K stop p (c :: s) a b Hfl HK E Hlazy)
        as (m & ms & Em & Hg).
      exists (MatchObj (c :: s) m). split; [by eapply search_from_hit|].
      unfold group1. simpl. by rewrite Hg.
    + destruct (str_partition M s) as [[pre' body']|] eqn:E'; [|done].
      injection Hpart as <- <-.
      rewrite search_from_nil by by apply rmatch_block_miss.
      by apply (IH pre').
Qed.

(** Whatever [M(.*?)K] captures is a piece of the text that follows [M]. *)
Lemma search_block_sound fl M K stop s p mo :
  DOTALL fl = true → stops fl K stop →
  search_from fl (lit M ⋅ Group (LazyStar Dot) ⋅ K) p s = Some mo →
  ∃ x y, s = x ++ M ++ group1 mo ++ y.
Proof.
  intros Hfl HK. revert p. induction s as [|c s IH]; intros p Hs.
  - destruct (rmatch fl (lit M ⋅ Group (LazyStar Dot) ⋅ K) (MState p [] None))
      as [|m ms] eqn:Em.
    + by rewrite search_from_nil in Hs.
    + rewrite (search_from_hit _ _ _ _ _ _ Em) in Hs. injection Hs as <-.
      apply (rmatch_block_inv fl M K stop) in Em as (a & b & Hs & Hg & _); [|done..].
      exists [], b. unfold group1. simpl. by rewrite Hg.
  - destruct (rmatch fl (lit M ⋅ Group (LazyStar Dot) ⋅ K) (MState p (c :: s) None))
      as [|m ms] eqn:Em.
    + rewrite search_from_nil in Hs by done.
      destruct (IH _ Hs) as (x & y & ->). by exists (c :: x), y.
    + rewrite (search_from_hit _ _ _ _ _ _ Em) in Hs. injection Hs as <-.
      apply (rmatch_block_inv fl M K stop) in Em as (a & b & Hs & Hg & _); [|done..].
      exists [], b. unfold group1. simpl. by rewrite Hg.
Qed.

(** [re.findall(...)[0]] is group 1 of what [re.search] finds. *)
Lemma findall_head fl r s p n :
  (length s < n)%nat →
  head (findall_from n fl r p s) = group1 <$> search_from fl r p s.
Proof.
  revert p n. induction s as [|c s IH]; intros p [|n] Hn; try lia.
  - simpl. by destruct (rmatch fl r (MState p [] None)).
  - cbn [findall_from search_from].
    destruct (rmatch fl r (MState p (c :: s) None)) as [|m ms]; [|done].
    apply IH. simpl in Hn. lia.
Qed.

Lemma re_findall_head fl r s :
  head (re_findall fl r s) = group1 <$> re_search fl r s.
Proof. apply findall_head. lia. Qed.

(** ** Membership in the list of matches *)

Lemma elem_of_rmatch_cat fl r1 r2 st m :
  m ∈ rmatch fl (r1 ⋅ r2) st ↔ ∃ st', st' ∈ rmatch fl r1 st ∧ m ∈ rmatch fl r2 st'.
Proof.
  cbn [rmatch]. rewrite list_elem_of_bind. split; intros (x & ? & ?); eauto.
Qed.

Lemma elem_of_rmatch_one fl a st m :
  m ∈ rmatch fl (One a) st ↔
  ∃ c t, rest st = c :: t ∧ atom_ok fl a c = true ∧ m = MState (Some c) t (grp st).
Proof.
  cbn [rmatch]. destruct (rest st) as [|c t].
  - rewrite elem_of_nil. split; [done | by intros (? & ? & ? & _)].
  - destruct (atom_ok fl a c) eqn:E.
    + rewrite list_elem_of_singleton. split.
      * intros ->. eauto.
      * by intros (c' & t' & [= <- <-] & _ & ->).
    + rewrite elem_of_nil. split; [done|].
      intros (c' & t' & [= <- <-] & ? & _). congruence.
Qed.

Lemma elem_of_rmatch_lit fl M st m :
  m ∈ rmatch fl (lit M) st ↔
  ∃ t, rest st = M ++ t ∧ m = MState (lit_prev M (prev st)) t (grp st).
Proof.
  rewrite rmatch_lit. destruct (startswith M (rest st)) eqn:E.
  - rewrite list_elem_of_singleton. apply startswith_drop in E. split.
    + intros ->. eauto.
    + intros (t & Ht & ->). by rewrite Ht, drop_app_length.
  - rewrite elem_of_nil. split; [done|]. intros (t & Ht & _).
    rewrite Ht, startswith_app in E. done.
Qed.

Lemma elem_of_greedy_star ok p s g m :
  m ∈ greedy_star ok p s g ↔
  ∃ ws t, s = ws ++ t ∧ forallb ok ws = true ∧ m = MState (lit_prev ws p) t g.
Proof.
  revert p. induction s as [|c s IH]; intros p; cbn [greedy_star].
  - rewrite app_nil_l, list_elem_of_singleton. split.
    + intros ->. by exists [], [].
    + intros (ws & t & Hs & _ & ->). symmetry in Hs.
      apply app_eq_nil in Hs as [-> ->]. done.
  - rewrite elem_of_app, list_elem_of_singleton. split.
    + intros [Hin | ->].
      * destruct (ok c) eqn:E; [|by apply elem_of_nil in Hin].
        apply IH in Hin as (ws & t & -> & Hws & ->).
        exists (c :: ws), t. simpl. by rewrite E, Hws.
      * by exists [], (c :: s).
    + intros (ws & t & Hs & Hws & ->). destruct ws as [|d ws].
      * right. simpl in Hs. by rewrite Hs.
      * left. injection Hs as <- ->. simpl in Hws.
        apply andb_prop in Hws as [-> Hws]. apply IH. eauto.
Qed.

Lemma elem_of_rmatch_plus fl a st m :
  m ∈ rmatch fl (Plus a) st ↔
  ∃ c ws t, rest st = c :: ws ++ t ∧ atom_ok fl a c = true
            ∧ forallb (atom_ok fl a) ws = true
            ∧ m = MState (lit_prev ws (Some c)) t (grp st).
Proof.
  cbn [rmatch]. destruct (rest st) as [|c s].
  - rewrite elem_of_nil. split; [done | by intros (? & ? & ? & ? & _)].
  - destruct (atom_ok fl a c) eqn:E.
    + rewrite elem_of_greedy_star. split.
      * intros (ws & t & -> & Hws & ->). by exists c, ws, t.
      * intros (c' & ws & t & [= <- ->] & _ & Hws & ->). eauto.
    + rewrite elem_of_nil. split; [done|].
      intros (c' & ws & t & [= <- ->] & ? & _). congruence.
Qed.

Lemma head_bind {A B} (f : A → list B) (l : list A) (y : B) :
  head (l ≫= f) = Some y → ∃ x, x ∈ l ∧ head (f x) = Some y.
Proof.
  induction l as [|x l IH]; [done|]. cbn [mbind list_bind].
  destruct (f x) as [|z zs] eqn:E.
  - rewrite app_nil_l. intros (x' & ? & ?)%IH. exists x'. split; [by right | done].
  - simpl. intros [= ->]. exists x. rewrite E. split; [by left | done].
Qed.

Lemma nonempty_elem {A} (l : list A) : l ≠ [] ↔ ∃ x, x ∈ l.
Proof.
  destruct l as [|x l].
  - split; [done | by intros [? ?%elem_of_nil]].
  - split; [|done]. intros _. exists x. by left.
Qed.

(** [re.search] succeeds iff the pattern matches at some position. *)
Lemma is_match_search fl r s p :
  is_match (search_from fl r p s) = true ↔
  ∃ pre t, s = pre ++ t ∧ rmatch fl r (MState (lit_prev pre p) t None) ≠ [].
Proof.
  revert p. induction s as [|c s IH]; intros p.
  - simpl. destruct (rmatch fl r (MState p [] None)) as [|m ms] eqn:E; simpl.
    + split; [done|]. intros (pre & t & Hs & Hne). symmetry in Hs.
      apply app_eq_nil in Hs as [-> ->]. done.
    + split; [|done]. intros _. exists [], []. split; [done|]. simpl. by rewrite E.
  - cbn [search_from].
    destruct (rmatch fl r (MState p (c :: s) None)) as [|m ms] eqn:E.
    + rewrite IH. split.
      * intros (pre & t & -> & Hne). by exists (c :: pre), t.
      * intros (pre & t & Hs & Hne). destruct pre as [|d pre].
        -- simpl in *. subst t. done.
        -- injection Hs as <- ->. eauto.
    + simpl. split; [|done]. intros _. exists [], (c :: s).
      split; [done|]. simpl. by rewrite E.
Qed.

End matcher.

(** * Facts about the extraction of the three blocks *)

Section extraction.
Import BioinfoSkillConverter.
Implicit Types (s body pre resp tail : pystr).

(** [(.*?)$] without [re.MULTILINE] takes everything, except a final line
    feed. *)
Lemma lazy_until_eol body :
  ∃ a b, lazy_until (at_eol re_DOTALL) body = Some (a, b)
         ∧ (a = body ∨ body = a ++ [LF]).
Proof.
  induction body as [|c t IHt].
  - exists [], []. split; [done | by left].
  - destruct IHt as (a & b & IH & Hab). cbn [lazy_until]. destruct (at_eol re_DOTALL (c :: t)) eqn:E.
    + exists [], (c :: t). split; [done|]. right.
      simpl in E. apply andb_prop in E as [Hc Ht]. apply char_eqb_eq in Hc as <-.
      by destruct t.
    + rewrite IH. exists (c :: a), b. split; [done|].
      destruct Hab as [-> | ->]; [by left | by right].
Qed.

Lemma lazy_until_eol_strip body :
  ∃ a b, lazy_until (at_eol re_DOTALL) body = Some (a, b) ∧ strip a = strip body.
Proof.
  destruct (lazy_until_eol body) as (a & b & H & Hab); exists a, b.
  split; [done|]. destruct Hab as [-> | ->]; [done|].
  by rewrite strip_snoc_space.
Qed.

(** With the alternative [M2|$] and no [M2] in sight, the same. *)
Lemma lazy_until_alt_absent M2 body :
  str_in M2 body = false →
  lazy_until (λ b, startswith M2 b || at_eol re_DOTALL b) body
  = lazy_until (at_eol re_DOTALL) body.
Proof.
  intros H. apply lazy_until_ext. intros x y ->.
  apply str_in_app_r, str_in_startswith in H. by rewrite H.
Qed.

(** With the alternative [M2|$], the capture ends at the first [M2]. *)
Lemma lazy_until_alt_present M2 body a rest :
  M2 ≠ [] →
  str_partition M2 body = Some (a, rest) →
  lazy_until (λ b, startswith M2 b || at_eol re_DOTALL b) body = Some (a, M2 ++ rest).
Proof.
  intros HM2 [-> Hfirst]%str_partition_Some.
  apply lazy_until_first.
  - by rewrite startswith_app.
  - intros x y -> Hy. rewrite (Hfirst x y) by done. simpl.
    destruct y as [|c y]; [done|]. simpl.
    destruct y, M2; try done; simpl; by rewrite andb_false_r.
Qed.

Lemma stops_marker_or_eol M2 :
  stops re_DOTALL (Alt (lit M2) Eol) (λ b, startswith M2 b || at_eol re_DOTALL b).
Proof. apply stops_alt; [apply stops_lit | apply stops_eol]. Qed.

(** A block whose marker is absent is the empty string. *)
Lemma extract_skill_md_absent resp :
  str_in (str "===SKILL.md===") resp = false → extract_skill_md resp = [].
Proof.
  intros H. unfold extract_skill_md, re_search, skill_block_re.
  by rewrite search_literal_absent.
Qed.

Lemma extract_reference_md_absent resp :
  str_in (str "===REFERENCE.md===") resp = false → extract_reference_md resp = [].
Proof.
  intros H. unfold extract_reference_md, re_search, reference_block_re.
  by rewrite search_literal_absent.
Qed.

Lemma extract_example_script_absent resp :
  str_in (str "===EXAMPLE_SCRIPT.py===") resp = false →
  extract_example_script resp = [].
Proof.
  intros H. unfold extract_example_script, re_search, script_block_re.
  by rewrite search_literal_absent.
Qed.

(** A block runs from its first marker to the first marker of the next
    entry, if there is one after it, and to the end of the response
    otherwise. *)
Lemma extract_block_to_end M M2 resp pre body :
  str_partition M resp = Some (pre, body) →
  str_in M2 body = false →
  ∃ mo, re_search re_DOTALL (lit M ⋅ Group (LazyStar Dot) ⋅ Alt (lit M2) Eol) resp
          = Some mo
        ∧ strip (group1 mo) = strip body.
Proof.
  intros Hpart Habs.
  destruct (lazy_until_eol_strip body) as (a & b & Hlazy & Hstrip).
  rewrite <- (lazy_until_alt_absent M2) in Hlazy by done.
  destruct (search_block re_DOTALL M _ _ resp pre body a b eq_refl
              (stops_marker_or_eol M2) Hpart Hlazy None) as (mo & Hmo & Hg).
  exists mo. split; [done|]. by rewrite Hg.
Qed.

Lemma extract_block_to_marker M M2 resp pre body a rest :
  M2 ≠ [] →
  str_partition M resp = Some (pre, body) →
  str_partition M2 body = Some (a, rest) →
  ∃ mo, re_search re_DOTALL (lit M ⋅ Group (LazyStar Dot) ⋅ Alt (lit M2) Eol) resp
          = Some mo
        ∧ group1 mo = a.
Proof.
  intros HM2 Hpart Hpart2.
  pose proof (lazy_until_alt_present M2 body a rest HM2 Hpart2) as Hlazy.
  apply (search_block re_DOTALL M _ _ resp pre body a _ eq_refl
           (stops_marker_or_eol M2) Hpart Hlazy None).
Qed.

Lemma extract_skill_md_to_end resp pre body :
  str_partition (str "===SKILL.md===") resp = Some (pre, body) →
  str_in (str "===REFERENCE.md===") body = false →
  extract_skill_md resp = strip body.
Proof.
  intros Hpart Habs. unfold extract_skill_md, skill_block_re.
  by destruct (extract_block_to_end _ _ _ _ _ Hpart Habs) as (mo & -> & ->).
Qed.

Lemma extract_skill_md_to_marker resp pre body a rest :
  str_partition (str "===SKILL.md===") resp = Some (pre, body) →
  str_partition (str "===REFERENCE.md===") body = Some (a, rest) →
  extract_skill_md resp = strip a.
Proof.
  intros Hpart Hpart2. unfold extract_skill_md, skill_block_re.
  destruct (extract_block_to_marker (str "===SKILL.md===") (str "===REFERENCE.md===")
              resp pre body a rest) as (mo & -> & ->); done.
Qed.

Lemma extract_reference_md_to_end resp pre body :
  str_partition (str "===REFERENCE.md===") resp = Some (pre, body) →
  str_in (str "===EXAMPLE_SCRIPT.py===") body = false →
  extract_reference_md resp = strip body.
Proof.
  intros Hpart Habs. unfold extract_reference_md, reference_block_re.
  by destruct (extract_block_to_end _ _ _ _ _ Hpart Habs) as (mo & -> & ->).
Qed.

Lemma extract_reference_md_to_marker resp pre body a rest :
  str_partition (str "===REFERENCE.md===") resp = Some (pre, body) →
  str_partition (str "===EXAMPLE_SCRIPT.py===") body = Some (a, rest) →
  extract_reference_md resp = strip a.
Proof.
  intros Hpart Hpart2. unfold extract_reference_md, reference_block_re.
  destruct (extract_block_to_marker (str "===REFERENCE.md===")
              (str "===EXAMPLE_SCRIPT.py===") resp pre body a rest)
    as (mo & -> & ->); done.
Qed.

(** The text from which the example script is taken: a fenced block if it
    has one, all of it otherwise. *)
Lemma extract_example_script_tail resp pre tail :
  str_partition (str "===EXAMPLE_SCRIPT.py===") resp = Some (pre, tail) →
  extract_example_script resp =
    match re_findall re_DOTALL code_fence_re (strip tail) with
    | code :: _ => code
    | [] => strip tail
    end.
Proof.
  intros Hpart. unfold extract_example_script, script_block_re.
  destruct (lazy_until_eol_strip tail) as (a & b & Hlazy & Hstrip).
  destruct (search_block re_DOTALL _ _ _ resp pre tail a b eq_refl
              (stops_eol re_DOTALL) Hpart Hlazy None) as (mo & Hmo & Hg).
  unfold re_search. rewrite Hmo, Hg, Hstrip. done.
Qed.

(** What [re.findall] returns first for the fence pattern lies in the text. *)
Lemma code_fence_head_in s code rest :
  re_findall re_DOTALL code_fence_re s = code :: rest → str_in code s = true.
Proof.
  intros H. pose proof (re_findall_head re_DOTALL code_fence_re s) as Hhd.
  rewrite H in Hhd. simpl in Hhd.
  destruct (re_search re_DOTALL code_fence_re s) as [mo|] eqn:Es; [|done].
  injection Hhd as ->.
  apply (search_block_sound re_DOTALL _ _ _ _ _ _ eq_refl (stops_lit _ _)) in Es
    as (x & y & ->).
  apply str_in_spec. exists (x ++ str "```python" ++ [LF]), y.
  by rewrite <- !app_assoc.
Qed.

(** No opening fence, no fenced block. *)
Lemma code_fence_absent s :
  str_in (str "```python" ++ [LF]) s = false →
  re_findall re_DOTALL code_fence_re s = [].
Proof.
  intros H. pose proof (re_findall_head re_DOTALL code_fence_re s) as Hhd.
  unfold re_search, code_fence_re in Hhd.
  rewrite search_literal_absent in Hhd by done.
  by destruct (re_findall _ _ s).
Qed.

(** A fenced block at the first opening fence is what [re.findall] returns
    first. *)
Lemma code_fence_first s pre body code rest :
  str_partition (str "```python" ++ [LF]) s = Some (pre, body) →
  str_partition (LF :: str "```") body = Some (code, rest) →
  head (re_findall re_DOTALL code_fence_re s) = Some code.
Proof.
  intros Hpart Hpart2. rewrite re_findall_head. unfold re_search, code_fence_re.
  assert (lazy_until (startswith (LF :: str "```")) body
          = Some (code, (LF :: str "```") ++ rest)) as Hlazy.
  { apply str_partition_Some in Hpart2 as [-> Hfirst].
    apply lazy_until_first; [apply startswith_app | done]. }
  destruct (search_block re_DOTALL _ _ _ s pre body code _ eq_refl
              (stops_lit _ _) Hpart Hlazy None) as (mo & -> & <-).
  done.
Qed.

(** A completion with the three markers in schema order parses into the
    three stripped blocks. *)
Lemma extract_in_order resp pre a b c :
  str_partition (str "===SKILL.md===") resp
    = Some (pre, a ++ str "===REFERENCE.md===" ++ b
                   ++ str "===EXAMPLE_SCRIPT.py===" ++ c) →
  str_partition (str "===REFERENCE.md===")
    (a ++ str "===REFERENCE.md===" ++ b ++ str "===EXAMPLE_SCRIPT.py===" ++ c)
    = Some (a, b ++ str "===EXAMPLE_SCRIPT.py===" ++ c) →
  str_partition (str "===REFERENCE.md===") resp
    = Some (pre ++ str "===SKILL.md===" ++ a, b ++ str "===EXAMPLE_SCRIPT.py===" ++ c) →
  str_partition (str "===EXAMPLE_SCRIPT.py===") (b ++ str "===EXAMPLE_SCRIPT.py===" ++ c)
    = Some (b, c) →
  str_partition (str "===EXAMPLE_SCRIPT.py===") resp
    = Some (pre ++ str "===SKILL.md===" ++ a ++ str "===REFERENCE.md===" ++ b, c) →
  extract_skill_md resp = strip a
  ∧ extract_reference_md resp = strip b
  ∧ extract_example_script resp =
      match re_findall re_DOTALL code_fence_re (strip c) with
      | code :: _ => code
      | [] => strip c
      end.
Proof.
  intros Hs Hsr Hr Hre He. split_and!.
  - by eapply extract_skill_md_to_marker.
  - by eapply extract_reference_md_to_marker.
  - by eapply extract_example_script_tail.
Qed.

End extraction.

(** * Facts about the validators and the two parse functions *)

Section validators.
Import skill_validator BioinfoSkillConverter.

Lemma is_blank_nil : is_blank [] = true.
Proof. done. Qed.

Lemma is_blank_all_space content :
  is_blank content = true ↔ forallb isspace content = true.
Proof.
  unfold is_blank. rewrite <- strip_nil_all_space.
  destruct content as [|c t]; [done|]. simpl.
  destruct (strip (c :: t)); simpl; split; done.
Qed.

(** The dictionary [parse_skill] returns holds the three extractions. *)
Lemma parse_skill_contents self resp ok err contents :
  parse_skill self resp = Ret (ok, err, contents) →
  contents = make_contents (extract_skill_md resp) (extract_reference_md resp)
               (extract_example_script resp).
Proof.
  unfold parse_skill.
  destruct (validate_skill_md _) as [ok1 err1].
  destruct (negb (truthy ok1)); [by intros [= _ _ <-]|].
  destruct (validate_reference_md _) as [ok2 err2].
  destruct (negb (truthy ok2)); [by intros [= _ _ <-]|].
  destruct (validate_example_script _ _) as [[ok3 err3]|e]; [|done].
  destruct (negb (truthy ok3)); by intros [= _ _ <-].
Qed.

Lemma make_contents_lookup a b c :
  make_contents a b c !! "skill_md" = Some a
  ∧ make_contents a b c !! "reference_md" = Some b
  ∧ make_contents a b c !! "example_script" = Some c.
Proof.
  unfold make_contents. split_and!.
  - rewrite lookup_insert_ne by done. rewrite lookup_insert_ne by done.
    by rewrite lookup_insert_eq.
  - rewrite lookup_insert_ne by done. by rewrite lookup_insert_eq.
  - by rewrite lookup_insert_eq.
Qed.

Lemma make_contents_dom a b c :
  dom (make_contents a b c) = list_to_set (skill_schema.*1).
Proof. unfold make_contents. rewrite !dom_insert_L, dom_empty_L. set_solver. Qed.

Lemma validate_example_script_raises ast_parse content e :
  validate_example_script ast_parse content = Raise e
  ↔ is_blank content = false ∧ ast_parse content = OtherError e.
Proof.
  unfold validate_example_script.
  destruct (is_blank content); [split; [done | by intros [? _]]|].
  destruct (ast_parse content); split; try done; try (by intros [_ ?]).
  - by intros [= ->].
  - by intros [_ [= ->]].
Qed.

Lemma parse_skill_returns self resp :
  (∀ src e, ast_parse self src ≠ OtherError e) → ∃ r, parse_skill self resp = Ret r.
Proof.
  intros Hp. unfold parse_skill.
  destruct (validate_skill_md _) as [ok1 err1].
  destruct (negb (truthy ok1)); [eauto|].
  destruct (validate_reference_md _) as [ok2 err2].
  destruct (negb (truthy ok2)); [eauto|].
  destruct (validate_example_script _ _) as [[ok3 err3]|e] eqn:E.
  - destruct (negb (truthy ok3)); eauto.
  - apply validate_example_script_raises in E as [_ E]. by apply Hp in E.
Qed.

Lemma parse_mcpcode_returns self resp :
  (∀ src e, BioinfoMCP.ast_parse self src ≠ OtherError e) →
  ∃ r, BioinfoMCP.parse_mcpcode self resp = Ret r.
Proof.
  intros Hp. unfold BioinfoMCP.parse_mcpcode.
  destruct (re_findall _ _ _) as [|code ?]; [eauto|].
  destruct (BioinfoMCP.ast_parse self code) eqn:E; [|eauto|by apply Hp in E].
  destruct (negb _); eauto.
Qed.

Lemma lenient_parser_never_raises src e : lenient_parser src ≠ OtherError e.
Proof. unfold lenient_parser. by destruct (pystr_eqb _ _). Qed.

Lemma validate_skill_md_shape content : well_shaped (validate_skill_md content).
Proof.
  unfold validate_skill_md, well_shaped.
  repeat case_match; first [by left | right; eexists; split; [reflexivity|]];
    simpl; discriminate.
Qed.

Lemma validate_reference_md_shape content :
  well_shaped (validate_reference_md content).
Proof.
  unfold validate_reference_md, well_shaped.
  repeat case_match; first [by left | right; eexists; split; [reflexivity|]];
    simpl; discriminate.
Qed.

Lemma validate_example_script_shape ast_parse content v :
  validate_example_script ast_parse content = Ret v → well_shaped v.
Proof.
  unfold validate_example_script, well_shaped.
  repeat case_match; intros [= <-];
    first [by left | right; eexists; split; [reflexivity|]]; simpl; discriminate.
Qed.

Lemma well_shaped_ok v : well_shaped v → (v.1 = 1%Z ↔ v.2 = None).
Proof. intros [-> | (d & -> & _)]; simpl; split; done. Qed.

Lemma parse_skill_shape self resp ok err contents :
  parse_skill self resp = Ret (ok, err, contents) →
  (ok = 1%Z ∧ err = None) ∨ (ok = 0%Z ∧ ∃ d, err = Some d ∧ d ≠ []).
Proof.
  unfold parse_skill.
  destruct (validate_skill_md _) as [ok1 err1].
  destruct (negb (truthy ok1)).
  { intros [= <- <- _]. right. split; [done|]. eexists. split; [done|].
    simpl. discriminate. }
  destruct (validate_reference_md _) as [ok2 err2].
  destruct (negb (truthy ok2)).
  { intros [= <- <- _]. right. split; [done|]. eexists. split; [done|].
    simpl. discriminate. }
  destruct (validate_example_script _ _) as [[ok3 err3]|e]; [|done].
  destruct (negb (truthy ok3)).
  { intros [= <- <- _]. right. split; [done|]. eexists. split; [done|].
    simpl. discriminate. }
  intros [= <- <- _]. by left.
Qed.

End validators.

(** * Facts about the guide document checks *)

Section guide_checks.
Import skill_validator.

Lemma find_unique {A} `{EqDecision A} (f : A → bool) (l : list A) (x : A) :
  x ∈ l → f x = true → (∀ y, y ∈ l → y ≠ x → f y = false) →
  List.find f l = Some x.
Proof.
  induction l as [|a l IH]; intros Hin Hx Hothers; [by apply elem_of_nil in Hin|].
  simpl. destruct (f a) eqn:Ea.
  - destruct (decide (a = x)) as [-> | Hne]; [done|].
    rewrite (Hothers a) in Ea; [done | by left | done].
  - apply IH; [|done|].
    + apply elem_of_cons in Hin as [-> | Hin]; [congruence | done].
    + intros y Hy. apply Hothers. by right.
Qed.

Lemma find_none_elem {A} (f : A → bool) (l : list A) (x : A) :
  List.find f l = None → x ∈ l → f x = false.
Proof. intros H Hin%list_elem_of_In. by eapply find_none. Qed.

(** [re.search(rf'#\s+{re.escape(section)}', content)] finds something iff
    the text has a [#], blanks and the section name in a row. *)
Lemma section_found content section :
  section_missing content section = false ↔ heading_occurs content section.
Proof.
  unfold section_missing, heading_occurs, re_search, section_re, re_escape.
  rewrite negb_false_iff, is_match_search. split.
  - intros (pre & t & -> & (m & Hm)%nonempty_elem).
    apply elem_of_rmatch_cat in Hm as (st1 & H1 & Hm).
    apply elem_of_rmatch_one in H1 as (c & t1 & Ht & Hc & ->).
    apply elem_of_rmatch_cat in Hm as (st2 & H2 & Hm).
    apply elem_of_rmatch_plus in H2 as (c2 & ws & t2 & Ht1 & Hc2 & Hws & ->).
    apply elem_of_rmatch_lit in Hm as (post & Ht2 & _).
    cbn [rest prev grp atom_ok] in Ht, Ht1, Ht2, Hc, Hc2, Hws.
    apply char_eqb_eq in Hc as <-.
    subst t t1 t2. exists pre, (c2 :: ws), post. split_and!; [done..|].
    cbn [forallb]. rewrite Hc2. exact Hws.
  - intros (pre & ws & post & -> & Hne & Hws). exists pre, ([35%N] ++ ws ++ section ++ post).
    split; [done|]. apply nonempty_elem.
    destruct ws as [|c2 ws]; [done|]. simpl in Hws. apply andb_prop in Hws as [Hc2 Hws].
    eexists. apply elem_of_rmatch_cat. eexists. split.
    { apply elem_of_rmatch_one. eexists _, _. split_and!; [done| |done].
      apply char_eqb_refl. }
    apply elem_of_rmatch_cat. eexists. split.
    { apply elem_of_rmatch_plus. exists c2, ws, (section ++ post).
      split_and!; done. }
    apply elem_of_rmatch_lit. by exists post.
Qed.

Lemma key_found frontmatter_text key :
  key_missing frontmatter_text key = false
  ↔ ∃ a b, frontmatter_text = a ++ key ++ str ":" ++ b.
Proof.
  unfold key_missing. rewrite negb_false_iff, str_in_spec.
  split; intros (a & b & ->); exists a, b; by rewrite <- ?app_assoc, ?app_assoc.
Qed.

(** What [re.match(r'^---\s*\n(.*?)\n---', content, re.DOTALL)] matches. *)
Lemma frontmatter_sound content fm :
  frontmatter_of content = Some fm →
  ∃ ws post,
    content = str "---" ++ ws ++ [LF] ++ fm ++ [LF] ++ str "---" ++ post
    ∧ forallb isspace ws = true.
Proof.
  unfold frontmatter_of, re_match, frontmatter_re.
  destruct (head _) as [m|] eqn:Hhd; [|done]. intros [= <-].
  cbn [rmatch prev rest at_bol] in Hhd.
  rewrite bind_singleton in Hhd. fold (rmatch re_DOTALL) in Hhd.
  change (head (rmatch re_DOTALL
                  (lit (str "---") ⋅ Star Space ⋅ One (Lit LF) ⋅ Group (LazyStar Dot)
                     ⋅ lit (LF :: str "---"))
                  (MState None content None)) = Some m) in Hhd.
  rewrite rmatch_cat_lit in Hhd. cbn [rest prev grp] in Hhd.
  destruct (startswith (str "---") content) eqn:E; [|done].
  apply startswith_drop in E. set (t0 := drop (length (str "---")) content) in *.
  change (head (rmatch re_DOTALL (Star Space) (MState (lit_prev (str "---") None) t0 None)
                  ≫= rmatch re_DOTALL (One (Lit LF) ⋅ Group (LazyStar Dot)
                                         ⋅ lit (LF :: str "---"))) = Some m) in Hhd.
  apply head_bind in Hhd as (st1 & H1 & Hhd).
  cbn [rmatch prev rest grp] in H1.
  apply elem_of_greedy_star in H1 as (ws & t1 & Ht0 & Hws & ->).
  change (head (rmatch re_DOTALL (One (Lit LF)) (MState (lit_prev ws (lit_prev (str "---") None)) t1 None)
                  ≫= rmatch re_DOTALL (Group (LazyStar Dot) ⋅ lit (LF :: str "---")))
          = Some m) in Hhd.
  apply head_bind in Hhd as (st2 & H2 & Hhd).
  apply elem_of_rmatch_one in H2 as (c & t2 & Ht1 & Hc & ->).
  cbn [rest prev grp atom_ok] in Ht1, Hc, Hhd. apply char_eqb_eq in Hc as <-.
  pose proof (rmatch_lazy_group re_DOTALL (lit (LF :: str "---")) _ t2 (Some LF) None
                eq_refl (stops_lit _ _)) as Hg.
  rewrite Hhd in Hg.
  destruct (lazy_until _ t2) as [[a b]|] eqn:El; [|done].
  injection Hg as Hg. apply lazy_until_Some in El as (Ht2 & Hb & _).
  apply startswith_drop in Hb.
  exists ws, (drop (length (LF :: str "---")) b). split; [|done].
  unfold group1. cbn [m_end]. rewrite Hg. cbn [default].
  rewrite E, Ht0, Ht1, Ht2. f_equal. f_equal. f_equal. f_equal.
  rewrite Hb at 1. done.
Qed.

Lemma validate_skill_md_ok content :
  validate_skill_md content = (1%Z, None) →
  is_blank content = false
  ∧ (∃ fm, frontmatter_of content = Some fm
           ∧ ∀ key, key ∈ REQUIRED_FRONTMATTER_KEYS → key_missing fm key = false)
  ∧ (∀ section, section ∈ REQUIRED_SECTIONS → section_missing content section = false)
  ∧ str_in (str "```") content = true.
Proof.
  unfold validate_skill_md, frontmatter_of.
  destruct (is_blank content); [done|].
  destruct (re_match _ _ content) as [mo|]; [|done].
  destruct (List.find (key_missing _) _) eqn:Ek; [done|].
  destruct (List.find (section_missing _) _) eqn:Es; [done|].
  destruct (str_in _ content); [|done]. intros _.
  split_and!; [done| |by intros; eapply find_none_elem|done].
  exists (group1 mo). split; [done|]. by intros; eapply find_none_elem.
Qed.

Lemma validate_skill_md_no_frontmatter content :
  is_blank content = false → frontmatter_of content = None →
  validate_skill_md content
  = (0%Z, Some (str "SKILL.md is missing YAML frontmatter (--- delimiters)")).
Proof.
  unfold validate_skill_md, frontmatter_of. intros ->.
  by destruct (re_match _ _ content).
Qed.

Lemma validate_skill_md_missing_key content fm key :
  is_blank content = false → frontmatter_of content = Some fm →
  key ∈ REQUIRED_FRONTMATTER_KEYS → key_missing fm key = true →
  (∀ other, other ∈ REQUIRED_FRONTMATTER_KEYS → other ≠ key →
            key_missing fm other = false) →
  validate_skill_md content
  = (0%Z, Some (str "YAML frontmatter is missing required key: " ++ key)).
Proof.
  unfold validate_skill_md, frontmatter_of. intros -> Hfm Hin Hkey Hothers.
  destruct (re_match _ _ content) as [mo|]; [|done]. injection Hfm as <-.
  by rewrite (find_unique _ _ key Hin Hkey Hothers).
Qed.

Lemma validate_skill_md_missing_section content fm section :
  is_blank content = false → frontmatter_of content = Some fm →
  (∀ key, key ∈ REQUIRED_FRONTMATTER_KEYS → key_missing fm key = false) →
  section ∈ REQUIRED_SECTIONS → section_missing content section = true →
  (∀ other, other ∈ REQUIRED_SECTIONS → other ≠ section →
            section_missing content other = false) →
  validate_skill_md content
  = (0%Z, Some (str "SKILL.md is missing required section: '# " ++ section ++ str "'")).
Proof.
  unfold validate_skill_md, frontmatter_of. intros -> Hfm Hkeys Hin Hsec Hothers.
  destruct (re_match _ _ content) as [mo|]; [|done]. injection Hfm as <-.
  destruct (List.find (key_missing _) _) as [k|] eqn:Ek.
  { apply find_some in Ek as [Hk%list_elem_of_In Ek]. rewrite Hkeys in Ek; done. }
  by rewrite (find_unique _ _ section Hin Hsec Hothers).
Qed.

End guide_checks.

(** * Facts about fenced code *)

Section fences.
Import BioinfoSkillConverter.

Lemma startswith_app_long p u v :
  length p ≤ length u → startswith p (u ++ v) = startswith p u.
Proof.
  revert u. induction p as [|a p IH]; intros u Hlen; [by destruct u|].
  destruct u as [|b u]; simpl in *; [lia|].
  rewrite IH; [done | lia].
Qed.

Lemma first_at_partition M pre b :
  first_at M pre → str_partition M (pre ++ M ++ b) = Some (pre, b).
Proof.
  intros [_ Hfirst]%str_partition_Some. apply str_partition_first.
  intros x y Hxy Hy. specialize (Hfirst x y Hxy Hy).
  rewrite app_nil_r in Hfirst. rewrite app_assoc, startswith_app_long; [done|].
  rewrite length_app. lia.
Qed.

Lemma str_in_absent_sub a b s :
  str_in a b = true → str_in a s = false → str_in b s = false.
Proof.
  intros Hab Has. apply not_true_is_false. intros Hbs.
  by rewrite (str_in_trans a b s Hab Hbs) in Has.
Qed.

(** The closing fence has no proper overlap with itself: where it does not
    occur in the code, the first one after the code is the one appended. *)
Lemma closing_fence_first code :
  str_in (LF :: str "```") code = false → first_at (LF :: str "```") code.
Proof.
  unfold first_at. induction code as [|c t IH]; intros H.
  - rewrite app_nil_l. rewrite <- (app_nil_r (LF :: str "```")) at 2.
    apply str_partition_nil_l.
  - rewrite <- app_comm_cons, str_partition_cons.
    cbn [str_in] in H. apply orb_false_elim in H as [Hhere Hlater].
    rewrite (IH Hlater).
    destruct (startswith (LF :: str "```") (c :: t ++ LF :: str "```")) eqn:E; [|done].
    exfalso. apply not_true_iff_false in Hhere. apply Hhere. clear Hhere Hlater IH.
    apply startswith_spec in E as [r Hr]. apply startswith_spec.
    change (LF :: str "```") with [10; 96; 96; 96]%N in *.
    destruct t as [|a [|b [|d t']]]; simpl in Hr; try discriminate Hr.
    injection Hr as -> -> -> -> _. by exists t'.
Qed.

Lemma strip_fenced code : strip (fenced code) = fenced code.
Proof.
  assert (fenced code
          = 96%N :: (str "``python" ++ [LF] ++ code ++ [LF] ++ str "``") ++ [96%N]) as ->.
  { unfold fenced. rewrite <- !app_assoc. reflexivity. }
  by apply strip_framed.
Qed.

Lemma code_fence_of_fenced code :
  str_in (str "```") code = false →
  head (re_findall re_DOTALL code_fence_re (fenced code)) = Some code.
Proof.
  intros H.
  apply (code_fence_first (fenced code) [] (code ++ LF :: str "```") code []).
  - unfold fenced. rewrite (app_assoc (str "```python") [LF]).
    apply str_partition_nil_l.
  - apply closing_fence_first.
    by apply (str_in_absent_sub (str "```")); [vm_compute|].
Qed.

Lemma code_fence_of_bare code :
  str_in (str "```") code = false → re_findall re_DOTALL code_fence_re code = [].
Proof.
  intros H. apply code_fence_absent.
  by apply (str_in_absent_sub (str "```")); [vm_compute|].
Qed.

End fences.

(** * Facts about the retry loops *)

Section loops.

Lemma any_values_true (contents : gmap string pystr) :
  BioinfoSkillConverter.any_values contents = true
  ↔ ∃ key v, contents !! key = Some v ∧ v ≠ [].
Proof.
  unfold BioinfoSkillConverter.any_values. rewrite existsb_exists. split.
  - intros (v & Hin%list_elem_of_In & Hv).
    apply list_elem_of_fmap in Hin as ([key v'] & -> & Hin%elem_of_map_to_list).
    exists key, v'. split; [done|]. by destruct v'.
  - intros (key & v & Hlook & Hv). exists v. split; [|by destruct v].
    apply list_elem_of_In, list_elem_of_fmap. exists (key, v).
    split; [done|]. by apply elem_of_map_to_list.
Qed.

Lemma any_values_false (contents : gmap string pystr) :
  BioinfoSkillConverter.any_values contents = false
  ↔ ∀ key v, contents !! key = Some v → v = [].
Proof.
  rewrite <- not_true_iff_false, any_values_true. split.
  - intros Hno key v Hlook. destruct v as [|c v]; [done|].
    exfalso. apply Hno. by exists key, (c :: v).
  - intros Hall (key & v & Hlook & Hv). by apply Hv, (Hall key).
Qed.

(** What a request does to the log. *)
Lemma skill_autogenerate_sent self tool_name manual rhc log :
  (BioinfoSkillConverter.autogenerate_skill self tool_name manual rhc log).2
  = log ++ [(BioinfoSkillConverter.sys_prompt self,
             skill_original_prompt self tool_name manual rhc)].
Proof.
  unfold BioinfoSkillConverter.autogenerate_skill, skill_original_prompt.
  unfold mbind, io_bind, chat_completions_create, lift. done.
Qed.

Lemma skill_refine_sent self tool_name contents err log :
  (BioinfoSkillConverter.refine_after_feedback self tool_name contents err log).2
  = log ++ [(BioinfoSkillConverter.sys_prompt self,
             BioinfoSkillConverter.refine_prompt tool_name contents err)].
Proof.
  unfold BioinfoSkillConverter.refine_after_feedback.
  unfold mbind, io_bind, chat_completions_create, lift. done.
Qed.

Lemma mcp_autogenerate_sent self tool_name manual rhc log :
  (BioinfoMCP.autogenerate_mcp_tool self tool_name manual rhc log).2
  = log ++ [(BioinfoMCP.sys_prompt self, mcp_original_prompt self tool_name manual rhc)].
Proof.
  unfold BioinfoMCP.autogenerate_mcp_tool, mcp_original_prompt.
  unfold mbind, io_bind, chat_completions_create, lift. done.
Qed.

Lemma mcp_refine_sent self tool_name code err log :
  (BioinfoMCP.refine_after_feedback self tool_name code err log).2
  = log ++ [(BioinfoMCP.sys_prompt self, BioinfoMCP.refine_prompt tool_name code err)].
Proof.
  unfold BioinfoMCP.refine_after_feedback.
  unfold mbind, io_bind, chat_completions_create, lift. done.
Qed.

(** The loop returns exactly when a passing result is reached within the
    allotted turns. *)
Lemma while_failing_spec {R A} (ok : R → Z) (out : R → A) (body : R → IO R)
    fuel r log a log' :
  while_failing ok out body fuel r log = (Ret (Some a), log')
  ↔ ∃ n r',
      n ≤ fuel ∧ nsteps (loop_step ok body) n (r, log) (r', log')
      ∧ truthy (ok r') = true ∧ out r' = a.
Proof.
  revert r log. induction fuel as [|fuel IH]; intros r log; cbn [while_failing];
    destruct (truthy (ok r)) eqn:Eok; cbn [negb].
  - split.
    + intros [= <- <-]. exists 0, r. split_and!; [lia|constructor|done..].
    + intros (n & r' & Hn & Hsteps & Hok & <-).
      assert (n = 0) as -> by lia. by inversion Hsteps; subst.
  - split; [done|]. intros (n & r' & Hn & Hsteps & Hok & _).
    assert (n = 0) as -> by lia. inversion Hsteps; subst. congruence.
  - split.
    + intros [= <- <-]. exists 0, r. split_and!; [lia|constructor|done..].
    + intros (n & r' & Hn & Hsteps & Hok & <-).
      inversion Hsteps as [|n' ? [r1 log1] ? [Hfail _]]; subst; [done|].
      simpl in Hfail. congruence.
  - unfold mbind, io_bind. destruct (body r log) as [[r1|e] log1] eqn:Ebody.
    + rewrite IH. split.
      * intros (n & r' & Hn & Hsteps & Hok & <-).
        exists (S n), r'. split_and!; [lia| |done..].
        eapply nsteps_l; [|exact Hsteps]. by split.
      * intros (n & r' & Hn & Hsteps & Hok & <-).
        inversion Hsteps as [|n' ? [r2 log2] ? [_ Hstep] Hrest]; subst.
        { congruence. }
        simpl in Hstep. rewrite Ebody in Hstep. injection Hstep as <- <-.
        exists n', r'. split_and!; [lia|done..].
    + split; [done|]. intros (n & r' & Hn & Hsteps & Hok & _).
      inversion Hsteps as [|n' ? [r2 log2] ? [_ Hstep] Hrest]; subst.
      { congruence. }
      simpl in Hstep. rewrite Ebody in Hstep. done.
Qed.

Lemma skill_retry_loop_spec self tool_name manual rhc fuel res log contents log' :
  BioinfoSkillConverter.retry_loop fuel self tool_name manual rhc res log
  = (Ret (Some contents), log')
  ↔ ∃ n res',
      n ≤ fuel
      ∧ nsteps (skill_step self tool_name manual rhc) n (res, log) (res', log')
      ∧ truthy res'.1.1 = true ∧ res'.2 = contents.
Proof. apply while_failing_spec. Qed.

Lemma mcp_retry_loop_spec self tool manual rhc fuel res log code log' :
  BioinfoMCP.retry_loop fuel self tool manual rhc res log = (Ret (Some code), log')
  ↔ ∃ n res',
      n ≤ fuel
      ∧ nsteps (mcp_step self tool manual rhc) n (res, log) (res', log')
      ∧ truthy res'.1.1 = true ∧ res'.2 = code.
Proof. apply while_failing_spec. Qed.

End loops.

(** * Facts about the repair prompts *)

Section prompts.
Import BioinfoSkillConverter.

Lemma str_in_prefix v b : str_in v (v ++ b) = true.
Proof. apply str_in_spec. by exists [], b. Qed.

Lemma str_in_skip v a b : str_in v b = true → str_in v (a ++ b) = true.
Proof.
  intros (x & y & ->)%str_in_spec. apply str_in_spec.
  exists (a ++ x), y. by rewrite <- !app_assoc.
Qed.

Lemma str_in_keep v a b : str_in v a = true → str_in v (a ++ b) = true.
Proof.
  intros (x & y & ->)%str_in_spec. apply str_in_spec.
  exists x, (y ++ b). by rewrite <- !app_assoc.
Qed.

Lemma nonempty_true (v : pystr) : v ≠ [] → nonempty v = true.
Proof. by destruct v. Qed.

(** Finds [v] in a concatenation that has [v] as one of its pieces. *)
Ltac find_piece :=
  rewrite <- ?app_assoc;
  repeat first [ apply str_in_prefix | apply str_in_self
               | apply str_in_keep; eassumption | apply str_in_skip ].

Lemma existing_blocks_has contents key v :
  contents !! key = Some v →
  key = "skill_md" ∨ key = "reference_md" ∨ key = "example_script" →
  str_in v (existing_blocks contents) = true.
Proof.
  intros Hlook Hkey. destruct v as [|c v]; [apply str_in_nil|].
  unfold existing_blocks, get_truthy, item.
  destruct Hkey as [-> | [-> | ->]]; rewrite Hlook; cbn [nonempty default].
  - destruct (contents !! "reference_md") as [[|? ?]|],
             (contents !! "example_script") as [[|? ?]|];
      cbn [nonempty default]; find_piece.
  - destruct (contents !! "skill_md") as [[|? ?]|],
             (contents !! "example_script") as [[|? ?]|];
      cbn [nonempty default]; find_piece.
  - destruct (contents !! "skill_md") as [[|? ?]|],
             (contents !! "reference_md") as [[|? ?]|];
      cbn [nonempty default]; find_piece.
Qed.

Lemma existing_blocks_full a b c :
  a ≠ [] → b ≠ [] → c ≠ [] →
  existing_blocks (make_contents a b c)
  = str "===SKILL.md===" ++ [LF] ++ a ++ [LF; LF]
    ++ str "===REFERENCE.md===" ++ [LF] ++ b ++ [LF; LF]
    ++ str "===EXAMPLE_SCRIPT.py===" ++ [LF] ++ fenced c ++ [LF].
Proof.
  intros Ha Hb Hc. unfold existing_blocks, get_truthy, item, fenced.
  destruct (make_contents_lookup a b c) as (-> & -> & ->).
  cbn [default]. rewrite !nonempty_true by done.
  rewrite app_nil_l, <- !app_assoc. done.
Qed.

Lemma skill_refine_prompt_has_artifact tool_name contents err key v :
  contents !! key = Some v →
  key = "skill_md" ∨ key = "reference_md" ∨ key = "example_script" →
  str_in v (refine_prompt tool_name contents err) = true.
Proof.
  intros Hlook Hkey. pose proof (existing_blocks_has _ _ _ Hlook Hkey) as Hin.
  unfold refine_prompt. cbv zeta. find_piece.
Qed.

Lemma skill_refine_prompt_has_diagnostic tool_name contents err :
  str_in (format_value err) (refine_prompt tool_name contents err) = true.
Proof. unfold refine_prompt. cbv zeta. find_piece. Qed.

Lemma skill_refine_prompt_slot tool_name contents :
  ∃ prefix suffix, ∀ err,
    refine_prompt tool_name contents err = prefix ++ format_value err ++ suffix.
Proof.
  pose (p := refine_prompt tool_name contents None).
  unfold refine_prompt in p. cbv zeta in p.
  match eval unfold p in p with
  | ?a ++ ?t ++ ?b ++ ?e ++ ?c ++ _ ++ ?d => exists (a ++ t ++ b ++ e ++ c), d
  end.
  intros err. unfold refine_prompt. cbv zeta. by rewrite <- !app_assoc.
Qed.

Lemma mcp_refine_prompt_has_code tool_name code err :
  str_in code (BioinfoMCP.refine_prompt tool_name (Some code) err) = true.
Proof. unfold BioinfoMCP.refine_prompt. cbn [format_value]. find_piece. Qed.

Lemma mcp_refine_prompt_has_diagnostic tool_name code err :
  str_in (format_value err) (BioinfoMCP.refine_prompt tool_name code err) = true.
Proof. unfold BioinfoMCP.refine_prompt. find_piece. Qed.

Lemma mcp_refine_prompt_slot tool_name code :
  ∃ prefix suffix, ∀ err,
    BioinfoMCP.refine_prompt tool_name code err
    = prefix ++ format_value err ++ suffix.
Proof.
  pose (p := BioinfoMCP.refine_prompt tool_name code None).
  unfold BioinfoMCP.refine_prompt in p.
  match eval unfold p in p with
  | ?a ++ ?t ++ ?b ++ ?e ++ ?c ++ _ ++ ?d => exists (a ++ t ++ b ++ e ++ c), d
  end.
  intros err. unfold BioinfoMCP.refine_prompt. by rewrite <- !app_assoc.
Qed.

(** Which request a turn of the loop sends. *)
Lemma skill_retry_restart self tool_name manual rhc res log :
  any_values res.2 = false →
  retry_once self tool_name manual rhc res log
  = autogenerate_skill self tool_name manual rhc log
  ∧ (retry_once self tool_name manual rhc res log).2
    = log ++ [(sys_prompt self, skill_original_prompt self tool_name manual rhc)].
Proof.
  intros H. unfold retry_once. rewrite H. cbn [negb].
  split; [done | apply skill_autogenerate_sent].
Qed.

Lemma skill_retry_refine self tool_name manual rhc res log :
  any_values res.2 = true →
  retry_once self tool_name manual rhc res log
  = refine_after_feedback self tool_name res.2 res.1.2 log
  ∧ (retry_once self tool_name manual rhc res log).2
    = log ++ [(sys_prompt self, refine_prompt tool_name res.2 res.1.2)].
Proof.
  intros H. unfold retry_once. rewrite H. cbn [negb].
  split; [done | apply skill_refine_sent].
Qed.

Lemma mcp_retry_restart self tool manual rhc ok err log :
  BioinfoMCP.retry_once self tool manual rhc (ok, err, None) log
  = BioinfoMCP.autogenerate_mcp_tool self tool manual rhc log
  ∧ (BioinfoMCP.retry_once self tool manual rhc (ok, err, None) log).2
    = log ++ [(BioinfoMCP.sys_prompt self, mcp_original_prompt self tool manual rhc)].
Proof. split; [done | apply mcp_autogenerate_sent]. Qed.

Lemma mcp_retry_refine self tool manual rhc ok err code log :
  BioinfoMCP.retry_once self tool manual rhc (ok, err, Some code) log
  = BioinfoMCP.refine_after_feedback self tool (Some code) err log
  ∧ (BioinfoMCP.retry_once self tool manual rhc (ok, err, Some code) log).2
    = log ++ [(BioinfoMCP.sys_prompt self,
               BioinfoMCP.refine_prompt tool (Some code) err)].
Proof. split; [done | apply mcp_refine_sent]. Qed.

End prompts.

(** * Two runs of the three-artifact conversion *)

Section runs.
Import BioinfoSkillConverter.

(** The first completion lacks the [metadata] key: the diagnostic says so,
    the second request is the repair prompt, and the second completion
    passes. *)
Example run_with_repair :
  let self := sample_skill_self
                [ sample_completion sample_guide_no_metadata;
                  sample_completion sample_guide ] cpython_sample in
  let tool := str "fastqc" in
  let manual := str "fastqc.md" in
  let first := (sys_prompt self, skill_original_prompt self tool manual false) in
  let contents :=
    make_contents sample_guide_no_metadata sample_reference sample_script in
  let err :=
    Some (str "SKILL.md validation failed: YAML frontmatter is missing required key: metadata") in
  autogenerate_skill self tool manual false [] = (Ret (0%Z, err, contents), [first])
  ∧ convert_skill 3 self tool manual false []
    = (Ret (Some (make_contents sample_guide sample_reference sample_script)),
       [first; (sys_prompt self, refine_prompt tool contents err)]).
Proof. split; vm_compute; reflexivity. Qed.

(** A completion without any delimiter gives three empty artifacts, and the
    original prompt is sent again; with a backend that never sends a
    delimiter the loop is still running after any number of turns. *)
Example run_with_restart :
  let self := sample_skill_self
                [ str "I cannot help with that."; sample_completion sample_guide ]
                cpython_sample in
  let mute := sample_skill_self [] cpython_sample in
  let tool := str "fastqc" in
  let manual := str "fastqc.md" in
  let first := (sys_prompt self, skill_original_prompt self tool manual false) in
  convert_skill 3 self tool manual false []
  = (Ret (Some (make_contents sample_guide sample_reference sample_script)),
     [first; first])
  ∧ convert_skill 2 mute tool manual false [] = (Ret None, [first; first; first]).
Proof. split; vm_compute; reflexivity. Qed.

End runs.

(** * More facts about strings and the extraction *)

Section more_stripping.
Implicit Types (s a b : pystr) (c : char).

Lemma lstrip_suffix s : ∃ w, s = w ++ lstrip s ∧ forallb isspace w = true.
Proof.
  induction s as [|c s (w & Hs & Hw)]; [by exists []|].
  simpl. destruct (isspace c) eqn:E.
  - exists (c :: w). simpl. rewrite E, Hw. split; [by rewrite <- Hs | done].
  - by exists [].
Qed.

Lemma rstrip_prefix s : ∃ w, s = rstrip s ++ w ∧ forallb isspace w = true.
Proof.
  unfold rstrip. destruct (lstrip_suffix (rev s)) as (w & Hs & Hw).
  exists (rev w). rewrite forallb_rev. split; [|done].
  rewrite <- rev_app_distr, <- Hs. by rewrite rev_involutive.
Qed.

Lemma lstrip_idem s : lstrip (lstrip s) = lstrip s.
Proof.
  induction s as [|c s IH]; [done|]. simpl.
  destruct (isspace c) eqn:E; [done|]. simpl. by rewrite E.
Qed.

Lemma rstrip_idem s : rstrip (rstrip s) = rstrip s.
Proof. unfold rstrip. by rewrite rev_involutive, lstrip_idem. Qed.

Lemma lstrip_rstrip_lstrip s : lstrip (rstrip (lstrip s)) = rstrip (lstrip s).
Proof.
  destruct (rstrip_prefix (lstrip s)) as (w & Hs & _).
  destruct (rstrip (lstrip s)) as [|c t] eqn:E; [done|].
  rewrite Hs in *. simpl in Hs.
  apply lstrip_nonspace. destruct (lstrip s) as [|d u] eqn:El; [done|].
  injection Hs as -> _. by apply lstrip_head in El.
Qed.

(** [strip] is idempotent. *)
Lemma strip_idem s : strip (strip s) = strip s.
Proof.
  unfold strip. by rewrite lstrip_rstrip_lstrip, rstrip_idem.
Qed.

(** The stripped text is a piece of the text, between blanks. *)
Lemma strip_infix s :
  ∃ w1 w2, s = w1 ++ strip s ++ w2
           ∧ forallb isspace w1 = true ∧ forallb isspace w2 = true.
Proof.
  destruct (lstrip_suffix s) as (w1 & Hs & Hw1).
  destruct (rstrip_prefix (lstrip s)) as (w2 & Hl & Hw2).
  exists w1, w2. unfold strip. by rewrite <- Hl.
Qed.

Lemma str_in_strip s : str_in (strip s) s = true.
Proof.
  destruct (strip_infix s) as (w1 & w2 & Hs & _). apply str_in_spec. eauto.
Qed.

End more_stripping.

Section more_extraction.
Import BioinfoSkillConverter.
Implicit Types (s body pre resp tail : pystr).

Lemma search_block_inv fl M K stop s p mo :
  DOTALL fl = true → stops fl K stop →
  search_from fl (lit M ⋅ Group (LazyStar Dot) ⋅ K) p s = Some mo →
  ∃ pre body b, s = pre ++ M ++ body ∧ lazy_until stop body = Some (group1 mo, b).
Proof.
  intros Hfl HK. revert p. induction s as [|c s IH]; intros p Hs.
  - destruct (rmatch fl (lit M ⋅ Group (LazyStar Dot) ⋅ K) (MState p [] None))
      as [|m ms] eqn:Em.
    + by rewrite search_from_nil in Hs.
    + rewrite (search_from_hit _ _ _ _ _ _ Em) in Hs. injection Hs as <-.
      apply (rmatch_block_inv fl M K stop) in Em as (a & b & Hs & Hg & Hl); [|done..].
      exists [], (a ++ b), b. split; [done|].
      rewrite Hs, drop_app_length in Hl. unfold group1. simpl. by rewrite Hg.
  - destruct (rmatch fl (lit M ⋅ Group (LazyStar Dot) ⋅ K) (MState p (c :: s) None))
      as [|m ms] eqn:Em.
    + rewrite search_from_nil in Hs by done.
      destruct (IH _ Hs) as (pre & body & b & -> & Hl). by exists (c :: pre), body, b.
    + rewrite (search_from_hit _ _ _ _ _ _ Em) in Hs. injection Hs as <-.
      apply (rmatch_block_inv fl M K stop) in Em as (a & b & Hs & Hg & Hl); [|done..].
      exists [], (a ++ b), b. split; [done|].
      rewrite Hs, drop_app_length in Hl. unfold group1. simpl. by rewrite Hg.
Qed.

(** A lazy capture that may stop at [M2] holds no [M2]. *)
Lemma lazy_until_excludes M2 other s a b :
  M2 ≠ [] →
  lazy_until (λ t, startswith M2 t || other t) s = Some (a, b) →
  str_in M2 a = false.
Proof.
  intros HM2 (_ & _ & Hfirst)%lazy_until_Some.
  apply not_true_is_false. intros (x & z & ->)%str_in_spec.
  specialize (Hfirst x (M2 ++ z) eq_refl).
  rewrite <- app_assoc, startswith_app in Hfirst. simpl in Hfirst.
  assert (M2 ++ z ≠ []) by by destruct M2. by apply Hfirst in H.
Qed.

Lemma block_stripped M M2 resp :
  M2 ≠ [] →
  match re_search re_DOTALL (lit M ⋅ Group (LazyStar Dot) ⋅ Alt (lit M2) Eol) resp with
  | Some mo => str_in M2 (strip (group1 mo)) = false
  | None => True
  end.
Proof.
  intros HM2. destruct (re_search _ _ resp) as [mo|] eqn:Es; [|done].
  apply (search_block_inv re_DOTALL _ _ _ _ _ _ eq_refl (stops_marker_or_eol M2)) in Es
    as (pre & body & b & _ & Hl).
  apply lazy_until_excludes in Hl; [|done].
  apply not_true_is_false. intros Hin. apply not_true_iff_false in Hl. apply Hl.
  eapply str_in_trans; [exact Hin | apply str_in_strip].
Qed.

End more_extraction.


(** * More facts about the validators and the parse functions *)

Section more_validators.
Import skill_validator.

Lemma lit_prev_snoc M c p : lit_prev (M ++ [c]) p = Some c.
Proof. revert p. induction M as [|a M IH]; intros p; [done|]. apply IH. Qed.

Lemma at_bol_multiline pre :
  at_bol re_MULTILINE (lit_prev pre None) = true
  ↔ pre = [] ∨ ∃ pre', pre = pre' ++ [LF].
Proof.
  destruct pre as [|c pre] using rev_ind; [by split; [left|]|].
  rewrite lit_prev_snoc. simpl. split.
  - intros ->%char_eqb_eq. right. by exists pre.
  - intros [?|(pre' & [-> ->]%app_inj_tail)]; [by destruct pre|]. apply char_eqb_refl.
Qed.

Lemma forallb_hash hs :
  forallb (char_eqb 35%N) hs = true ↔ hs = replicate (length hs) 35%N.
Proof.
  induction hs as [|c hs IH]; [done|]. cbn [forallb length replicate].
  rewrite andb_true_iff, IH. split.
  - intros [<-%char_eqb_eq <-]. done.
  - intros [= -> H]. split; [apply char_eqb_refl | done].
Qed.

(** [re.search(r'^#+\s+', content, re.MULTILINE)] finds something iff some
    line begins with a run of [#] followed by a blank. *)
Lemma header_found content :
  is_match (re_search re_MULTILINE header_re content) = true ↔ header_occurs content.
Proof.
  unfold header_occurs, re_search, header_re. rewrite is_match_search. split.
  - intros (pre & t & -> & (m & Hm)%nonempty_elem).
    apply elem_of_rmatch_cat in Hm as (st1 & H1 & Hm).
    cbn [rmatch prev] in H1.
    destruct (at_bol re_MULTILINE (lit_prev pre None)) eqn:Ebol;
      [|by apply elem_of_nil in H1].
    apply list_elem_of_singleton in H1 as ->.
    apply elem_of_rmatch_cat in Hm as (st2 & H2 & Hm).
    apply elem_of_rmatch_plus in H2 as (c & hs & t2 & Ht & Hc & Hhs & ->).
    apply elem_of_rmatch_plus in Hm as (c2 & ws & t3 & Ht2 & Hc2 & Hws & _).
    cbn [rest prev grp atom_ok] in Ht, Ht2, Hc, Hc2, Hhs, Hws.
    apply char_eqb_eq in Hc as <-. apply forallb_hash in Hhs.
    exists pre, (length hs), (c2 :: ws), t3. split_and!.
    + rewrite Ht, Ht2. cbn [replicate]. by rewrite <- Hhs.
    + by apply at_bol_multiline.
    + done.
    + cbn [forallb]. by rewrite Hc2.
  - intros (pre & n & ws & post & -> & Hpre & Hne & Hws).
    exists pre, (replicate (S n) 35%N ++ ws ++ post). split; [done|].
    apply nonempty_elem. destruct ws as [|c2 ws]; [done|].
    cbn [forallb] in Hws. apply andb_prop in Hws as [Hc2 Hws].
    eexists. apply elem_of_rmatch_cat. eexists. split.
    { cbn [rmatch prev]. apply at_bol_multiline in Hpre as ->. by left. }
    apply elem_of_rmatch_cat. eexists. split.
    { apply elem_of_rmatch_plus. exists 35%N, (replicate n 35%N), ((c2 :: ws) ++ post).
      cbn [rest]. split_and!; [done|done| |done].
      apply forallb_hash. by rewrite length_replicate. }
    apply elem_of_rmatch_plus. exists c2, ws, post. by split_and!.
Qed.

Lemma find_none_iff {A} (f : A → bool) (l : list A) :
  List.find f l = None ↔ ∀ x, x ∈ l → f x = false.
Proof.
  induction l as [|a l IH]; simpl.
  - split; [|done]. by intros _ x ?%elem_of_nil.
  - destruct (f a) eqn:Ea.
    + split; [done|]. intros H. rewrite H in Ea; [done | by left].
    + rewrite IH. split.
      * intros H x [->|Hx]%elem_of_cons; [done | by apply H].
      * intros H x Hx. apply H. by right.
Qed.

Lemma find_first {A} (f : A → bool) (l1 l2 : list A) (x : A) :
  (∀ y, y ∈ l1 → f y = false) → f x = true → List.find f (l1 ++ x :: l2) = Some x.
Proof.
  induction l1 as [|a l1 IH]; intros Hl1 Hx; simpl.
  - by rewrite Hx.
  - rewrite (Hl1 a) by by left. apply IH; [|done]. intros y Hy. apply Hl1. by right.
Qed.

Lemma frontmatter_nonblank content fm :
  frontmatter_of content = Some fm → is_blank content = false.
Proof.
  intros (ws & post & -> & _)%frontmatter_sound.
  apply not_true_iff_false. by intros H%is_blank_all_space.
Qed.

End more_validators.

Section more_frontmatter.
Import skill_validator.

(** A prefix of [t ++ c :: r] longer than [t] holds [c]. *)
Lemma startswith_across M t c r :
  startswith M (t ++ c :: r) = true → length t < length M → c ∈ M.
Proof.
  revert t. induction M as [|a M IH]; intros t H Hlen; simpl in Hlen; [lia|].
  destruct t as [|b t]; simpl in H.
  - apply andb_prop in H as [->%char_eqb_eq _]. by left.
  - apply andb_prop in H as [_ H]. right. apply (IH t H). simpl in Hlen. lia.
Qed.

(** A separator whose first character does not come back inside it has no
    overlap with itself: where it does not occur in [s], the first one in
    [s ++ M] is the one appended. *)
Lemma first_at_no_overlap c M s :
  c ∉ M → str_in (c :: M) s = false → first_at (c :: M) s.
Proof.
  intros Hc. unfold first_at. induction s as [|a t IH]; intros H.
  - rewrite app_nil_l. rewrite <- (app_nil_r (c :: M)) at 2. apply str_partition_nil_l.
  - rewrite <- app_comm_cons, str_partition_cons.
    cbn [str_in] in H. apply orb_false_elim in H as [Hhere Hlater].
    rewrite (IH Hlater).
    destruct (startswith (c :: M) (a :: t ++ c :: M)) eqn:E; [|done].
    exfalso. cbn [startswith] in E, Hhere.
    apply andb_prop in E as [Ea E]. rewrite Ea in Hhere. cbn [andb] in Hhere.
    destruct (decide (length M ≤ length t)) as [Hle|Hgt].
    + rewrite startswith_app_long in E by done. congruence.
    + apply Hc. eapply startswith_across; [exact E | lia].
Qed.

Lemma greedy_star_two ok p w x r g :
  forallb ok w = true → ok x = true →
  match r with c :: _ => ok c = false | [] => True end →
  ∃ l, greedy_star ok p (w ++ x :: r) g
       = MState (Some x) r g :: MState (lit_prev w p) (x :: r) g :: l.
Proof.
  intros Hw Hx Hr. revert p. induction w as [|a w IH]; intros p.
  - exists []. cbn [app greedy_star lit_prev]. rewrite Hx.
    destruct r as [|c r]; [done|]. cbn [greedy_star]. by rewrite Hr.
  - cbn [forallb] in Hw. apply andb_prop in Hw as [Ha Hw].
    destruct (IH Hw (Some a)) as [l Hl].
    exists (l ++ [MState p (a :: w ++ x :: r) g]).
    cbn [app greedy_star lit_prev]. by rewrite Ha, Hl.
Qed.

Lemma head_app_Some {A} (l1 l2 : list A) x : head l1 = Some x → head (l1 ++ l2) = Some x.
Proof. by destruct l1. Qed.


End more_frontmatter.

Section more_partition.
Import BioinfoSkillConverter.

Lemma first_at_suffix M x y : first_at M (x ++ y) → first_at M y.
Proof.
  unfold first_at. intros [_ H]%str_partition_Some.
  rewrite <- (app_nil_r M) at 2. apply str_partition_first.
  intros u v -> Hv. apply (H (x ++ u) v); [by rewrite app_assoc | done].
Qed.

(** A separator does not reach across a character it does not hold. *)
Lemma str_partition_skip M x c y :
  c ∉ M → str_in M x = false →
  str_partition M (x ++ c :: y)
  = (λ ab, (x ++ c :: ab.1, ab.2)) <$> str_partition M y.
Proof.
  intros Hc. induction x as [|a x IH]; intros Hx.
  - rewrite app_nil_l, str_partition_cons.
    destruct M as [|m M]; [done|].
    cbn [startswith]. destruct (char_eqb m c) eqn:E.
    { apply char_eqb_eq in E as ->. exfalso. apply Hc. by left. }
    cbn [andb]. by destruct (str_partition (m :: M) y) as [[? ?]|].
  - rewrite <- app_comm_cons, str_partition_cons.
    cbn [str_in] in Hx. apply orb_false_elim in Hx as [Hhere Hlater].
    rewrite (IH Hlater).
    destruct (startswith M (a :: x ++ c :: y)) eqn:E.
    + exfalso. destruct (decide (length M ≤ length (a :: x))) as [Hle|Hgt].
      * rewrite (app_comm_cons x (c :: y) a), startswith_app_long in E by done. congruence.
      * apply Hc. eapply (startswith_across M (a :: x)); [exact E | lia].
    + by destruct (str_partition M y) as [[? ?]|].
Qed.

Lemma str_in_skip_char M x c y :
  c ∉ M → str_in M x = false → str_in M y = false → str_in M (x ++ c :: y) = false.
Proof.
  intros Hc Hx Hy. apply str_partition_None.
  rewrite str_partition_skip by done. apply str_partition_None in Hy. by rewrite Hy.
Qed.

Lemma strip_padded w1 s w2 :
  forallb isspace w1 = true → forallb isspace w2 = true →
  strip (w1 ++ s ++ w2) = strip s.
Proof.
  intros H1 H2. induction w1 as [|c w1 IH].
  - rewrite app_nil_l. clear H1. induction w2 as [|d w2 IH] using rev_ind.
    + by rewrite app_nil_r.
    + rewrite forallb_app in H2. apply andb_prop in H2 as [H2 Hd].
      cbn [forallb] in Hd. rewrite andb_true_r in Hd.
      rewrite app_assoc, strip_snoc_space by done. by apply IH.
  - cbn [forallb] in H1. apply andb_prop in H1 as [Hc H1].
    rewrite <- app_comm_cons, strip_cons_space by done. by apply IH.
Qed.

End more_partition.

Section more_parsing.
Import skill_validator BioinfoSkillConverter.

Lemma parse_skill_guide_fails self resp d :
  validate_skill_md (extract_skill_md resp) = (0%Z, Some d) →
  parse_skill self resp
  = Ret (0%Z, Some (str "SKILL.md validation failed: " ++ d),
         make_contents (extract_skill_md resp) (extract_reference_md resp)
           (extract_example_script resp)).
Proof. intros H. unfold parse_skill. by rewrite H. Qed.

Lemma parse_skill_reference_fails self resp d :
  validate_skill_md (extract_skill_md resp) = (1%Z, None) →
  validate_reference_md (extract_reference_md resp) = (0%Z, Some d) →
  parse_skill self resp
  = Ret (0%Z, Some (str "Reference validation failed: " ++ d),
         make_contents (extract_skill_md resp) (extract_reference_md resp)
           (extract_example_script resp)).
Proof. intros H1 H2. unfold parse_skill. by rewrite H1, H2. Qed.

Lemma parse_skill_script_checked self resp :
  validate_skill_md (extract_skill_md resp) = (1%Z, None) →
  validate_reference_md (extract_reference_md resp) = (1%Z, None) →
  parse_skill self resp
  = match validate_example_script (ast_parse self) (extract_example_script resp) with
    | Raise e => Raise e
    | Ret (ok, err) =>
        if negb (truthy ok)
        then Ret (0%Z, Some (str "Example script validation failed: " ++ format_value err),
                  make_contents (extract_skill_md resp) (extract_reference_md resp)
                    (extract_example_script resp))
        else Ret (1%Z, None,
                  make_contents (extract_skill_md resp) (extract_reference_md resp)
                    (extract_example_script resp))
    end.
Proof. intros H1 H2. unfold parse_skill. by rewrite H1, H2. Qed.

Lemma parse_skill_pass_iff self resp contents :
  parse_skill self resp = Ret (1%Z, None, contents)
  ↔ contents = make_contents (extract_skill_md resp) (extract_reference_md resp)
                 (extract_example_script resp)
    ∧ validate_skill_md (extract_skill_md resp) = (1%Z, None)
    ∧ validate_reference_md (extract_reference_md resp) = (1%Z, None)
    ∧ validate_example_script (ast_parse self) (extract_example_script resp)
      = Ret (1%Z, None).
Proof.
  split.
  - intros H.
    destruct (validate_skill_md_shape (extract_skill_md resp)) as [E1 | (d & E1 & _)].
    2:{ by rewrite (parse_skill_guide_fails _ _ _ E1) in H. }
    destruct (validate_reference_md_shape (extract_reference_md resp))
      as [E2 | (d & E2 & _)].
    2:{ by rewrite (parse_skill_reference_fails _ _ _ E1 E2) in H. }
    rewrite (parse_skill_script_checked _ _ E1 E2) in H.
    destruct (validate_example_script _ _) as [[ok err]|e] eqn:E3; [|done].
    destruct (validate_example_script_shape _ _ _ E3) as [[= -> ->] | (d & [= -> ->] & _)];
      cbn in H; [|done].
    by injection H as <-.
  - intros (-> & E1 & E2 & E3). by rewrite (parse_skill_script_checked _ _ E1 E2), E3.
Qed.

Lemma parse_skill_truthy self resp ok err contents :
  parse_skill self resp = Ret (ok, err, contents) → truthy ok = true →
  ok = 1%Z ∧ err = None.
Proof.
  intros H Hok.
  destruct (validate_skill_md_shape (extract_skill_md resp)) as [E1 | (d & E1 & _)].
  2:{ rewrite (parse_skill_guide_fails _ _ _ E1) in H. by injection H as <- <- <-. }
  destruct (validate_reference_md_shape (extract_reference_md resp))
    as [E2 | (d & E2 & _)].
  2:{ rewrite (parse_skill_reference_fails _ _ _ E1 E2) in H. by injection H as <- <- <-. }
  rewrite (parse_skill_script_checked _ _ E1 E2) in H.
  destruct (validate_example_script _ _) as [[ok' err']|e] eqn:E3; [|done].
  destruct (negb (truthy ok')); injection H as <- <- <-; done.
Qed.

Lemma parse_skill_raise_iff self resp e :
  parse_skill self resp = Raise e
  ↔ validate_skill_md (extract_skill_md resp) = (1%Z, None)
    ∧ validate_reference_md (extract_reference_md resp) = (1%Z, None)
    ∧ is_blank (extract_example_script resp) = false
    ∧ ast_parse self (extract_example_script resp) = OtherError e.
Proof.
  rewrite <- validate_example_script_raises. split.
  - intros H.
    destruct (validate_skill_md_shape (extract_skill_md resp)) as [E1 | (d & E1 & _)].
    2:{ by rewrite (parse_skill_guide_fails _ _ _ E1) in H. }
    destruct (validate_reference_md_shape (extract_reference_md resp))
      as [E2 | (d & E2 & _)].
    2:{ by rewrite (parse_skill_reference_fails _ _ _ E1 E2) in H. }
    rewrite (parse_skill_script_checked _ _ E1 E2) in H.
    destruct (validate_example_script _ _) as [[ok' err']|e'] eqn:E3.
    + by destruct (negb (truthy ok')).
    + by injection H as ->.
  - intros (E1 & E2 & E3). by rewrite (parse_skill_script_checked _ _ E1 E2), E3.
Qed.

Lemma parse_mcpcode_pass_iff self resp code :
  BioinfoMCP.parse_mcpcode self resp = Ret (1%Z, None, code)
  ↔ ∃ c, code = Some c
         ∧ head (re_findall re_DOTALL code_fence_re resp) = Some c
         ∧ BioinfoMCP.ast_parse self c = Parsed
         ∧ str_in (str "@mcp.tool") c = true.
Proof.
  unfold BioinfoMCP.parse_mcpcode.
  destruct (re_findall _ _ resp) as [|c l]; cbn [head].
  { split; [done | by intros (c & _ & ? & _)]. }
  destruct (BioinfoMCP.ast_parse self c) eqn:Ep.
  - destruct (str_in (str "@mcp.tool") c) eqn:Ed; cbn [negb].
    + split; [intros [= <-]; by exists c | by intros (c' & -> & [= <-] & _)].
    + split; [done | intros (c' & -> & [= <-] & _ & ?); congruence].
  - split; [done | intros (c' & -> & [= <-] & ? & _); congruence].
  - split; [done | intros (c' & -> & [= <-] & ? & _); congruence].
Qed.

Lemma parse_mcpcode_truthy self resp ok err code :
  BioinfoMCP.parse_mcpcode self resp = Ret (ok, err, code) → truthy ok = true →
  ok = 1%Z ∧ err = None.
Proof.
  unfold BioinfoMCP.parse_mcpcode.
  destruct (re_findall _ _ resp) as [|c l]; [by intros [= <- <- <-]|].
  destruct (BioinfoMCP.ast_parse self c); [|by intros [= <- <- <-]|done].
  destruct (negb _); by intros [= <- <- <-].
Qed.

Lemma parse_mcpcode_raise_iff self resp e :
  BioinfoMCP.parse_mcpcode self resp = Raise e
  ↔ ∃ c, head (re_findall re_DOTALL code_fence_re resp) = Some c
         ∧ BioinfoMCP.ast_parse self c = OtherError e.
Proof.
  unfold BioinfoMCP.parse_mcpcode.
  destruct (re_findall _ _ resp) as [|c l]; cbn [head].
  { split; [done | by intros (c & ? & _)]. }
  destruct (BioinfoMCP.ast_parse self c) eqn:Ep.
  - destruct (negb _); (split; [done | intros (c' & [= <-] & ?); congruence]).
  - split; [done | intros (c' & [= <-] & ?); congruence].
  - split; [intros [= <-]; by exists c | intros (c' & [= <-] & ?); congruence].
Qed.

End more_parsing.

(** * More facts about the conversions *)

Section more_loops.

Lemma while_failing_post {R A} (ok : R → Z) (out : R → A) (body : R → IO R)
    (Q : R → list request → Prop) fuel r log a log' :
  (∀ r log r' log', body r log = (Ret r', log') → Q r' log') → Q r log →
  while_failing ok out body fuel r log = (Ret (Some a), log') →
  ∃ r', Q r' log' ∧ truthy (ok r') = true ∧ a = out r'.
Proof.
  intros Hbody. revert r log. induction fuel as [|fuel IH]; intros r log HQ;
    cbn [while_failing]; destruct (truthy (ok r)) eqn:Eok; cbn [negb].
  - intros [= <- <-]. by exists r.
  - done.
  - intros [= <- <-]. by exists r.
  - unfold mbind, io_bind. destruct (body r log) as [[r1|e] log1] eqn:Ebody; [|done].
    apply IH. by eapply Hbody.
Qed.

Lemma while_failing_sent {R A} (ok : R → Z) (out : R → A) (body : R → IO R)
    (P : request → Prop) :
  (∀ r log, ∃ q, (body r log).2 = log ++ [q] ∧ P q) →
  ∀ fuel r log, ∃ reqs,
    (while_failing ok out body fuel r log).2 = log ++ reqs
    ∧ Forall P reqs ∧ length reqs ≤ fuel.
Proof.
  intros Hbody. induction fuel as [|fuel IH]; intros r log;
    cbn [while_failing]; destruct (truthy (ok r)) eqn:Eok; cbn [negb].
  1-3: exists []; rewrite app_nil_r; split_and!; [done | constructor | simpl; lia].
  unfold mbind, io_bind. destruct (Hbody r log) as (q & Hq & HP).
  destruct (body r log) as [[r1|e] log1] eqn:Ebody; cbn [snd] in Hq; subst log1.
  - destruct (IH r1 (log ++ [q])) as (reqs & Hlog & HPs & Hlen).
    exists (q :: reqs). rewrite Hlog, <- app_assoc. split_and!; [done| |simpl; lia].
    by constructor.
  - exists [q]. split_and!; [done| |simpl; lia]. by constructor.
Qed.

Lemma while_failing_stuck {R A} (ok : R → Z) (out : R → A) (body : R → IO R) :
  (∀ r log, ∃ r' q, body r log = (Ret r', log ++ [q]) ∧ truthy (ok r') = false) →
  ∀ fuel r log, truthy (ok r) = false →
    ∃ reqs, while_failing ok out body fuel r log = (Ret None, log ++ reqs)
            ∧ length reqs = fuel.
Proof.
  intros Hbody. induction fuel as [|fuel IH]; intros r log Hr;
    cbn [while_failing]; rewrite Hr; cbn [negb].
  - exists []. by rewrite app_nil_r.
  - unfold mbind, io_bind. destruct (Hbody r log) as (r' & q & -> & Hr').
    destruct (IH r' (log ++ [q]) Hr') as (reqs & -> & Hlen).
    exists (q :: reqs). rewrite <- app_assoc. split; [done | simpl; lia].
Qed.

Lemma while_failing_raise {R A} (ok : R → Z) (out : R → A) (body : R → IO R)
    fuel r log e log' :
  while_failing ok out body fuel r log = (Raise e, log') →
  ∃ r0 log0, body r0 log0 = (Raise e, log').
Proof.
  revert r log. induction fuel as [|fuel IH]; intros r log;
    cbn [while_failing]; destruct (truthy (ok r)) eqn:Eok; cbn [negb]; try done.
  unfold mbind, io_bind. destruct (body r log) as [[r1|e1] log1] eqn:Ebody.
  - apply IH.
  - intros [= <- <-]. eauto.
Qed.

(** An attempt of the three-artifact flavor: one request, then the parse of
    its answer. *)
Lemma skill_autogenerate_eq self tool_name manual rhc log :
  let q := (BioinfoSkillConverter.sys_prompt self,
            skill_original_prompt self tool_name manual rhc) in
  BioinfoSkillConverter.autogenerate_skill self tool_name manual rhc log
  = (BioinfoSkillConverter.parse_skill self (BioinfoSkillConverter.client self log q),
     log ++ [q]).
Proof. done. Qed.

Lemma skill_refine_eq self tool_name contents err log :
  let q := (BioinfoSkillConverter.sys_prompt self,
            BioinfoSkillConverter.refine_prompt tool_name contents err) in
  BioinfoSkillConverter.refine_after_feedback self tool_name contents err log
  = (BioinfoSkillConverter.parse_skill self (BioinfoSkillConverter.client self log q),
     log ++ [q]).
Proof. done. Qed.

Lemma skill_retry_once_eq self tool_name manual rhc res log :
  ∃ q,
    BioinfoSkillConverter.retry_once self tool_name manual rhc res log
    = (BioinfoSkillConverter.parse_skill self (BioinfoSkillConverter.client self log q),
       log ++ [q])
    ∧ q.1 = BioinfoSkillConverter.sys_prompt self
    ∧ (q.2 = skill_original_prompt self tool_name manual rhc
       ∨ ∃ contents err,
           BioinfoSkillConverter.any_values contents = true
           ∧ q.2 = BioinfoSkillConverter.refine_prompt tool_name contents err).
Proof.
  unfold BioinfoSkillConverter.retry_once.
  destruct (BioinfoSkillConverter.any_values res.2) eqn:E; cbn [negb].
  - eexists. split; [apply skill_refine_eq|]. split; [done|]. right. eauto.
  - eexists. split; [apply skill_autogenerate_eq|]. split; [done|]. by left.
Qed.

Lemma mcp_autogenerate_eq self tool_name manual rhc log :
  let q := (BioinfoMCP.sys_prompt self, mcp_original_prompt self tool_name manual rhc) in
  BioinfoMCP.autogenerate_mcp_tool self tool_name manual rhc log
  = (BioinfoMCP.parse_mcpcode self (BioinfoMCP.client self log q), log ++ [q]).
Proof. done. Qed.

Lemma mcp_refine_eq self tool_name code err log :
  let q := (BioinfoMCP.sys_prompt self, BioinfoMCP.refine_prompt tool_name code err) in
  BioinfoMCP.refine_after_feedback self tool_name code err log
  = (BioinfoMCP.parse_mcpcode self (BioinfoMCP.client self log q), log ++ [q]).
Proof. done. Qed.

Lemma mcp_retry_once_eq self tool manual rhc res log :
  ∃ q,
    BioinfoMCP.retry_once self tool manual rhc res log
    = (BioinfoMCP.parse_mcpcode self (BioinfoMCP.client self log q), log ++ [q])
    ∧ q.1 = BioinfoMCP.sys_prompt self
    ∧ (q.2 = mcp_original_prompt self tool manual rhc
       ∨ ∃ code err, q.2 = BioinfoMCP.refine_prompt tool (Some code) err).
Proof.
  unfold BioinfoMCP.retry_once. destruct res as [[ok err] [code|]]; cbn [snd fst].
  - eexists. split; [apply mcp_refine_eq|]. split; [done|]. right. eauto.
  - eexists. split; [apply mcp_autogenerate_eq|]. split; [done|]. by left.
Qed.

Lemma convert_skill_eq fuel self tool_name manual rhc log :
  let q := (BioinfoSkillConverter.sys_prompt self,
            skill_original_prompt self tool_name manual rhc) in
  BioinfoSkillConverter.convert_skill fuel self tool_name manual rhc log
  = match BioinfoSkillConverter.parse_skill self
            (BioinfoSkillConverter.client self log q) with
    | Ret result =>
        BioinfoSkillConverter.retry_loop fuel self tool_name manual rhc result (log ++ [q])
    | Raise e => (Raise e, log ++ [q])
    end.
Proof.
  intros q. unfold BioinfoSkillConverter.convert_skill, mbind, io_bind.
  rewrite skill_autogenerate_eq. by destruct (BioinfoSkillConverter.parse_skill _ _).
Qed.

Lemma convert_mcptool_eq fuel self tool_name manual rhc log :
  let q := (BioinfoMCP.sys_prompt self, mcp_original_prompt self tool_name manual rhc) in
  BioinfoMCP.convert_mcptool fuel self tool_name manual rhc log
  = match BioinfoMCP.parse_mcpcode self (BioinfoMCP.client self log q) with
    | Ret conv_result =>
        BioinfoMCP.retry_loop fuel self tool_name manual rhc conv_result (log ++ [q])
    | Raise e => (Raise e, log ++ [q])
    end.
Proof.
  intros q. unfold BioinfoMCP.convert_mcptool, mbind, io_bind.
  rewrite mcp_autogenerate_eq. by destruct (BioinfoMCP.parse_mcpcode _ _).
Qed.

(** What a conversion returns is the artifact part of a passing parse of
    the answer to the last request. *)
Lemma convert_skill_returns_passed fuel self tool_name manual rhc log contents log' :
  BioinfoSkillConverter.convert_skill fuel self tool_name manual rhc log
  = (Ret (Some contents), log') →
  ∃ log0 q,
    log' = log0 ++ [q]
    ∧ BioinfoSkillConverter.parse_skill self (BioinfoSkillConverter.client self log0 q)
      = Ret (1%Z, None, contents).
Proof.
  rewrite convert_skill_eq.
  destruct (BioinfoSkillConverter.parse_skill _ _) as [res|e] eqn:E0; [|done].
  intros Hrun. unfold BioinfoSkillConverter.retry_loop in Hrun.
  apply (while_failing_post _ _ _
           (λ r l, ∃ log0 q, l = log0 ++ [q]
                   ∧ BioinfoSkillConverter.parse_skill self
                       (BioinfoSkillConverter.client self log0 q) = Ret r)) in Hrun
    as (r' & (log0 & q & -> & Hparse) & Hok & ->).
  - exists log0, q. split; [done|]. destruct r' as [[ok err] c]. cbn [fst snd] in *.
    by destruct (parse_skill_truthy _ _ _ _ _ Hparse Hok) as [-> ->].
  - intros r l r' l' Hbody.
    destruct (skill_retry_once_eq self tool_name manual rhc r l) as (q & Hq & _).
    rewrite Hq in Hbody. injection Hbody as Hp <-. by exists l, q.
  - eauto.
Qed.

Lemma convert_mcptool_returns_passed fuel self tool_name manual rhc log code log' :
  BioinfoMCP.convert_mcptool fuel self tool_name manual rhc log
  = (Ret (Some code), log') →
  ∃ log0 q,
    log' = log0 ++ [q]
    ∧ BioinfoMCP.parse_mcpcode self (BioinfoMCP.client self log0 q)
      = Ret (1%Z, None, code).
Proof.
  rewrite convert_mcptool_eq.
  destruct (BioinfoMCP.parse_mcpcode _ _) as [res|e] eqn:E0; [|done].
  intros Hrun. unfold BioinfoMCP.retry_loop in Hrun.
  apply (while_failing_post _ _ _
           (λ r l, ∃ log0 q, l = log0 ++ [q]
                   ∧ BioinfoMCP.parse_mcpcode self (BioinfoMCP.client self log0 q) = Ret r))
    in Hrun as (r' & (log0 & q & -> & Hparse) & Hok & ->).
  - exists log0, q. split; [done|]. destruct r' as [[ok err] c]. cbn [fst snd] in *.
    by destruct (parse_mcpcode_truthy _ _ _ _ _ Hparse Hok) as [-> ->].
  - intros r l r' l' Hbody.
    destruct (mcp_retry_once_eq self tool_name manual rhc r l) as (q & Hq & _).
    rewrite Hq in Hbody. injection Hbody as Hp <-. by exists l, q.
  - eauto.
Qed.

End more_loops.

Ltac not_in_marker :=
  let H := fresh in
  vm_compute; intros H;
  repeat (apply elem_of_cons in H as [H|H]; [discriminate H|]);
  by apply elem_of_nil in H.

Section more_round_trip.
Import skill_validator BioinfoSkillConverter.

(** A marker is not found in a block [X\n a \n\n] that does not hold it. *)
Lemma str_partition_past_block M X a rest0 :
  LF ∉ M → str_in M X = false → str_in M a = false →
  str_partition M (X ++ [LF] ++ a ++ [LF; LF] ++ rest0)
  = (λ ab, (X ++ [LF] ++ a ++ [LF; LF] ++ ab.1, ab.2)) <$> str_partition M rest0.
Proof.
  intros HLF HX Ha.
  assert (str_in M [] = false) as Hnil.
  { destruct M; [by destruct X|done]. }
  change (X ++ [LF] ++ a ++ [LF; LF] ++ rest0)
    with (X ++ LF :: (a ++ LF :: ([] ++ LF :: rest0))).
  rewrite !str_partition_skip by done.
  by destruct (str_partition M rest0) as [[? ?]|].
Qed.

Lemma str_partition_padded M a rest0 :
  LF ∉ M → str_in M a = false →
  str_partition M ([LF] ++ a ++ [LF; LF] ++ rest0)
  = (λ ab, ([LF] ++ a ++ [LF; LF] ++ ab.1, ab.2)) <$> str_partition M rest0.
Proof.
  intros HLF Ha. apply (str_partition_past_block M [] a rest0 HLF); [|done].
  destruct M; [by destruct a|done].
Qed.

Lemma existing_blocks_no_script a b :
  a ≠ [] → b ≠ [] →
  existing_blocks (make_contents a b [])
  = str "===SKILL.md===" ++ [LF] ++ a ++ [LF; LF]
    ++ str "===REFERENCE.md===" ++ [LF] ++ b ++ [LF; LF] ++ [].
Proof.
  intros Ha Hb. unfold existing_blocks, get_truthy, item.
  destruct (make_contents_lookup a b []) as (-> & -> & ->).
  cbn [default]. rewrite (nonempty_true a), (nonempty_true b) by done. cbn [nonempty].
  rewrite app_nil_l, <- !app_assoc. done.
Qed.

(** The guide and the reference come back from the blocks of a repair
    prompt; the example marker is searched in what follows them. *)
Lemma repair_blocks_extract a b tail :
  strip a = a → strip b = b →
  str_in (str "===REFERENCE.md===") a = false →
  str_in (str "===EXAMPLE_SCRIPT.py===") a = false →
  str_in (str "===EXAMPLE_SCRIPT.py===") b = false →
  (tail = [] ∨ ∃ rest3, tail = str "===EXAMPLE_SCRIPT.py===" ++ rest3) →
  let resp := str "===SKILL.md===" ++ [LF] ++ a ++ [LF; LF]
              ++ str "===REFERENCE.md===" ++ [LF] ++ b ++ [LF; LF] ++ tail in
  extract_skill_md resp = a
  ∧ extract_reference_md resp = b
  ∧ ∃ pre, str_partition (str "===EXAMPLE_SCRIPT.py===") resp
           = (λ ab, (pre ++ ab.1, ab.2))
               <$> str_partition (str "===EXAMPLE_SCRIPT.py===") tail.
Proof.
  intros Hsa Hsb HaR HaE HbE Htail resp.
  set (rest2 := [LF] ++ b ++ [LF; LF] ++ tail).
  assert (str_partition (str "===REFERENCE.md===") resp
          = Some (str "===SKILL.md===" ++ [LF] ++ a ++ [LF; LF] ++ [], rest2)) as HR.
  { unfold resp. rewrite str_partition_past_block; [|not_in_marker|by vm_compute|done].
    by rewrite str_partition_nil_l. }
  assert (str_partition (str "===EXAMPLE_SCRIPT.py===") rest2
          = (λ ab, ([LF] ++ b ++ [LF; LF] ++ ab.1, ab.2))
              <$> str_partition (str "===EXAMPLE_SCRIPT.py===") tail) as HE.
  { unfold rest2. apply str_partition_padded; [not_in_marker | done]. }
  split_and!.
  - rewrite (extract_skill_md_to_marker resp [] ([LF] ++ a ++ [LF; LF]
               ++ str "===REFERENCE.md===" ++ rest2) ([LF] ++ a ++ [LF; LF]) rest2).
    + rewrite (strip_padded [LF] a [LF; LF]) by done. done.
    + apply str_partition_nil_l.
    + rewrite str_partition_padded; [|not_in_marker|done].
      rewrite str_partition_nil_l. cbn. by rewrite ?app_nil_r.
  - destruct Htail as [-> | [rest3 ->]].
    + rewrite (extract_reference_md_to_end resp _ rest2 HR).
      * unfold rest2. rewrite app_nil_r. by rewrite (strip_padded [LF] b [LF; LF]).
      * apply str_partition_None. by rewrite HE.
    + rewrite (extract_reference_md_to_marker resp _ rest2 ([LF] ++ b ++ [LF; LF]) rest3 HR).
      * by rewrite (strip_padded [LF] b [LF; LF]).
      * rewrite HE, str_partition_nil_l. cbn. by rewrite ?app_nil_r.
  - unfold resp.
    rewrite str_partition_past_block; [|not_in_marker|by vm_compute|done].
    rewrite (str_partition_past_block _ (str "===REFERENCE.md===") b);
      [|not_in_marker|by vm_compute|done].
    exists (str "===SKILL.md===" ++ [LF] ++ a ++ [LF; LF]
            ++ str "===REFERENCE.md===" ++ [LF] ++ b ++ [LF; LF]).
    destruct (str_partition _ tail) as [[x y]|]; [|done].
    cbn [fmap option_fmap option_map fst snd]. by rewrite <- !app_assoc.
Qed.

End more_round_trip.

Section more_files.
Import skill_validator BioinfoSkillConverter.
Context {path : Type} (Path : pystr → path) (joinpath : path → pystr → path).

Lemma getitem_make_contents a b c :
  getitem (make_contents a b c) "skill_md" = Ret a
  ∧ getitem (make_contents a b c) "reference_md" = Ret b
  ∧ getitem (make_contents a b c) "example_script" = Ret c.
Proof.
  unfold getitem. by destruct (make_contents_lookup a b c) as (-> & -> & ->).
Qed.

Lemma script_written_iff_not_blank c :
  nonempty c && nonempty (strip c) = negb (is_blank c).
Proof. unfold is_blank. by destruct (nonempty c), (nonempty (strip c)). Qed.

Lemma validate_example_script_nonblank_pass ast_parse c :
  validate_example_script ast_parse c = Ret (1%Z, None) →
  is_blank c = false → ast_parse c = Parsed.
Proof.
  unfold validate_example_script. intros H Hb. rewrite Hb in H.
  by destruct (ast_parse c).
Qed.

End more_files.

(** * More facts about fenced blocks and about the requests of a conversion *)

Section more_fences.

Lemma lazy_until_exists stop a b :
  stop b = true → ∃ a' b', lazy_until stop (a ++ b) = Some (a', b').
Proof.
  intros Hb. induction a as [|c a (a' & b' & IH)].
  - exists [], b. destruct b; simpl; by rewrite Hb.
  - rewrite <- app_comm_cons. cbn [lazy_until].
    destruct (stop (c :: a ++ b)); [eauto|]. rewrite IH. eauto.
Qed.

(** The fence pattern matches at the start of a text exactly when the text
    begins with a fenced block. *)
Lemma rmatch_code_fence p t :
  rmatch re_DOTALL code_fence_re (MState p t None) ≠ []
  ↔ ∃ code post, t = fenced code ++ post.
Proof.
  unfold code_fence_re. split.
  - destruct (rmatch _ _ _) as [|m ms] eqn:Em; [done|]. intros _.
    apply (rmatch_block_inv re_DOTALL _ _ (startswith (LF :: str "```")))
      in Em as (a & b & Ht & _ & Hl); [|done|apply stops_lit].
    apply lazy_until_Some in Hl as (_ & Hb & _).
    apply startswith_spec in Hb as [post ->].
    exists a, post. rewrite Ht. unfold fenced. by rewrite <- !app_assoc.
  - intros (code & post & ->).
    destruct (lazy_until_exists (startswith (LF :: str "```")) code
                ((LF :: str "```") ++ post) (startswith_app _ _)) as (a' & b' & Hl).
    destruct (rmatch_block_hit re_DOTALL (str "```python" ++ [LF]) (lit (LF :: str "```"))
                (startswith (LF :: str "```")) p (fenced code ++ post) a' b' eq_refl
                (stops_lit _ _)) as (m & ms & -> & _); [| |done].
    + unfold fenced. rewrite <- !app_assoc, (app_assoc (str "```python") [LF]).
      apply startswith_app.
    + unfold fenced. rewrite <- !app_assoc, (app_assoc (str "```python") [LF]).
      rewrite drop_app_length. exact Hl.
Qed.

(** [re.findall] of the fence pattern finds nothing exactly in the texts
    that hold no fenced block. *)
Lemma code_fence_none_iff resp :
  re_findall re_DOTALL code_fence_re resp = []
  ↔ ∀ pre code post, resp ≠ pre ++ fenced code ++ post.
Proof.
  pose proof (re_findall_head re_DOTALL code_fence_re resp) as Hhd.
  pose proof (is_match_search re_DOTALL code_fence_re resp None) as Hm.
  fold (re_search re_DOTALL code_fence_re resp) in Hm. split.
  - intros Hnil pre code post ->. rewrite Hnil in Hhd. cbn [head] in Hhd.
    destruct (re_search _ _ _) as [mo|]; [done|].
    assert (is_match (@None rmatch_obj) = true) as Habs; [|done].
    apply Hm. exists pre, (fenced code ++ post). split; [done|].
    apply rmatch_code_fence. eauto.
  - intros Hno. destruct (re_findall _ _ resp) as [|c l]; [done|]. exfalso.
    cbn [head] in Hhd. destruct (re_search _ _ _) as [mo|]; [|done].
    destruct (proj1 Hm eq_refl) as (pre & t & -> & Ht).
    apply rmatch_code_fence in Ht as (code & post & ->). by eapply Hno.
Qed.

Lemma no_closing_fence_no_block resp :
  str_in (LF :: str "```") resp = false →
  ∀ pre code post, resp ≠ pre ++ fenced code ++ post.
Proof.
  intros H pre code post ->. apply not_true_iff_false in H. apply H.
  apply str_in_spec. exists (pre ++ str "```python" ++ [LF] ++ code), post.
  unfold fenced. by rewrite <- !app_assoc.
Qed.

Lemma parse_mcpcode_none_iff self resp :
  BioinfoMCP.parse_mcpcode self resp
  = Ret (0%Z, Some (str "There is no python code found in the gpt_response"), None)
  ↔ ∀ pre code post, resp ≠ pre ++ fenced code ++ post.
Proof.
  rewrite <- code_fence_none_iff. unfold BioinfoMCP.parse_mcpcode.
  destruct (re_findall _ _ resp) as [|c l]; [done|].
  split; [|done]. destruct (BioinfoMCP.ast_parse self c); [|done..].
  by destruct (negb _).
Qed.

End more_fences.

Section more_chains.

Lemma skill_retry_once_next self tool_name manual rhc result log :
  BioinfoSkillConverter.retry_once self tool_name manual rhc result log
  = (BioinfoSkillConverter.parse_skill self
       (BioinfoSkillConverter.client self log
          (skill_next_request self tool_name manual rhc result)),
     log ++ [skill_next_request self tool_name manual rhc result]).
Proof.
  unfold BioinfoSkillConverter.retry_once, skill_next_request.
  by destruct (BioinfoSkillConverter.any_values result.2).
Qed.

Lemma mcp_retry_once_next self tool manual rhc conv_result log :
  BioinfoMCP.retry_once self tool manual rhc conv_result log
  = (BioinfoMCP.parse_mcpcode self
       (BioinfoMCP.client self log (mcp_next_request self tool manual rhc conv_result)),
     log ++ [mcp_next_request self tool manual rhc conv_result]).
Proof.
  unfold BioinfoMCP.retry_once, mcp_next_request.
  by destruct conv_result as [[ok err] [code|]].
Qed.

Lemma while_failing_extends {R A} (ok : R → Z) (out : R → A) (body : R → IO R)
    (Q : R → request) :
  (∀ r l, (body r l).2 = l ++ [Q r]) →
  ∀ fuel r l, ∃ reqs, (while_failing ok out body fuel r l).2 = l ++ reqs.
Proof.
  intros Hbody. induction fuel as [|fuel IH]; intros r l;
    cbn [while_failing]; destruct (truthy (ok r)); cbn [negb];
    try (exists []; by rewrite app_nil_r).
  unfold mbind, io_bind. specialize (Hbody r l).
  destruct (body r l) as [[r1|e] l1]; cbn [snd] in Hbody; subst l1.
  - destruct (IH r1 (l ++ [Q r])) as (reqs & ->). exists (Q r :: reqs).
    by rewrite <- app_assoc.
  - by exists [Q r].
Qed.

(** In the log of a loop whose turn sends the request [Q r] built from the
    latest result [r], and takes as new result what [F] makes of the
    answer, any two requests in a row are linked in that way. *)
Lemma while_failing_chain {R A} (ok : R → Z) (out : R → A) (body : R → IO R)
    (F : list request → request → result R) (Q : R → request) :
  (∀ r l, body r l = (F l (Q r), l ++ [Q r])) →
  ∀ fuel r l0 q0 outcome l',
    F l0 q0 = Ret r →
    while_failing ok out body fuel r (l0 ++ [q0]) = (outcome, l') →
    ∀ l1 q1 q2 l2,
      l' = l1 ++ q1 :: q2 :: l2 → length l0 ≤ length l1 →
      ∃ r1, F l1 q1 = Ret r1 ∧ truthy (ok r1) = false ∧ q2 = Q r1.
Proof.
  intros Hbody. induction fuel as [|fuel IH]; intros r l0 q0 outcome l' HF;
    cbn [while_failing]; destruct (truthy (ok r)) eqn:Eok; cbn [negb].
  1-3: intros [= <- <-] l1 q1 q2 l2 Heq Hlen;
       apply (f_equal length) in Heq; rewrite !length_app in Heq; simpl in Heq; lia.
  unfold mbind, io_bind. rewrite Hbody.
  destruct (F (l0 ++ [q0]) (Q r)) as [r1|e] eqn:HF1.
  - intros Hrun l1 q1 q2 l2 Heq Hlen.
    destruct (decide (length l1 = length l0)) as [Hsame|Hmore].
    + destruct (while_failing_extends ok out body Q
                  (λ r l, f_equal snd (Hbody r l)) fuel r1 ((l0 ++ [q0]) ++ [Q r]))
        as (reqs & Hext).
      rewrite Hrun in Hext. cbn [snd] in Hext. rewrite Hext in Heq.
      rewrite <- !app_assoc in Heq. cbn [app] in Heq.
      apply app_inj_1 in Heq as [<- [= <- <- _]]; [|done].
      by exists r.
    + apply (IH r1 (l0 ++ [q0]) (Q r) outcome l' HF1 Hrun l1 q1 q2 l2 Heq).
      rewrite length_app. simpl. lia.
  - intros [= <- <-] l1 q1 q2 l2 Heq Hlen.
    assert (length l1 = length l0) as Hsame.
    { apply (f_equal length) in Heq. rewrite !length_app in Heq. simpl in Heq. lia. }
    rewrite <- !app_assoc in Heq. cbn [app] in Heq.
    apply app_inj_1 in Heq as [<- [= <- <- _]]; [|done].
    by exists r.
Qed.

(** Any two requests in a row of a conversion: the second is the one the
    loop builds from the parse of the answer to the first. *)
Lemma convert_skill_chain fuel self tool_name manual rhc log outcome log' l1 q1 q2 l2 :
  BioinfoSkillConverter.convert_skill fuel self tool_name manual rhc log = (outcome, log') →
  log' = l1 ++ q1 :: q2 :: l2 → length log ≤ length l1 →
  ∃ result,
    BioinfoSkillConverter.parse_skill self (BioinfoSkillConverter.client self l1 q1)
    = Ret result
    ∧ truthy result.1.1 = false
    ∧ q2 = skill_next_request self tool_name manual rhc result.
Proof.
  rewrite convert_skill_eq.
  destruct (BioinfoSkillConverter.parse_skill _ _) as [res|e] eqn:E0.
  - intros Hrun. unfold BioinfoSkillConverter.retry_loop in Hrun.
    eapply (while_failing_chain _ _ _
              (λ l q, BioinfoSkillConverter.parse_skill self
                        (BioinfoSkillConverter.client self l q))
              (skill_next_request self tool_name manual rhc)); [|exact E0|exact Hrun].
    intros r l. apply skill_retry_once_next.
  - intros [= <- <-] Heq Hlen. apply (f_equal length) in Heq.
    rewrite !length_app in Heq. simpl in Heq. lia.
Qed.

Lemma convert_mcptool_chain fuel self tool_name manual rhc log outcome log' l1 q1 q2 l2 :
  BioinfoMCP.convert_mcptool fuel self tool_name manual rhc log = (outcome, log') →
  log' = l1 ++ q1 :: q2 :: l2 → length log ≤ length l1 →
  ∃ conv_result,
    BioinfoMCP.parse_mcpcode self (BioinfoMCP.client self l1 q1) = Ret conv_result
    ∧ truthy conv_result.1.1 = false
    ∧ q2 = mcp_next_request self tool_name manual rhc conv_result.
Proof.
  rewrite convert_mcptool_eq.
  destruct (BioinfoMCP.parse_mcpcode _ _) as [res|e] eqn:E0.
  - intros Hrun. unfold BioinfoMCP.retry_loop in Hrun.
    eapply (while_failing_chain _ _ _
              (λ l q, BioinfoMCP.parse_mcpcode self (BioinfoMCP.client self l q))
              (mcp_next_request self tool_name manual rhc)); [|exact E0|exact Hrun].
    intros r l. apply mcp_retry_once_next.
  - intros [= <- <-] Heq Hlen. apply (f_equal length) in Heq.
    rewrite !length_app in Heq. simpl in Heq. lia.
Qed.

(** A turn that raises ends the loop with that exception. *)
Lemma while_failing_raises {R A} (ok : R → Z) (out : R → A) (body : R → IO R)
    n fuel r l r' l' e l'' :
  nsteps (loop_step ok body) n (r, l) (r', l') → n < fuel →
  truthy (ok r') = false → body r' l' = (Raise e, l'') →
  while_failing ok out body fuel r l = (Raise e, l'').
Proof.
  intros Hsteps. revert fuel. remember (r, l) as c eqn:Ec. remember (r', l') as c' eqn:Ec'.
  revert r l Ec. induction Hsteps as [c|n c c1 c2 Hstep Hsteps IH];
    intros r l -> fuel Hlt Hok Hbody; subst.
  - injection Ec' as -> ->. destruct fuel as [|fuel]; [lia|].
    cbn [while_failing]. rewrite Hok. cbn [negb]. unfold mbind, io_bind.
    by rewrite Hbody.
  - destruct Hstep as [Hfail Hb]. destruct c1 as [r1 l1]. cbn [fst snd] in *.
    destruct fuel as [|fuel]; [lia|].
    cbn [while_failing]. rewrite Hfail. cbn [negb]. unfold mbind, io_bind.
    rewrite Hb. apply (IH eq_refl r1 l1 eq_refl); [lia|done..].
Qed.

End more_chains.

(** * The claims *)

(** Case analysis on membership in a list that is written out. *)
Ltac each_member H :=
  repeat (apply elem_of_cons in H as [-> | H]);
  [.. | by apply elem_of_nil in H].

Section claims.
Import skill_validator BioinfoSkillConverter.

(** ** C1 *)

(** C1, counterexample.  In the single-artifact flavor a completion without
    a fenced block yields [None] for the artifact, not the empty string. *)
Lemma C1_single_artifact_is_None :
  BioinfoMCP.parse_mcpcode (sample_mcp_self [] cpython_sample)
    (str "I cannot help with that.")
  = Ret (0%Z, Some (str "There is no python code found in the gpt_response"), None)
  ∧ (None : option pystr) ≠ Some [].
Proof. split; [vm_compute; reflexivity | discriminate]. Qed.

(** C1, as amended.  Whenever [parse_skill] returns, the dictionary it
    returns has exactly the three keys of the schema, and a key whose marker
    does not occur in the completion is bound to the empty string.  In the
    single-artifact flavor the artifact is [None], with the diagnostic that
    no code was found, exactly for the completions that hold no fenced
    block: no opening fence followed, later, by a closing one. *)
Theorem C1_parse_binds_every_key :
  (∀ self resp ok err contents,
      parse_skill self resp = Ret (ok, err, contents) →
      dom contents = list_to_set (skill_schema.*1) ∧
      ∀ key marker, (key, marker) ∈ skill_schema →
        ∃ v, contents !! key = Some v ∧ (str_in marker resp = false → v = []))
  ∧ (∀ self resp,
       BioinfoMCP.parse_mcpcode self resp
       = Ret (0%Z, Some (str "There is no python code found in the gpt_response"),
              None)
       ↔ ∀ pre code post, resp ≠ pre ++ fenced code ++ post)
  ∧ (∀ self resp,
       str_in (str "```python" ++ [LF]) resp = false →
       BioinfoMCP.parse_mcpcode self resp
       = Ret (0%Z, Some (str "There is no python code found in the gpt_response"),
              None))
  ∧ (∀ self resp ok err artifact,
       BioinfoMCP.parse_mcpcode self resp = Ret (ok, err, artifact) →
       artifact = None ↔ ∀ pre code post, resp ≠ pre ++ fenced code ++ post).
Proof.
  split_and!.
  - intros self resp ok err contents ->%parse_skill_contents.
    split; [apply make_contents_dom|].
    intros key marker Hin.
    destruct (make_contents_lookup (extract_skill_md resp) (extract_reference_md resp)
                (extract_example_script resp)) as (H1 & H2 & H3).
    unfold skill_schema in Hin. rewrite !elem_of_cons, elem_of_nil in Hin.
    destruct Hin as [[= -> ->] | [[= -> ->] | [[= -> ->] | []]]];
      eexists; (split; [eassumption|]).
    + apply extract_skill_md_absent.
    + apply extract_reference_md_absent.
    + apply extract_example_script_absent.
  - apply parse_mcpcode_none_iff.
  - intros self resp H. unfold BioinfoMCP.parse_mcpcode.
    by rewrite code_fence_absent.
  - intros self resp ok err artifact. rewrite <- code_fence_none_iff.
    unfold BioinfoMCP.parse_mcpcode.
    destruct (re_findall _ _ resp) as [|c l]; [by intros [= <- <- <-]|].
    destruct (BioinfoMCP.ast_parse self c); [|by intros [= <- <- <-]|done].
    destruct (negb _); by intros [= <- <- <-].
Qed.

Lemma C1_witness :
  (∃ v, make_contents [] [] [] !! "reference_md" = Some v
        ∧ (str_in (str "===REFERENCE.md===") (str "I cannot help with that.") = false
           → v = []))
  ∧ BioinfoMCP.parse_mcpcode (sample_mcp_self [] cpython_sample)
      (str "I cannot help with that.")
    = Ret (0%Z, Some (str "There is no python code found in the gpt_response"), None)
  ∧ BioinfoMCP.parse_mcpcode (sample_mcp_self [] cpython_sample)
      (str "```python" ++ [LF] ++ sample_code)
    = Ret (0%Z, Some (str "There is no python code found in the gpt_response"), None).
Proof.
  destruct C1_parse_binds_every_key as (Hskill & Hmcp & Hopen & _). split_and!.
  - refine (proj2 (Hskill (sample_skill_self [] cpython_sample)
                     (str "I cannot help with that.") 0%Z
                     (Some (str "SKILL.md validation failed: SKILL.md content is empty"))
                     (make_contents [] [] []) _) "reference_md"
                     (str "===REFERENCE.md===") _).
    + vm_compute. reflexivity.
    + unfold skill_schema. apply elem_of_cons. right. apply elem_of_cons. by left.
  - apply Hopen. vm_compute. reflexivity.
  - apply Hmcp. apply no_closing_fence_no_block. vm_compute. reflexivity.
Defined.

(** ** C2 *)

(** C2.  On a source with a NUL character [ast.parse] raises [ValueError],
    which the [except SyntaxError] of [validate_example_script] does not
    catch: no verdict is returned, and a completion with such an example
    script makes [parse_skill] raise. *)
Lemma C2_null_byte_raises :
  let resp := join [LF] [ str "===SKILL.md==="; sample_guide;
                          str "===REFERENCE.md==="; sample_reference;
                          str "===EXAMPLE_SCRIPT.py==="; [0%N] ] in
  let e := Exn (str "ValueError") (str "source code string cannot contain null bytes") in
  validate_example_script cpython_sample [0%N] = Raise e
  ∧ extract_example_script resp = [0%N]
  ∧ parse_skill (sample_skill_self [] cpython_sample) resp = Raise e.
Proof. split_and!; vm_compute; reflexivity. Qed.

(** How far validation is total: it returns a verdict for every content on
    which [ast.parse] returns or raises [SyntaxError]; an exception of
    another class raised by [ast.parse] on a non-blank example script (or on
    the code of the single-artifact flavor) is the only way for it not to
    return. *)
Lemma validate_total_up_to_parser :
  (∀ ast_parse content e,
      validate_example_script ast_parse content = Raise e
      ↔ is_blank content = false ∧ ast_parse content = OtherError e)
  ∧ (∀ ast_parse content,
       (∀ e, ast_parse content ≠ OtherError e) →
       ∃ v, validate_example_script ast_parse content = Ret v)
  ∧ (∀ self resp,
       (∀ src e, ast_parse self src ≠ OtherError e) →
       ∃ r, parse_skill self resp = Ret r)
  ∧ (∀ self resp,
       (∀ src e, BioinfoMCP.ast_parse self src ≠ OtherError e) →
       ∃ r, BioinfoMCP.parse_mcpcode self resp = Ret r).
Proof.
  split_and!.
  - apply validate_example_script_raises.
  - intros ast_parse content Hp.
    destruct (validate_example_script ast_parse content) as [v|e] eqn:E; [eauto|].
    apply validate_example_script_raises in E as [_ E]. by apply Hp in E.
  - apply parse_skill_returns.
  - apply parse_mcpcode_returns.
Qed.

Lemma validate_total_up_to_parser_example :
  (∃ v, validate_example_script lenient_parser (str "x = (") = Ret v)
  ∧ (∃ r, parse_skill (sample_skill_self [] lenient_parser)
            (sample_completion sample_guide) = Ret r)
  ∧ (∃ r, BioinfoMCP.parse_mcpcode (sample_mcp_self [] lenient_parser)
            (fenced sample_code) = Ret r).
Proof.
  destruct validate_total_up_to_parser as (_ & Hv & Hs & Hm). split_and!.
  - apply Hv. intros e. apply lenient_parser_never_raises.
  - apply Hs. simpl. apply lenient_parser_never_raises.
  - apply Hm. simpl. apply lenient_parser_never_raises.
Defined.

(** ** C3 *)

(** C3, counterexample.  In the single-artifact flavor a completion with an
    empty fenced block gives the empty string as the only artifact; the
    verdict fails, and the next request is the repair prompt, not the
    original prompt. *)
Lemma C3_empty_module_is_refined :
  let self := sample_mcp_self [] cpython_sample in
  let tool := str "fastqc" in
  let manual := str "fastqc.pdf" in
  let res : BioinfoMCP.mcp_result :=
    (0%Z, Some (str "Code is missing the @mcp.tool() decorator"), Some []) in
  BioinfoMCP.parse_mcpcode self (fenced []) = Ret res
  ∧ (BioinfoMCP.retry_once self tool manual false res []).2
    = [(BioinfoMCP.sys_prompt self,
        BioinfoMCP.refine_prompt tool (Some []) res.1.2)]
  ∧ (BioinfoMCP.retry_once self tool manual false res []).2
    ≠ [(BioinfoMCP.sys_prompt self, mcp_original_prompt self tool manual false)].
Proof. split_and!; [vm_compute; reflexivity.. | vm_compute; discriminate]. Qed.

(** C3, as amended.  Three-artifact flavor: after a failed attempt, if every
    value of the dictionary is empty the next request is the original
    prompt, and if some value is non-empty the next request is the repair
    prompt built from that dictionary and that diagnostic.  Single-artifact
    flavor: the next request is the original prompt when no fenced block was
    found (the artifact is [None]) and the repair prompt when one was found,
    the empty one included.  In both flavors the loop returns within [fuel]
    turns exactly when a result with a true [ok] is reached within [fuel]
    turns, and what it returns is the artifact part of that result. *)
Theorem C3_retry_policy :
  (∀ self tool_name manual rhc res log,
      any_values res.2 = false →
      retry_once self tool_name manual rhc res log
      = autogenerate_skill self tool_name manual rhc log
      ∧ (retry_once self tool_name manual rhc res log).2
        = log ++ [(sys_prompt self, skill_original_prompt self tool_name manual rhc)])
  ∧ (∀ self tool_name manual rhc res log,
       any_values res.2 = true →
       retry_once self tool_name manual rhc res log
       = refine_after_feedback self tool_name res.2 res.1.2 log
       ∧ (retry_once self tool_name manual rhc res log).2
         = log ++ [(sys_prompt self, refine_prompt tool_name res.2 res.1.2)])
  ∧ (∀ contents : gmap string pystr,
       (any_values contents = false ↔ ∀ key v, contents !! key = Some v → v = [])
       ∧ (any_values contents = true ↔ ∃ key v, contents !! key = Some v ∧ v ≠ []))
  ∧ (∀ self tool_name manual rhc fuel res log contents log',
       retry_loop fuel self tool_name manual rhc res log = (Ret (Some contents), log')
       ↔ ∃ n res',
           n ≤ fuel
           ∧ nsteps (skill_step self tool_name manual rhc) n (res, log) (res', log')
           ∧ truthy res'.1.1 = true ∧ res'.2 = contents)
  ∧ (∀ self tool manual rhc ok err log,
       BioinfoMCP.retry_once self tool manual rhc (ok, err, None) log
       = BioinfoMCP.autogenerate_mcp_tool self tool manual rhc log
       ∧ (BioinfoMCP.retry_once self tool manual rhc (ok, err, None) log).2
         = log ++ [(BioinfoMCP.sys_prompt self,
                    mcp_original_prompt self tool manual rhc)])
  ∧ (∀ self tool manual rhc ok err code log,
       BioinfoMCP.retry_once self tool manual rhc (ok, err, Some code) log
       = BioinfoMCP.refine_after_feedback self tool (Some code) err log
       ∧ (BioinfoMCP.retry_once self tool manual rhc (ok, err, Some code) log).2
         = log ++ [(BioinfoMCP.sys_prompt self,
                    BioinfoMCP.refine_prompt tool (Some code) err)])
  ∧ (∀ self tool manual rhc fuel res log code log',
       BioinfoMCP.retry_loop fuel self tool manual rhc res log
       = (Ret (Some code), log')
       ↔ ∃ n res',
           n ≤ fuel
           ∧ nsteps (mcp_step self tool manual rhc) n (res, log) (res', log')
           ∧ truthy res'.1.1 = true ∧ res'.2 = code).
Proof.
  split_and!.
  - apply skill_retry_restart.
  - apply skill_retry_refine.
  - intros contents. split; [apply any_values_false | apply any_values_true].
  - apply skill_retry_loop_spec.
  - apply mcp_retry_restart.
  - apply mcp_retry_refine.
  - apply mcp_retry_loop_spec.
Qed.

(** A run of the three-artifact loop: the first completion lacks the
    [metadata] key, the second is well formed. *)
Lemma C3_witness :
  let self := sample_skill_self
                [ sample_completion sample_guide_no_metadata;
                  sample_completion sample_guide ] cpython_sample in
  let tool := str "fastqc" in
  let manual := str "fastqc.md" in
  let first := (sys_prompt self, skill_original_prompt self tool manual false) in
  let res : skill_result :=
    (0%Z,
     Some (str "SKILL.md validation failed: YAML frontmatter is missing required key: metadata"),
     make_contents sample_guide_no_metadata sample_reference sample_script) in
  let repair := (sys_prompt self, refine_prompt tool res.2 res.1.2) in
  let mcp := sample_mcp_self [ str "I cannot help with that."; fenced sample_code ]
               cpython_sample in
  let mcp_first :=
    (BioinfoMCP.sys_prompt mcp, mcp_original_prompt mcp tool manual false) in
  (retry_once self tool manual false res [first]).2 = [first] ++ [repair]
  ∧ (retry_once self tool manual false (0%Z, None, make_contents [] [] []) [first]).2
    = [first] ++ [first]
  ∧ (∃ n res',
       n ≤ 3
       ∧ nsteps (skill_step self tool manual false) n (res, [first])
           (res', [first; repair])
       ∧ truthy res'.1.1 = true
       ∧ res'.2 = make_contents sample_guide sample_reference sample_script)
  ∧ (∃ n res',
       n ≤ 3
       ∧ nsteps (mcp_step mcp tool manual false) n
           ((0%Z, Some (str "There is no python code found in the gpt_response"), None),
            [mcp_first])
           (res', [mcp_first; mcp_first])
       ∧ truthy res'.1.1 = true
       ∧ res'.2 = Some sample_code).
Proof.
  intros self tool manual first res repair mcp mcp_first.
  destruct C3_retry_policy as (Hrestart & Hrefine & _ & Hloop & _ & _ & Hmcp).
  split_and!.
  - apply Hrefine. vm_compute. reflexivity.
  - apply Hrestart. vm_compute. reflexivity.
  - apply Hloop. vm_compute. reflexivity.
  - apply Hmcp. vm_compute. reflexivity.
Defined.

(** ** C4 *)

(** C4, counterexample.  A guide document in which [Best Practices] is a
    heading of level 2 only, the eleven other sections being headings of
    level 1, passes validation. *)
Lemma C4_level2_heading_passes :
  let doc := sample_frontmatter (str "name") ++ [LF] ++ sample_sections (str "## ") in
  has_level1_heading doc (str "Best Practices") = false
  ∧ forallb (has_level1_heading doc)
      (List.filter (λ s, negb (pystr_eqb s (str "Best Practices"))) REQUIRED_SECTIONS)
    = true
  ∧ validate_skill_md doc = (1%Z, None).
Proof. split_and!; vm_compute; reflexivity. Qed.

(** C4, as amended.  The twelve section names are as listed.  For each of
    them validation requires that the document contain, somewhere, a [#]
    followed by one or more blanks and the name (a deeper heading, or a
    longer one that begins with the name, will do).  A non-blank document
    with a complete metadata block in which exactly one section has no such
    occurrence fails with a diagnostic that names that section. *)
Theorem C4_required_sections :
  REQUIRED_SECTIONS =
    [ str "Overview"; str "When to Use This Skill"; str "Core Capabilities";
      str "Installation and Setup"; str "Quick Start"; str "Standard Workflow";
      str "Common Tasks"; str "Key Parameters"; str "Best Practices";
      str "Common Pitfalls"; str "Additional Resources"; str "Bundled Resources" ]
  ∧ (∀ content section,
       section_missing content section = false ↔ heading_occurs content section)
  ∧ (∀ content,
       validate_skill_md content = (1%Z, None) →
       ∀ section, section ∈ REQUIRED_SECTIONS → heading_occurs content section)
  ∧ (∀ content fm section,
       is_blank content = false →
       frontmatter_of content = Some fm →
       (∀ key, key ∈ REQUIRED_FRONTMATTER_KEYS → key_missing fm key = false) →
       section ∈ REQUIRED_SECTIONS →
       section_missing content section = true →
       (∀ other, other ∈ REQUIRED_SECTIONS → other ≠ section →
                 section_missing content other = false) →
       validate_skill_md content
       = (0%Z, Some (str "SKILL.md is missing required section: '# "
                       ++ section ++ str "'"))).
Proof.
  split_and!.
  - reflexivity.
  - apply section_found.
  - intros content (_ & _ & Hs & _)%validate_skill_md_ok section Hin.
    by apply section_found, Hs.
  - apply validate_skill_md_missing_section.
Qed.

Lemma C4_witness :
  heading_occurs sample_guide (str "Quick Start")
  ∧ validate_skill_md (sample_frontmatter (str "name") ++ [LF] ++ sample_sections [])
    = (0%Z, Some (str "SKILL.md is missing required section: '# "
                    ++ str "Best Practices" ++ str "'")).
Proof.
  destruct C4_required_sections as (_ & _ & Hok & H). split.
  { apply Hok; [vm_compute; reflexivity|].
    unfold REQUIRED_SECTIONS. do 4 (apply elem_of_cons; right).
    apply elem_of_cons. by left. }
  eapply (H _ _ (str "Best Practices")).
  - vm_compute. reflexivity.
  - vm_compute. reflexivity.
  - intros key Hin. unfold REQUIRED_FRONTMATTER_KEYS in Hin.
    each_member Hin; vm_compute; reflexivity.
  - unfold REQUIRED_SECTIONS. do 8 (apply elem_of_cons; right).
    apply elem_of_cons. by left.
  - vm_compute. reflexivity.
  - intros other Hin Hne. unfold REQUIRED_SECTIONS in Hin.
    each_member Hin; first [by destruct Hne | vm_compute; reflexivity].
Defined.

(** ** C5 *)

(** C5, counterexample.  A guide document whose metadata block has the
    lines [nickname:], [description:], [license:], [context:] and
    [metadata:], and so no [name:] line, passes validation. *)
Lemma C5_key_inside_another_passes :
  let doc := sample_frontmatter (str "nickname") ++ [LF] ++ sample_sections (str "# ") in
  (∃ fm, frontmatter_of doc = Some fm
         ∧ has_key_line fm (str "name") = false
         ∧ forallb (has_key_line fm)
             [ str "description"; str "license"; str "context"; str "metadata" ]
           = true)
  ∧ validate_skill_md doc = (1%Z, None).
Proof. split; [eexists; split_and!|]; vm_compute; reflexivity. Qed.

(** C5, as amended.  The five keys are as listed.  Validation requires that
    the document begin with [---], blanks and a line feed, that a line
    feed followed by [---] come later, and that the text in between (the
    metadata block) contain, for every key, the key followed by a colon
    (anywhere, so also inside a longer key or a value).  A non-blank
    document without such a block fails, and one whose block lacks [key:]
    for exactly one key fails with a diagnostic that names the key. *)
Theorem C5_required_frontmatter :
  REQUIRED_FRONTMATTER_KEYS =
    [ str "name"; str "description"; str "license"; str "context"; str "metadata" ]
  ∧ (∀ fm key,
       key_missing fm key = false ↔ ∃ a b, fm = a ++ key ++ str ":" ++ b)
  ∧ (∀ content fm,
       frontmatter_of content = Some fm →
       ∃ ws post,
         content = str "---" ++ ws ++ [LF] ++ fm ++ [LF] ++ str "---" ++ post
         ∧ forallb isspace ws = true)
  ∧ (∀ content,
       validate_skill_md content = (1%Z, None) →
       ∃ fm, frontmatter_of content = Some fm
             ∧ ∀ key, key ∈ REQUIRED_FRONTMATTER_KEYS → key_missing fm key = false)
  ∧ (∀ content,
       is_blank content = false → frontmatter_of content = None →
       validate_skill_md content
       = (0%Z, Some (str "SKILL.md is missing YAML frontmatter (--- delimiters)")))
  ∧ (∀ content fm key,
       is_blank content = false →
       frontmatter_of content = Some fm →
       key ∈ REQUIRED_FRONTMATTER_KEYS →
       key_missing fm key = true →
       (∀ other, other ∈ REQUIRED_FRONTMATTER_KEYS → other ≠ key →
                 key_missing fm other = false) →
       validate_skill_md content
       = (0%Z, Some (str "YAML frontmatter is missing required key: " ++ key))).
Proof.
  split_and!.
  - reflexivity.
  - apply key_found.
  - apply frontmatter_sound.
  - by intros content (_ & H & _)%validate_skill_md_ok.
  - apply validate_skill_md_no_frontmatter.
  - apply validate_skill_md_missing_key.
Qed.

Lemma C5_witness :
  (∃ ws post,
     str "---" ++ [LF] ++ str "name: fastqc" ++ [LF] ++ str "---"
     = str "---" ++ ws ++ [LF] ++ str "name: fastqc" ++ [LF] ++ str "---" ++ post
     ∧ forallb isspace ws = true)
  ∧ (∃ fm, frontmatter_of sample_guide = Some fm
           ∧ ∀ key, key ∈ REQUIRED_FRONTMATTER_KEYS → key_missing fm key = false)
  ∧ validate_skill_md (str "# Overview")
    = (0%Z, Some (str "SKILL.md is missing YAML frontmatter (--- delimiters)"))
  ∧ validate_skill_md sample_guide_no_metadata
    = (0%Z, Some (str "YAML frontmatter is missing required key: " ++ str "metadata")).
Proof.
  destruct C5_required_frontmatter as (_ & _ & Hsound & Hok & Hnone & H).
  split_and!.
  { apply Hsound. vm_compute. reflexivity. }
  { apply Hok. vm_compute. reflexivity. }
  { apply Hnone; vm_compute; reflexivity. }
  eapply (H _ _ (str "metadata")).
  - vm_compute. reflexivity.
  - vm_compute. reflexivity.
  - unfold REQUIRED_FRONTMATTER_KEYS. do 4 (apply elem_of_cons; right).
    apply elem_of_cons. by left.
  - vm_compute. reflexivity.
  - intros other Hin Hne. unfold REQUIRED_FRONTMATTER_KEYS in Hin.
    each_member Hin; first [by destruct Hne | vm_compute; reflexivity].
Defined.

(** ** C6 *)

(** C6, counterexample.  In the single-artifact flavor the fenced code
    parses to the code, and the same code without the fence parses to no
    artifact at all. *)
Lemma C6_unwrapped_module_is_rejected :
  BioinfoMCP.parse_mcpcode (sample_mcp_self [] cpython_sample) (fenced sample_code)
  = Ret (1%Z, None, Some sample_code)
  ∧ BioinfoMCP.parse_mcpcode (sample_mcp_self [] cpython_sample) sample_code
    = Ret (0%Z, Some (str "There is no python code found in the gpt_response"), None).
Proof. split; vm_compute; reflexivity. Qed.

(** C6, as amended.  For the example script: when the code has no blank at
    either end and no triple backquote in it, the completion with the code
    in a [```python] fence after the marker and the completion with the
    bare code after the marker both yield the code.  For the source module
    of the single-artifact flavor only the fenced form yields the code: the
    bare form is answered with [no python code found] and the artifact
    [None]. *)
Theorem C6_fenced_and_bare_code pre code :
  first_at (str "===EXAMPLE_SCRIPT.py===") pre →
  strip code = code →
  str_in (str "```") code = false →
  extract_example_script
    (pre ++ str "===EXAMPLE_SCRIPT.py===" ++ [LF] ++ fenced code) = code
  ∧ extract_example_script
      (pre ++ str "===EXAMPLE_SCRIPT.py===" ++ [LF] ++ code) = code
  ∧ (∀ self r,
       BioinfoMCP.parse_mcpcode self (fenced code) = Ret r → r.2 = Some code)
  ∧ (∀ self,
       BioinfoMCP.parse_mcpcode self code
       = Ret (0%Z, Some (str "There is no python code found in the gpt_response"),
              None)).
Proof.
  intros Hpre Hstrip Hcode. split_and!.
  - rewrite (extract_example_script_tail _ pre ([LF] ++ fenced code))
      by by apply first_at_partition.
    change ([LF] ++ fenced code) with (LF :: fenced code).
    rewrite strip_cons_space, strip_fenced by done.
    pose proof (code_fence_of_fenced code Hcode) as Hhd.
    by destruct (re_findall _ _ _) as [|? ?]; [|injection Hhd as ->].
  - rewrite (extract_example_script_tail _ pre ([LF] ++ code))
      by by apply first_at_partition.
    change ([LF] ++ code) with (LF :: code).
    rewrite strip_cons_space, Hstrip by done.
    by rewrite code_fence_of_bare.
  - intros self r. unfold BioinfoMCP.parse_mcpcode.
    pose proof (code_fence_of_fenced code Hcode) as Hhd.
    destruct (re_findall _ _ _) as [|? ?]; [done|]. injection Hhd as ->.
    destruct (BioinfoMCP.ast_parse self code); [| |done].
    + by destruct (negb _); intros [= <-].
    + by intros [= <-].
  - intros self. unfold BioinfoMCP.parse_mcpcode.
    by rewrite code_fence_of_bare.
Qed.

Lemma C6_witness :
  extract_example_script
    (str "Here you go." ++ str "===EXAMPLE_SCRIPT.py===" ++ [LF] ++ fenced sample_script)
  = sample_script
  ∧ extract_example_script
      (str "Here you go." ++ str "===EXAMPLE_SCRIPT.py===" ++ [LF] ++ sample_script)
    = sample_script.
Proof.
  destruct (C6_fenced_and_bare_code (str "Here you go.") sample_script)
    as (H1 & H2 & _); [vm_compute; reflexivity..|].
  by split.
Defined.

(** ** C7 *)

(** C7.  The repair prompt is built from the dictionary and the diagnostic
    of the result under repair and from nothing else: whatever was sent
    before, the request a turn of the loop appends is that prompt.  It
    embeds the value of every key (each non-empty one after its marker,
    whether or not that artifact passed its own check), and it has one
    place for one diagnostic, the rest of the text not depending on it.  In
    a conversion the result under repair is the latest one: of any two
    requests in a row, the second is built from the parse of the answer to
    the first, from its dictionary and its diagnostic, and from no earlier
    result.  The same holds of the single-artifact repair prompt and its
    code. *)
Theorem C7_repair_prompt_contents :
  (∀ tool_name contents err key v,
      contents !! key = Some v →
      key = "skill_md" ∨ key = "reference_md" ∨ key = "example_script" →
      str_in v (refine_prompt tool_name contents err) = true)
  ∧ (∀ a b c,
       a ≠ [] → b ≠ [] → c ≠ [] →
       existing_blocks (make_contents a b c)
       = str "===SKILL.md===" ++ [LF] ++ a ++ [LF; LF]
         ++ str "===REFERENCE.md===" ++ [LF] ++ b ++ [LF; LF]
         ++ str "===EXAMPLE_SCRIPT.py===" ++ [LF] ++ fenced c ++ [LF])
  ∧ (∀ tool_name contents err,
       str_in (format_value err) (refine_prompt tool_name contents err) = true)
  ∧ (∀ tool_name contents,
       ∃ prefix suffix, ∀ err,
         refine_prompt tool_name contents err = prefix ++ format_value err ++ suffix)
  ∧ (∀ self tool_name manual rhc res log,
       any_values res.2 = true →
       (retry_once self tool_name manual rhc res log).2
       = log ++ [(sys_prompt self, refine_prompt tool_name res.2 res.1.2)])
  ∧ (∀ tool_name code err,
       str_in code (BioinfoMCP.refine_prompt tool_name (Some code) err) = true
       ∧ str_in (format_value err) (BioinfoMCP.refine_prompt tool_name (Some code) err)
         = true)
  ∧ (∀ tool_name code,
       ∃ prefix suffix, ∀ err,
         BioinfoMCP.refine_prompt tool_name code err
         = prefix ++ format_value err ++ suffix)
  ∧ (∀ self tool manual rhc ok err code log,
       (BioinfoMCP.retry_once self tool manual rhc (ok, err, Some code) log).2
       = log ++ [(BioinfoMCP.sys_prompt self,
                  BioinfoMCP.refine_prompt tool (Some code) err)])
  ∧ (∀ fuel self tool_name manual rhc log outcome log' l1 q1 q2 l2,
       convert_skill fuel self tool_name manual rhc log = (outcome, log') →
       log' = l1 ++ q1 :: q2 :: l2 → length log ≤ length l1 →
       ∃ result,
         parse_skill self (client self l1 q1) = Ret result
         ∧ truthy result.1.1 = false
         ∧ q2 = (sys_prompt self,
                 if any_values result.2
                 then refine_prompt tool_name result.2 result.1.2
                 else skill_original_prompt self tool_name manual rhc))
  ∧ (∀ fuel self tool manual rhc log outcome log' l1 q1 q2 l2,
       BioinfoMCP.convert_mcptool fuel self tool manual rhc log = (outcome, log') →
       log' = l1 ++ q1 :: q2 :: l2 → length log ≤ length l1 →
       ∃ conv_result,
         BioinfoMCP.parse_mcpcode self (BioinfoMCP.client self l1 q1) = Ret conv_result
         ∧ truthy conv_result.1.1 = false
         ∧ q2 = (BioinfoMCP.sys_prompt self,
                 match conv_result.2 with
                 | None => mcp_original_prompt self tool manual rhc
                 | Some _ =>
                     BioinfoMCP.refine_prompt tool conv_result.2 conv_result.1.2
                 end)).
Proof.
  split_and!.
  - intros. by eapply skill_refine_prompt_has_artifact.
  - apply existing_blocks_full.
  - apply skill_refine_prompt_has_diagnostic.
  - apply skill_refine_prompt_slot.
  - intros. by apply skill_retry_refine.
  - intros. split;
      [apply mcp_refine_prompt_has_code | apply mcp_refine_prompt_has_diagnostic].
  - apply mcp_refine_prompt_slot.
  - intros. apply mcp_retry_refine.
  - intros *. apply convert_skill_chain.
  - intros *. apply convert_mcptool_chain.
Qed.

Lemma C7_witness :
  let contents := make_contents sample_guide_no_metadata sample_reference sample_script in
  let err := Some (str "SKILL.md validation failed: YAML frontmatter is missing required key: metadata") in
  let self := sample_skill_self
                [ sample_completion sample_guide_no_metadata;
                  sample_completion sample_guide ] cpython_sample in
  let first := (sys_prompt self,
                skill_original_prompt self (str "fastqc") (str "fastqc.md") false) in
  let repair := (sys_prompt self, refine_prompt (str "fastqc") contents err) in
  str_in sample_reference (refine_prompt (str "fastqc") contents err) = true
  ∧ existing_blocks contents
    = str "===SKILL.md===" ++ [LF] ++ sample_guide_no_metadata ++ [LF; LF]
      ++ str "===REFERENCE.md===" ++ [LF] ++ sample_reference ++ [LF; LF]
      ++ str "===EXAMPLE_SCRIPT.py===" ++ [LF] ++ fenced sample_script ++ [LF]
  ∧ (retry_once (sample_skill_self [] cpython_sample) (str "fastqc") (str "fastqc.md")
       false (0%Z, err, contents) []).2
    = [] ++ [(str "You write skill packages.",
              refine_prompt (str "fastqc") contents err)]
  ∧ (∃ result,
       parse_skill self (client self [] first) = Ret result
       ∧ truthy result.1.1 = false
       ∧ repair = (sys_prompt self,
                   if any_values result.2
                   then refine_prompt (str "fastqc") result.2 result.1.2
                   else skill_original_prompt self (str "fastqc") (str "fastqc.md") false)).
Proof.
  intros contents err self first repair.
  destruct C7_repair_prompt_contents
    as (Hart & Hfull & _ & _ & Hsent & _ & _ & _ & Hchain & _).
  split_and!.
  - apply (Hart _ _ _ "reference_md"); [vm_compute; reflexivity | by right; left].
  - apply Hfull; vm_compute; discriminate.
  - apply (Hsent (sample_skill_self [] cpython_sample)). vm_compute. reflexivity.
  - apply (Hchain 3 self (str "fastqc") (str "fastqc.md") false []
             (Ret (Some (make_contents sample_guide sample_reference sample_script)))
             [first; repair] [] first repair []).
    + vm_compute. reflexivity.
    + reflexivity.
    + simpl. lia.
Defined.

(** ** C8 *)

(** C8, counterexample.  A script that is a single no-break space is not
    empty, is rejected by the Python parser, and passes validation. *)
Lemma C8_blank_script_passes_unparsed :
  extract_example_script (str "===EXAMPLE_SCRIPT.py===" ++ [LF] ++ fenced [160%N])
  = [160%N]
  ∧ nonempty [160%N] = true
  ∧ cpython_sample [160%N]
    = SyntaxError (str "invalid non-printable character U+00A0 (<unknown>, line 1)")
  ∧ validate_example_script cpython_sample [160%N] = Ret (1%Z, None).
Proof. split_and!; vm_compute; reflexivity. Qed.

(** C8, as amended.  The empty script passes, and so does every script made
    of whitespace only, without being parsed.  A script with a non-blank
    character passes iff [ast.parse] accepts it, and a [SyntaxError] gives
    the verdict [(0, "Example script has SyntaxError: " + str(e))].  The
    verdict depends on nothing but the script. *)
Theorem C8_example_script_verdict ast_parse content :
  (content = [] → validate_example_script ast_parse content = Ret (1%Z, None))
  ∧ (forallb isspace content = true →
     validate_example_script ast_parse content = Ret (1%Z, None))
  ∧ (forallb isspace content = false →
     (validate_example_script ast_parse content = Ret (1%Z, None)
      ↔ ast_parse content = Parsed)
     ∧ ∀ msg, ast_parse content = SyntaxError msg →
         validate_example_script ast_parse content
         = Ret (0%Z, Some (str "Example script has SyntaxError: " ++ msg))).
Proof.
  unfold validate_example_script. split_and!.
  - by intros ->.
  - intros H%is_blank_all_space. by rewrite H.
  - intros H. destruct (is_blank content) eqn:E.
    { apply is_blank_all_space in E. congruence. }
    split.
    + destruct (ast_parse content); split; done.
    + by intros msg ->.
Qed.

Lemma C8_witness :
  validate_example_script cpython_sample [] = Ret (1%Z, None)
  ∧ validate_example_script cpython_sample [LF; 32%N; 9%N] = Ret (1%Z, None)
  ∧ validate_example_script cpython_sample sample_script = Ret (1%Z, None)
  ∧ validate_example_script cpython_sample (str "x = (")
    = Ret (0%Z, Some (str "Example script has SyntaxError: "
                        ++ str "'(' was never closed (<unknown>, line 1)")).
Proof.
  split_and!.
  - destruct (C8_example_script_verdict cpython_sample []) as (H & _).
    apply H. reflexivity.
  - destruct (C8_example_script_verdict cpython_sample [LF; 32%N; 9%N]) as (_ & H & _).
    apply H. vm_compute. reflexivity.
  - destruct (C8_example_script_verdict cpython_sample sample_script) as (_ & _ & H).
    apply H; vm_compute; reflexivity.
  - destruct (C8_example_script_verdict cpython_sample (str "x = (")) as (_ & _ & H).
    apply H; vm_compute; reflexivity.
Defined.

(** ** C9 *)

(** C9.  On a script with a NUL character [validate_example_script] returns
    no verdict of either shape: the [ValueError] of [ast.parse] leaves it,
    and leaves [parse_skill], which has extracted a guide and a reference
    that pass their checks and hands back no dictionary. *)
Lemma C9_null_byte_no_verdict :
  let resp := join [LF] [ str "===SKILL.md==="; sample_guide;
                          str "===REFERENCE.md==="; sample_reference;
                          str "===EXAMPLE_SCRIPT.py==="; [0%N] ] in
  let self := sample_skill_self [] cpython_sample in
  (∀ v, validate_example_script (ast_parse self) (extract_example_script resp) ≠ Ret v)
  ∧ (∀ result, parse_skill self resp ≠ Ret result)
  ∧ validate_skill_md (extract_skill_md resp) = (1%Z, None)
  ∧ validate_reference_md (extract_reference_md resp) = (1%Z, None).
Proof.
  intros resp self.
  assert (parse_skill self resp
          = Raise (Exn (str "ValueError")
                     (str "source code string cannot contain null bytes"))) as Hp
    by (vm_compute; reflexivity).
  assert (validate_example_script (ast_parse self) (extract_example_script resp)
          = Raise (Exn (str "ValueError")
                     (str "source code string cannot contain null bytes"))) as Hv
    by (vm_compute; reflexivity).
  split_and!.
  - intros v. by rewrite Hv.
  - intros result. by rewrite Hp.
  - vm_compute. reflexivity.
  - vm_compute. reflexivity.
Qed.

(** Wherever a verdict is returned it has one of the two shapes, [(1, None)]
    or [(0, d)] with [d] a non-empty text, so that [ok] is 1 exactly when
    the diagnostic is [None]; and whatever [parse_skill] returns, success or
    failure, carries the dictionary that binds each of the three keys to
    the artifact extracted for it. *)
Lemma verdict_shapes_when_returned :
  (∀ content, well_shaped (validate_skill_md content))
  ∧ (∀ content, well_shaped (validate_reference_md content))
  ∧ (∀ ast_parse content v,
       validate_example_script ast_parse content = Ret v → well_shaped v)
  ∧ (∀ v, well_shaped v → (v.1 = 1%Z ↔ v.2 = None))
  ∧ (∀ self resp ok err contents,
       parse_skill self resp = Ret (ok, err, contents) →
       contents !! "skill_md" = Some (extract_skill_md resp)
       ∧ contents !! "reference_md" = Some (extract_reference_md resp)
       ∧ contents !! "example_script" = Some (extract_example_script resp)
       ∧ dom contents = {[ "skill_md"; "reference_md"; "example_script" ]}
       ∧ ((ok = 1%Z ∧ err = None) ∨ (ok = 0%Z ∧ ∃ d, err = Some d ∧ d ≠ []))).
Proof.
  split_and!.
  - apply validate_skill_md_shape.
  - apply validate_reference_md_shape.
  - apply validate_example_script_shape.
  - apply well_shaped_ok.
  - intros self resp ok err contents H.
    pose proof (parse_skill_contents _ _ _ _ _ H) as ->.
    destruct (make_contents_lookup (extract_skill_md resp) (extract_reference_md resp)
                (extract_example_script resp)) as (H1 & H2 & H3).
    split_and!; [done..| |by eapply parse_skill_shape].
    rewrite make_contents_dom. unfold skill_schema. cbn. set_solver.
Qed.

(** ** C10 *)

(** C10, counterexample.  A completion with the example-script marker in
    front of the guide marker, and no reference marker: the guide artifact
    is the text after the guide marker and does not contain the
    example-script marker. *)
Lemma C10_markers_out_of_order :
  let resp := join [LF] [ str "===EXAMPLE_SCRIPT.py==="; str "x = 1";
                          str "===SKILL.md==="; str "the guide" ] in
  str_in (str "===SKILL.md===") resp = true
  ∧ str_in (str "===EXAMPLE_SCRIPT.py===") resp = true
  ∧ str_in (str "===REFERENCE.md===") resp = false
  ∧ extract_skill_md resp = str "the guide"
  ∧ str_in (str "===EXAMPLE_SCRIPT.py===") (extract_skill_md resp) = false.
Proof. split_and!; vm_compute; reflexivity. Qed.

(** C10, as amended.  Take a completion without reference marker in which
    the first example-script marker comes after the first guide marker,
    [mid] being the text between the two and [tail] the text after.  Then
    the guide artifact is [mid] without its leading blanks, the
    example-script marker, and [tail] without its trailing blanks; the
    reference artifact is empty; the example-script artifact is [tail]
    stripped, or the first [```python] block in it if it has one; and in
    either case the example-script artifact lies in the part of [tail] that
    the guide artifact holds after the marker. *)
Theorem C10_trailing_text_in_two_artifacts resp pre mid tail :
  str_partition (str "===SKILL.md===") resp
    = Some (pre, mid ++ str "===EXAMPLE_SCRIPT.py===" ++ tail) →
  str_partition (str "===EXAMPLE_SCRIPT.py===") resp
    = Some (pre ++ str "===SKILL.md===" ++ mid, tail) →
  str_in (str "===REFERENCE.md===") resp = false →
  extract_skill_md resp = lstrip mid ++ str "===EXAMPLE_SCRIPT.py===" ++ rstrip tail
  ∧ extract_reference_md resp = []
  ∧ extract_example_script resp =
      match re_findall re_DOTALL code_fence_re (strip tail) with
      | code :: _ => code
      | [] => strip tail
      end
  ∧ ∃ a b, rstrip tail = a ++ extract_example_script resp ++ b.
Proof.
  intros Hskill Hscript Href.
  assert (extract_skill_md resp
          = lstrip mid ++ str "===EXAMPLE_SCRIPT.py===" ++ rstrip tail) as Hguide.
  { rewrite (extract_skill_md_to_end _ _ _ Hskill).
    - change (str "===EXAMPLE_SCRIPT.py===")
        with (61%N :: str "==EXAMPLE_SCRIPT.py==" ++ [61%N]).
      by apply strip_around.
    - apply str_partition_Some in Hskill as [-> _].
      by apply str_in_app_r, str_in_app_r in Href. }
  pose proof (extract_example_script_tail _ _ _ Hscript) as Hex.
  split_and!; [done | by apply extract_reference_md_absent | done |].
  rewrite Hex. destruct (rstrip_strip tail) as [w ->].
  destruct (re_findall _ _ (strip tail)) as [|code rest] eqn:Ef.
  - exists w, []. by rewrite app_nil_r.
  - apply code_fence_head_in, str_in_spec in Ef as (x & y & ->).
    exists (w ++ x), y. by rewrite <- !app_assoc.
Qed.

Lemma C10_witness :
  let resp := join [LF] [ str "===SKILL.md==="; str "the guide";
                          str "===EXAMPLE_SCRIPT.py==="; str "x = 1"; [] ] in
  extract_skill_md resp
  = lstrip (LF :: str "the guide" ++ [LF]) ++ str "===EXAMPLE_SCRIPT.py==="
    ++ rstrip (LF :: str "x = 1" ++ [LF])
  ∧ extract_example_script resp = str "x = 1"
  ∧ ∃ a b, rstrip (LF :: str "x = 1" ++ [LF]) = a ++ extract_example_script resp ++ b.
Proof.
  intros resp.
  destruct (C10_trailing_text_in_two_artifacts resp []
              (LF :: str "the guide" ++ [LF]) (LF :: str "x = 1" ++ [LF]))
    as (H1 & _ & H3 & H4); [vm_compute; reflexivity..|].
  split_and!; [exact H1 | rewrite H3; vm_compute; reflexivity | exact H4].
Defined.

End claims.

(** * Further properties of the code *)

Section further_validators.
Import skill_validator BioinfoSkillConverter.

(** X1.  [validate_reference_md] passes exactly the documents in which some
    line begins with one or more [#] followed by a blank (a line break
    counts); a blank document is answered with [Reference document is
    empty], any other with [Reference document has no headers]. *)
Theorem reference_verdict content :
  (validate_reference_md content = (1%Z, None) ↔ header_occurs content)
  ∧ (is_blank content = true →
     validate_reference_md content = (0%Z, Some (str "Reference document is empty")))
  ∧ (is_blank content = false → ¬ header_occurs content →
     validate_reference_md content
     = (0%Z, Some (str "Reference document has no headers"))).
Proof.
  unfold validate_reference_md. split_and!.
  - rewrite <- header_found. destruct (is_blank content) eqn:Eb.
    + split; [done|]. intros H. apply header_found in H.
      destruct H as (pre & n & ws & post & -> & _).
      apply is_blank_all_space in Eb. rewrite forallb_app in Eb.
      apply andb_prop in Eb as [_ Eb]. cbn in Eb. done.
    + destruct (is_match _); cbn [negb]; split; done.
  - by intros ->.
  - intros -> H. rewrite <- header_found in H.
    by destruct (is_match _).
Qed.

Lemma reference_verdict_witness :
  validate_reference_md (str "# Parameters") = (1%Z, None)
  ∧ validate_reference_md [LF; 32%N]
    = (0%Z, Some (str "Reference document is empty"))
  ∧ validate_reference_md (str "Parameters #")
    = (0%Z, Some (str "Reference document has no headers")).
Proof.
  split_and!.
  - apply (proj1 (reference_verdict (str "# Parameters"))).
    exists [], 0, [32%N], (str "Parameters"). split_and!; [done|by left|done|done].
  - apply (proj1 (proj2 (reference_verdict [LF; 32%N]))). vm_compute. reflexivity.
  - apply (proj2 (proj2 (reference_verdict (str "Parameters #")))).
    + vm_compute. reflexivity.
    + intros H. apply (proj1 (reference_verdict (str "Parameters #"))) in H.
      vm_compute in H. discriminate H.
Defined.

(** X2.  [validate_skill_md] accepts a document exactly when it opens with a
    metadata block that holds [key:] for each of the five keys, holds [#],
    blanks and the name for each of the twelve sections, and holds three
    backquotes in a row.  The emptiness check adds nothing to acceptance. *)
Theorem guide_accepted_iff content :
  validate_skill_md content = (1%Z, None)
  ↔ (∃ fm, frontmatter_of content = Some fm
           ∧ ∀ key, key ∈ REQUIRED_FRONTMATTER_KEYS →
               ∃ a b, fm = a ++ key ++ str ":" ++ b)
    ∧ (∀ section, section ∈ REQUIRED_SECTIONS → heading_occurs content section)
    ∧ str_in (str "```") content = true.
Proof.
  split.
  - intros (_ & (fm & Hfm & Hkeys) & Hsec & Hcode)%validate_skill_md_ok. split_and!.
    + exists fm. split; [done|]. intros key Hk. by apply key_found, Hkeys.
    + intros section Hs. by apply section_found, Hsec.
    + done.
  - intros ((fm & Hfm & Hkeys) & Hsec & Hcode).
    pose proof (frontmatter_nonblank _ _ Hfm) as Hb.
    unfold validate_skill_md. rewrite Hb. unfold frontmatter_of in Hfm.
    destruct (re_match _ _ content) as [mo|]; [|done]. injection Hfm as Hfm.
    rewrite Hfm.
    rewrite (proj2 (find_none_iff (key_missing fm) _)).
    2:{ intros key Hk. by apply key_found, Hkeys. }
    rewrite (proj2 (find_none_iff (section_missing content) _)).
    2:{ intros section Hs. by apply section_found, Hsec. }
    by rewrite Hcode.
Qed.

Lemma guide_accepted_iff_witness :
  (∃ fm, frontmatter_of sample_guide = Some fm
         ∧ ∀ key, key ∈ REQUIRED_FRONTMATTER_KEYS →
             ∃ a b, fm = a ++ key ++ str ":" ++ b)
  ∧ (∀ section, section ∈ REQUIRED_SECTIONS → heading_occurs sample_guide section)
  ∧ str_in (str "```") sample_guide = true.
Proof.
  apply (proj1 (guide_accepted_iff sample_guide)). vm_compute. reflexivity.
Defined.

(** X3.  [validate_skill_md] reports the first check that fails, in the
    order: emptiness, metadata block, keys in the order of the list,
    sections in the order of the list, code block.  What comes later in
    that order has no part in the diagnostic. *)
Theorem guide_first_failure content :
  (is_blank content = true →
   validate_skill_md content = (0%Z, Some (str "SKILL.md content is empty")))
  ∧ (∀ fm l1 key l2,
       frontmatter_of content = Some fm →
       REQUIRED_FRONTMATTER_KEYS = l1 ++ key :: l2 →
       forallb (λ k, negb (key_missing fm k)) l1 = true →
       key_missing fm key = true →
       validate_skill_md content
       = (0%Z, Some (str "YAML frontmatter is missing required key: " ++ key)))
  ∧ (∀ fm l1 section l2,
       frontmatter_of content = Some fm →
       forallb (λ k, negb (key_missing fm k)) REQUIRED_FRONTMATTER_KEYS = true →
       REQUIRED_SECTIONS = l1 ++ section :: l2 →
       forallb (λ s, negb (section_missing content s)) l1 = true →
       section_missing content section = true →
       validate_skill_md content
       = (0%Z, Some (str "SKILL.md is missing required section: '# "
                       ++ section ++ str "'")))
  ∧ (∀ fm,
       frontmatter_of content = Some fm →
       forallb (λ k, negb (key_missing fm k)) REQUIRED_FRONTMATTER_KEYS = true →
       forallb (λ s, negb (section_missing content s)) REQUIRED_SECTIONS = true →
       str_in (str "```") content = false →
       validate_skill_md content = (0%Z, Some (str "SKILL.md has no code blocks"))).
Proof.
  assert (∀ {A} (f : A → bool) l, forallb (λ x, negb (f x)) l = true →
            ∀ x, x ∈ l → f x = false) as Hall.
  { intros A f l H x Hx%list_elem_of_In. rewrite forallb_forall in H.
    by apply negb_true_iff, H. }
  split_and!.
  - unfold validate_skill_md. by intros ->.
  - intros fm l1 key l2 Hfm Hl Hl1 Hkey.
    pose proof (frontmatter_nonblank _ _ Hfm) as Hb.
    unfold validate_skill_md. rewrite Hb. unfold frontmatter_of in Hfm.
    destruct (re_match _ _ content) as [mo|]; [|done]. injection Hfm as ->.
    rewrite Hl, (find_first _ l1 l2 key); [done| |done]. by apply Hall.
  - intros fm l1 section l2 Hfm Hkeys Hl Hl1 Hsec.
    pose proof (frontmatter_nonblank _ _ Hfm) as Hb.
    unfold validate_skill_md. rewrite Hb. unfold frontmatter_of in Hfm.
    destruct (re_match _ _ content) as [mo|]; [|done]. injection Hfm as ->.
    rewrite (proj2 (find_none_iff _ _)) by by apply Hall.
    rewrite Hl, (find_first _ l1 l2 section); [done| |done]. by apply Hall.
  - intros fm Hfm Hkeys Hsecs Hcode.
    pose proof (frontmatter_nonblank _ _ Hfm) as Hb.
    unfold validate_skill_md. rewrite Hb. unfold frontmatter_of in Hfm.
    destruct (re_match _ _ content) as [mo|]; [|done]. injection Hfm as ->.
    rewrite (proj2 (find_none_iff _ _)) by by apply Hall.
    rewrite (proj2 (find_none_iff _ _)) by by apply Hall.
    by rewrite Hcode.
Qed.

Lemma guide_first_failure_witness :
  let doc := str "---" ++ [LF] ++ str "name: fastqc" ++ [LF] ++ str "context: fork"
             ++ [LF] ++ str "---" ++ [LF] ++ str "# Overview" in
  validate_skill_md [32%N]
  = (0%Z, Some (str "SKILL.md content is empty"))
  ∧ validate_skill_md doc
    = (0%Z, Some (str "YAML frontmatter is missing required key: " ++ str "description"))
  ∧ validate_skill_md (sample_frontmatter (str "name") ++ [LF] ++ str "# Overview")
    = (0%Z, Some (str "SKILL.md is missing required section: '# "
                    ++ str "When to Use This Skill" ++ str "'"))
  ∧ validate_skill_md
      (sample_frontmatter (str "name") ++ [LF]
       ++ join [LF] ((λ s, str "# " ++ s) <$> REQUIRED_SECTIONS))
    = (0%Z, Some (str "SKILL.md has no code blocks")).
Proof.
  intros doc. split_and!.
  - apply (proj1 (guide_first_failure [32%N])). vm_compute. reflexivity.
  - apply (proj1 (proj2 (guide_first_failure doc))
             (str "name: fastqc" ++ [LF] ++ str "context: fork")
             [str "name"] (str "description")
             [str "license"; str "context"; str "metadata"]);
      vm_compute; reflexivity.
  - apply (proj1 (proj2 (proj2 (guide_first_failure
               (sample_frontmatter (str "name") ++ [LF] ++ str "# Overview"))))
             (join [LF] [ str "name: fastqc"; str "description: quality control";
                          str "license: BSD-3-Clause"; str "context: fork";
                          str "metadata:"; str "  author: BioinfoMCP" ])
             [str "Overview"] (str "When to Use This Skill")
             (drop 2 REQUIRED_SECTIONS));
      vm_compute; reflexivity.
  - apply (proj2 (proj2 (proj2 (guide_first_failure
               (sample_frontmatter (str "name") ++ [LF]
                ++ join [LF] ((λ s, str "# " ++ s) <$> REQUIRED_SECTIONS)))))
             (join [LF] [ str "name: fastqc"; str "description: quality control";
                          str "license: BSD-3-Clause"; str "context: fork";
                          str "metadata:"; str "  author: BioinfoMCP" ]));
      vm_compute; reflexivity.
Defined.

(** X4.  The converse of what the metadata pattern matches: when a
    document opens with [---], blanks and a line break, then a block that
    is not empty, does not begin with a blank and has no line break followed
    by [---] inside, then a line break and [---], that block is the metadata
    block, whatever follows. *)
Theorem frontmatter_captured ws fm post :
  forallb isspace ws = true →
  nonempty fm = true → lstrip fm = fm →
  str_in (LF :: str "---") fm = false →
  frontmatter_of (str "---" ++ ws ++ [LF] ++ fm ++ [LF] ++ str "---" ++ post) = Some fm.
Proof.
  intros Hws Hne Hl Hin.
  destruct fm as [|c fm']; [done|]. apply lstrip_head in Hl as Hc.
  unfold frontmatter_of, re_match, frontmatter_re.
  set (content := str "---" ++ ws ++ [LF] ++ (c :: fm') ++ [LF] ++ str "---" ++ post).
  cbn [rmatch prev rest at_bol]. rewrite bind_singleton. fold (rmatch re_DOTALL).
  change (group1 <$> (MatchObj content <$> head (rmatch re_DOTALL
                  (lit (str "---") ⋅ Star Space ⋅ One (Lit LF) ⋅ Group (LazyStar Dot)
                     ⋅ lit (LF :: str "---"))
                  (MState None content None)))
          = Some (c :: fm')).
  rewrite rmatch_cat_lit. cbn [rest prev grp]. unfold content at 2 3.
  rewrite startswith_app, drop_app_length.
  set (R2 := One (Lit LF) ⋅ Group (LazyStar Dot) ⋅ lit (LF :: str "---")).
  change (rmatch re_DOTALL (Star Space ⋅ R2) ?st)
    with (greedy_star isspace (prev st) (rest st) (grp st) ≫= rmatch re_DOTALL R2).
  cbn [rest prev grp].
  change (ws ++ [LF] ++ ?r) with (ws ++ LF :: r).
  destruct (greedy_star_two isspace (lit_prev (str "---") None) ws LF
              ((c :: fm') ++ [LF] ++ str "---" ++ post) None Hws eq_refl Hc) as [l ->].
  rewrite !bind_cons.
  assert (rmatch re_DOTALL R2
            (MState (Some LF) ((c :: fm') ++ [LF] ++ str "---" ++ post) None) = []) as ->.
  { unfold R2. cbn [rmatch rest app atom_ok].
    destruct (char_eqb LF c) eqn:E; [|done].
    apply char_eqb_eq in E as <-. done. }
  rewrite app_nil_l.
  pose proof (rmatch_lazy_group re_DOTALL (lit (LF :: str "---")) _
                ((c :: fm') ++ [LF] ++ str "---" ++ post) (Some LF) None
                eq_refl (stops_lit _ _)) as Hg.
  rewrite (lazy_until_first (startswith (LF :: str "---")) (c :: fm')
             ([LF] ++ str "---" ++ post)) in Hg.
  2:{ exact (startswith_app (LF :: str "---") post). }
  2:{ intros x y Hxy Hy.
      assert (first_at (LF :: str "---") (c :: fm')) as Hfirst.
      { apply first_at_no_overlap; [|done]. vm_compute. 
        intros H. repeat (apply elem_of_cons in H as [H|H]; [done|]).
        by apply elem_of_nil in H. }
      apply (first_at_partition _ _ post) in Hfirst.
      apply str_partition_Some in Hfirst as [_ Hfirst]. by apply (Hfirst x y). }
  cbn [fmap option_fmap option_map] in Hg.
  assert (rmatch re_DOTALL R2
            (MState (lit_prev ws (lit_prev (str "---") None))
               (LF :: (c :: fm') ++ [LF] ++ str "---" ++ post) None)
          = rmatch re_DOTALL (Group (LazyStar Dot) ⋅ lit (LF :: str "---"))
              (MState (Some LF) ((c :: fm') ++ [LF] ++ str "---" ++ post) None)) as ->.
  { unfold R2. cbn [rmatch rest prev grp atom_ok]. rewrite char_eqb_refl.
    by rewrite bind_singleton. }
  destruct (head (rmatch re_DOTALL (Group (LazyStar Dot) ⋅ lit (LF :: str "---")) _))
    as [m|] eqn:Hm; [|done].
  rewrite (head_app_Some _ _ m Hm). cbn. unfold group1. cbn [m_end].
  cbn in Hg. injection Hg as ->. done.
Qed.

Lemma frontmatter_captured_witness :
  frontmatter_of (str "---" ++ [32%N] ++ [LF] ++ str "name: fastqc" ++ [LF] ++ str "---"
                    ++ str "# Overview")
  = Some (str "name: fastqc").
Proof. apply frontmatter_captured; vm_compute; reflexivity. Defined.

End further_validators.

Section further_extraction.
Import skill_validator BioinfoSkillConverter.

(** X6.  What the three patterns of [parse_skill] extract, said without
    regular expressions. *)
Theorem extraction_by_partition resp :
  extract_skill_md resp
  = strip (block_after (str "===SKILL.md===") (str "===REFERENCE.md===") resp)
  ∧ extract_reference_md resp
    = strip (block_after (str "===REFERENCE.md===") (str "===EXAMPLE_SCRIPT.py===") resp)
  ∧ extract_example_script resp
    = let example_script := strip (text_after (str "===EXAMPLE_SCRIPT.py===") resp) in
      match re_findall re_DOTALL code_fence_re example_script with
      | code :: _ => code
      | [] => example_script
      end.
Proof.
  unfold block_after, text_after. split_and!.
  - destruct (str_partition (str "===SKILL.md===") resp) as [[pre body]|] eqn:E.
    + destruct (str_partition (str "===REFERENCE.md===") body) as [[a r]|] eqn:E2.
      * by eapply extract_skill_md_to_marker.
      * eapply extract_skill_md_to_end; [done | by apply str_partition_None].
    + apply str_partition_None in E. by rewrite extract_skill_md_absent.
  - destruct (str_partition (str "===REFERENCE.md===") resp) as [[pre body]|] eqn:E.
    + destruct (str_partition (str "===EXAMPLE_SCRIPT.py===") body) as [[a r]|] eqn:E2.
      * by eapply extract_reference_md_to_marker.
      * eapply extract_reference_md_to_end; [done | by apply str_partition_None].
    + apply str_partition_None in E. by rewrite extract_reference_md_absent.
  - destruct (str_partition (str "===EXAMPLE_SCRIPT.py===") resp) as [[pre body]|] eqn:E.
    + by eapply extract_example_script_tail.
    + apply str_partition_None in E. by rewrite extract_example_script_absent.
Qed.

(** X7.  The guide and the reference that [parse_skill] extracts have no blank
    at either end, and none holds the marker that closes its block. *)
Theorem extracted_blocks_are_trimmed resp :
  strip (extract_skill_md resp) = extract_skill_md resp
  ∧ str_in (str "===REFERENCE.md===") (extract_skill_md resp) = false
  ∧ strip (extract_reference_md resp) = extract_reference_md resp
  ∧ str_in (str "===EXAMPLE_SCRIPT.py===") (extract_reference_md resp) = false.
Proof.
  unfold extract_skill_md, extract_reference_md, skill_block_re, reference_block_re.
  pose proof (block_stripped (str "===SKILL.md===") (str "===REFERENCE.md===") resp) as H1.
  pose proof (block_stripped (str "===REFERENCE.md===") (str "===EXAMPLE_SCRIPT.py===") resp)
    as H2.
  destruct (re_search _ _ resp) as [mo1|];
    destruct (re_search _ (_ ⋅ _ ⋅ Alt (lit (str "===EXAMPLE_SCRIPT.py===")) Eol) resp)
      as [mo2|];
    split_and!; try apply strip_idem; try done; try (by apply H1); by apply H2.
Qed.

End further_extraction.

Section further_parsing.
Import skill_validator BioinfoSkillConverter.

(** X5.  [parse_skill] checks the guide, then the reference, then the
    example script, and stops at the first that fails: a failing guide is
    reported whatever the other two are, and [ast.parse] is consulted only
    when guide and reference both pass, so that an exception can leave
    [parse_skill] only then.  The result is [(1, None, contents)] exactly
    when the three checks pass.  A completion without the guide marker is
    always answered with [SKILL.md content is empty]. *)
Theorem parse_skill_verdict self resp :
  let skill_md := extract_skill_md resp in
  let reference_md := extract_reference_md resp in
  let example_script := extract_example_script resp in
  let contents := make_contents skill_md reference_md example_script in
  (∀ d, validate_skill_md skill_md = (0%Z, Some d) →
        parse_skill self resp
        = Ret (0%Z, Some (str "SKILL.md validation failed: " ++ d), contents))
  ∧ (∀ d, validate_skill_md skill_md = (1%Z, None) →
          validate_reference_md reference_md = (0%Z, Some d) →
          parse_skill self resp
          = Ret (0%Z, Some (str "Reference validation failed: " ++ d), contents))
  ∧ (∀ d, validate_skill_md skill_md = (1%Z, None) →
          validate_reference_md reference_md = (1%Z, None) →
          validate_example_script (ast_parse self) example_script = Ret (0%Z, Some d) →
          parse_skill self resp
          = Ret (0%Z, Some (str "Example script validation failed: " ++ d), contents))
  ∧ (∀ result, parse_skill self resp = Ret (1%Z, None, result)
       ↔ result = contents
         ∧ validate_skill_md skill_md = (1%Z, None)
         ∧ validate_reference_md reference_md = (1%Z, None)
         ∧ validate_example_script (ast_parse self) example_script = Ret (1%Z, None))
  ∧ (∀ e, parse_skill self resp = Raise e
       ↔ validate_skill_md skill_md = (1%Z, None)
         ∧ validate_reference_md reference_md = (1%Z, None)
         ∧ is_blank example_script = false
         ∧ ast_parse self example_script = OtherError e)
  ∧ (str_in (str "===SKILL.md===") resp = false →
     parse_skill self resp
     = Ret (0%Z, Some (str "SKILL.md validation failed: SKILL.md content is empty"),
            contents)).
Proof.
  cbv zeta. split_and!.
  - intros d. apply parse_skill_guide_fails.
  - intros d. apply parse_skill_reference_fails.
  - intros d E1 E2 E3. by rewrite (parse_skill_script_checked _ _ E1 E2), E3.
  - intros result. apply parse_skill_pass_iff.
  - intros e. apply parse_skill_raise_iff.
  - intros H. apply (parse_skill_guide_fails self resp (str "SKILL.md content is empty")).
    by rewrite extract_skill_md_absent.
Qed.

Lemma parse_skill_verdict_witness :
  let self := sample_skill_self [] cpython_sample in
  let resp := join [LF] [ str "===SKILL.md==="; str "no metadata";
                          str "===REFERENCE.md==="; str "no header";
                          str "===EXAMPLE_SCRIPT.py==="; [0%N] ] in
  parse_skill self resp
  = Ret (0%Z,
         Some (str "SKILL.md validation failed: "
                 ++ str "SKILL.md is missing YAML frontmatter (--- delimiters)"),
         make_contents (extract_skill_md resp) (extract_reference_md resp)
           (extract_example_script resp))
  ∧ parse_skill self (str "I cannot help with that.")
    = Ret (0%Z, Some (str "SKILL.md validation failed: SKILL.md content is empty"),
           make_contents (extract_skill_md (str "I cannot help with that."))
             (extract_reference_md (str "I cannot help with that."))
             (extract_example_script (str "I cannot help with that."))).
Proof.
  intros self resp. split.
  - apply (proj1 (parse_skill_verdict self resp)). vm_compute. reflexivity.
  - apply (proj2 (proj2 (proj2 (proj2 (proj2
             (parse_skill_verdict self (str "I cannot help with that."))))))).
    vm_compute. reflexivity.
Defined.

(** X8.  [parse_skill] accepts every well-formed package: when the three
    markers first occur in the order of the schema, the artifacts are the
    stripped texts between them (for the script, the first fenced block of
    its text if there is one), and if these pass their checks the result is
    [(1, None)] with exactly these artifacts, whatever precedes the first
    marker. *)
Theorem parse_skill_accepts_well_formed self pre a b c :
  let script :=
    match re_findall re_DOTALL code_fence_re (strip c) with
    | code :: _ => code
    | [] => strip c
    end in
  first_at (str "===SKILL.md===") pre →
  first_at (str "===REFERENCE.md===") (pre ++ str "===SKILL.md===" ++ a) →
  first_at (str "===EXAMPLE_SCRIPT.py===")
    (pre ++ str "===SKILL.md===" ++ a ++ str "===REFERENCE.md===" ++ b) →
  validate_skill_md (strip a) = (1%Z, None) →
  validate_reference_md (strip b) = (1%Z, None) →
  validate_example_script (ast_parse self) script = Ret (1%Z, None) →
  parse_skill self
    (pre ++ str "===SKILL.md===" ++ a ++ str "===REFERENCE.md===" ++ b
         ++ str "===EXAMPLE_SCRIPT.py===" ++ c)
  = Ret (1%Z, None, make_contents (strip a) (strip b) script).
Proof.
  intros script H1 H2 H3 Va Vb Vc.
  set (resp := pre ++ _).
  destruct (extract_in_order resp pre a b c) as (Ea & Eb & Ec).
  - by apply first_at_partition.
  - apply first_at_partition. apply (first_at_suffix _ (pre ++ str "===SKILL.md===")).
    by rewrite <- app_assoc.
  - replace resp with ((pre ++ str "===SKILL.md===" ++ a) ++ str "===REFERENCE.md==="
                        ++ b ++ str "===EXAMPLE_SCRIPT.py===" ++ c)
      by (unfold resp; by rewrite <- !app_assoc).
    by apply first_at_partition.
  - apply first_at_partition.
    apply (first_at_suffix _ (pre ++ str "===SKILL.md===" ++ a ++ str "===REFERENCE.md===")).
    by rewrite <- !app_assoc.
  - replace resp with ((pre ++ str "===SKILL.md===" ++ a ++ str "===REFERENCE.md===" ++ b)
                        ++ str "===EXAMPLE_SCRIPT.py===" ++ c)
      by (unfold resp; by rewrite <- !app_assoc).
    by apply first_at_partition.
  - apply parse_skill_pass_iff. rewrite Ea, Eb, Ec. done.
Qed.

Lemma parse_skill_accepts_well_formed_witness :
  parse_skill (sample_skill_self [] cpython_sample)
    (str "Here is the package." ++ str "===SKILL.md===" ++ ([LF] ++ sample_guide ++ [LF])
       ++ str "===REFERENCE.md===" ++ ([LF] ++ sample_reference ++ [LF])
       ++ str "===EXAMPLE_SCRIPT.py===" ++ ([LF] ++ fenced sample_script ++ str " Enjoy!"))
  = Ret (1%Z, None,
         make_contents (strip ([LF] ++ sample_guide ++ [LF]))
           (strip ([LF] ++ sample_reference ++ [LF]))
           match re_findall re_DOTALL code_fence_re
                   (strip ([LF] ++ fenced sample_script ++ str " Enjoy!")) with
           | code :: _ => code
           | [] => strip ([LF] ++ fenced sample_script ++ str " Enjoy!")
           end).
Proof. apply parse_skill_accepts_well_formed; vm_compute; reflexivity. Defined.

(** X9.  Round trip between [refine_after_feedback] and [parse_skill]: the
    blocks that the repair prompt is built from, parsed as a completion,
    give back the three artifacts, when guide and reference are non-empty,
    have no blank at either end and do not hold a marker of a later block,
    and the script has no line that begins with three backquotes.  An empty
    script, for which no block is written, comes back empty. *)
Theorem repair_blocks_round_trip a b c :
  nonempty a = true → strip a = a →
  str_in (str "===REFERENCE.md===") a = false →
  str_in (str "===EXAMPLE_SCRIPT.py===") a = false →
  nonempty b = true → strip b = b →
  str_in (str "===EXAMPLE_SCRIPT.py===") b = false →
  str_in (LF :: str "```") c = false →
  let resp := existing_blocks (make_contents a b c) in
  extract_skill_md resp = a
  ∧ extract_reference_md resp = b
  ∧ extract_example_script resp = c.
Proof.
  intros Ha Hsa HaR HaE Hb Hsb HbE Hc resp.
  assert (a ≠ []) as Ha' by by destruct a.
  assert (b ≠ []) as Hb' by by destruct b.
  destruct c as [|c0 c].
  - unfold resp. rewrite existing_blocks_no_script by done.
    destruct (repair_blocks_extract a b [] Hsa Hsb HaR HaE HbE (or_introl eq_refl))
      as (E1 & E2 & pre & E3).
    split_and!; [done..|]. apply extract_example_script_absent.
    by apply str_partition_None.
  - unfold resp. rewrite existing_blocks_full by done.
    set (rest3 := [LF] ++ fenced (c0 :: c) ++ [LF]).
    destruct (repair_blocks_extract a b (str "===EXAMPLE_SCRIPT.py===" ++ rest3)
                Hsa Hsb HaR HaE HbE (or_intror (ex_intro _ rest3 eq_refl)))
      as (E1 & E2 & pre & E3).
    split_and!; [done..|].
    rewrite str_partition_nil_l in E3.
    rewrite (extract_example_script_tail _ _ rest3 E3).
    unfold rest3. rewrite (strip_padded [LF] (fenced (c0 :: c)) [LF]) by done.
    rewrite strip_fenced.
    assert (head (re_findall re_DOTALL code_fence_re (fenced (c0 :: c))) = Some (c0 :: c))
      as Hhd.
    { apply (code_fence_first _ [] ((c0 :: c) ++ LF :: str "```") _ []).
      - unfold fenced. rewrite (app_assoc (str "```python") [LF]).
        apply str_partition_nil_l.
      - apply first_at_no_overlap; [|done].
        vm_compute. intros H. repeat (apply elem_of_cons in H as [H|H]; [discriminate H|]).
        by apply elem_of_nil in H. }
    revert Hhd. destruct (re_findall _ _ _) as [|x l]; [done|]. by intros [= ->].
Qed.

Lemma repair_blocks_round_trip_witness :
  let resp := existing_blocks
                (make_contents sample_guide sample_reference sample_script) in
  extract_skill_md resp = sample_guide
  ∧ extract_reference_md resp = sample_reference
  ∧ extract_example_script resp = sample_script.
Proof. apply repair_blocks_round_trip; vm_compute; reflexivity. Defined.

(** X18.  A completion that holds none of the three markers yields three
    empty artifacts and a failing verdict, and the turn of the loop that
    follows sends the original prompt again. *)
Theorem restart_after_marker_free_completion self tool_name manual rhc resp log :
  str_in (str "===SKILL.md===") resp = false →
  str_in (str "===REFERENCE.md===") resp = false →
  str_in (str "===EXAMPLE_SCRIPT.py===") resp = false →
  ∃ result,
    parse_skill self resp = Ret result
    ∧ result.2 = make_contents [] [] []
    ∧ truthy result.1.1 = false
    ∧ retry_once self tool_name manual rhc result log
      = autogenerate_skill self tool_name manual rhc log.
Proof.
  intros H1 H2 H3. eexists. split_and!.
  - apply (parse_skill_guide_fails self resp (str "SKILL.md content is empty")).
    by rewrite extract_skill_md_absent.
  - cbn [snd]. by rewrite extract_skill_md_absent, extract_reference_md_absent,
      extract_example_script_absent.
  - done.
  - unfold retry_once. cbn [snd].
    rewrite extract_skill_md_absent, extract_reference_md_absent,
      extract_example_script_absent by done.
    rewrite (proj2 (any_values_false _)); [done|].
    intros key v Hlook. unfold make_contents in Hlook.
    repeat (apply lookup_insert_Some in Hlook as [[_ <-] | [_ Hlook]]; [done|]).
    by apply lookup_empty_Some in Hlook.
Qed.

Lemma restart_after_marker_free_completion_witness :
  let self := sample_skill_self [] cpython_sample in
  ∃ result,
    parse_skill self (str "I cannot help with that.") = Ret result
    ∧ result.2 = make_contents [] [] []
    ∧ truthy result.1.1 = false
    ∧ retry_once self (str "fastqc") (str "fastqc.md") false result []
      = autogenerate_skill self (str "fastqc") (str "fastqc.md") false [].
Proof.
  intros self. apply restart_after_marker_free_completion; vm_compute; reflexivity.
Defined.

End further_parsing.

Section further_mcp.

(** X10.  [parse_mcpcode] looks at the first fenced block only: the text
    before the first opening fence and everything after the closing fence
    that follows it, later blocks included, have no part in the result.  The
    code is accepted exactly when [ast.parse] accepts it and it holds the
    text [@mcp.tool]; a syntax error is reported before the decorator is
    looked for. *)
Theorem parse_mcpcode_first_block self pre code post :
  first_at (str "```python" ++ [LF]) pre →
  str_in (LF :: str "```") code = false →
  BioinfoMCP.parse_mcpcode self (pre ++ fenced code ++ post)
  = BioinfoMCP.parse_mcpcode self (fenced code)
  ∧ (BioinfoMCP.parse_mcpcode self (pre ++ fenced code ++ post)
     = Ret (1%Z, None, Some code)
     ↔ BioinfoMCP.ast_parse self code = Parsed
       ∧ str_in (str "@mcp.tool") code = true)
  ∧ (∀ msg, BioinfoMCP.ast_parse self code = SyntaxError msg →
       BioinfoMCP.parse_mcpcode self (pre ++ fenced code ++ post)
       = Ret (0%Z,
              Some (str "Code is not working with the following SyntaxError: " ++ msg),
              Some code)).
Proof.
  intros Hpre Hcode.
  assert (first_at (LF :: str "```") code) as Hclose.
  { apply first_at_no_overlap; [|done].
    vm_compute. intros H. repeat (apply elem_of_cons in H as [H|H]; [discriminate H|]).
    by apply elem_of_nil in H. }
  assert (∀ pre post, first_at (str "```python" ++ [LF]) pre →
            head (re_findall re_DOTALL code_fence_re (pre ++ fenced code ++ post))
            = Some code) as Hhd.
  { intros pre' post' Hpre'.
    apply (code_fence_first _ pre' (code ++ (LF :: str "```") ++ post') code post').
    - unfold fenced. rewrite <- !app_assoc.
      rewrite (app_assoc (str "```python") [LF]).
      by apply (first_at_partition (str "```python" ++ [LF])).
    - by apply first_at_partition. }
  pose proof (Hhd pre post Hpre) as H1.
  pose proof (Hhd [] [] (str_partition_nil_l _ [])) as H2.
  rewrite app_nil_l, app_nil_r in H2.
  unfold BioinfoMCP.parse_mcpcode.
  destruct (re_findall _ _ (pre ++ _)) as [|c1 l1]; [done|]. injection H1 as ->.
  destruct (re_findall _ _ (fenced code)) as [|c2 l2]; [done|]. injection H2 as ->.
  split_and!.
  - done.
  - destruct (BioinfoMCP.ast_parse self code); [|split; [done|by intros [? _]]..].
    destruct (str_in (str "@mcp.tool") code); cbn [negb]; split; try done.
    by intros [_ ?].
  - by intros msg ->.
Qed.

Lemma parse_mcpcode_first_block_witness :
  let self := sample_mcp_self [] cpython_sample in
  let pre := str "Here is the server:" ++ [LF] in
  let post := [LF] ++ str "And a second block:" ++ [LF] ++ fenced (str "x = (") in
  BioinfoMCP.parse_mcpcode self (pre ++ fenced sample_code ++ post)
  = BioinfoMCP.parse_mcpcode self (fenced sample_code)
  ∧ BioinfoMCP.parse_mcpcode self (pre ++ fenced sample_code ++ post)
    = Ret (1%Z, None, Some sample_code).
Proof.
  intros self pre post.
  destruct (parse_mcpcode_first_block self pre sample_code post) as (H1 & H2 & _);
    [vm_compute; reflexivity..|].
  split; [exact H1|]. apply H2. split; vm_compute; reflexivity.
Defined.

End further_mcp.

Section further_loops.
Import skill_validator.

(** X11.  What a conversion sends: the first request carries the original
    prompt, every request carries the system prompt of the converter, every
    later request carries the original prompt or a repair prompt, and a turn
    of the loop sends one request, so that [fuel] turns send at most
    [fuel] more. *)
Theorem conversion_requests :
  (∀ fuel self tool_name manual rhc log,
     ∃ reqs,
       (BioinfoSkillConverter.convert_skill fuel self tool_name manual rhc log).2
       = log ++ (BioinfoSkillConverter.sys_prompt self,
                 skill_original_prompt self tool_name manual rhc) :: reqs
       ∧ length reqs ≤ fuel
       ∧ Forall (λ q, q.1 = BioinfoSkillConverter.sys_prompt self
                      ∧ (q.2 = skill_original_prompt self tool_name manual rhc
                         ∨ ∃ contents err,
                             BioinfoSkillConverter.any_values contents = true
                             ∧ q.2 = BioinfoSkillConverter.refine_prompt
                                       tool_name contents err)) reqs)
  ∧ (∀ fuel self tool_name manual rhc log,
       ∃ reqs,
         (BioinfoMCP.convert_mcptool fuel self tool_name manual rhc log).2
         = log ++ (BioinfoMCP.sys_prompt self,
                   mcp_original_prompt self tool_name manual rhc) :: reqs
         ∧ length reqs ≤ fuel
         ∧ Forall (λ q, q.1 = BioinfoMCP.sys_prompt self
                        ∧ (q.2 = mcp_original_prompt self tool_name manual rhc
                           ∨ ∃ code err,
                               q.2 = BioinfoMCP.refine_prompt tool_name (Some code) err))
             reqs).
Proof.
  split; intros fuel self tool_name manual rhc log.
  - rewrite convert_skill_eq.
    destruct (BioinfoSkillConverter.parse_skill _ _) as [res|e].
    2:{ exists []. split_and!; [done | simpl; lia | constructor]. }
    unfold BioinfoSkillConverter.retry_loop.
    edestruct (while_failing_sent
                (λ result : BioinfoSkillConverter.skill_result, result.1.1)
                (λ result, result.2)
                (BioinfoSkillConverter.retry_once self tool_name manual rhc))
      as (reqs & Hlog & HP & Hlen).
    2:{ exists reqs. rewrite Hlog, <- app_assoc. split_and!; [done | exact Hlen | exact HP]. }
    intros r l. destruct (skill_retry_once_eq self tool_name manual rhc r l)
      as (q & -> & Hq). by exists q.
  - rewrite convert_mcptool_eq.
    destruct (BioinfoMCP.parse_mcpcode _ _) as [res|e].
    2:{ exists []. split_and!; [done | simpl; lia | constructor]. }
    unfold BioinfoMCP.retry_loop.
    edestruct (while_failing_sent
                (λ conv_result : BioinfoMCP.mcp_result, conv_result.1.1)
                (λ conv_result, conv_result.2)
                (BioinfoMCP.retry_once self tool_name manual rhc))
      as (reqs & Hlog & HP & Hlen).
    2:{ exists reqs. rewrite Hlog, <- app_assoc. split_and!; [done | exact Hlen | exact HP]. }
    intros r l. destruct (mcp_retry_once_eq self tool_name manual rhc r l)
      as (q & -> & Hq). by exists q.
Qed.

(** X12.  Neither loop has a bound of its own: with a backend none of whose
    answers passes the checks, and a parser that raises nothing, the
    conversion is still running after any number of turns, one more request
    sent at each. *)
Theorem conversion_has_no_retry_cap :
  (∀ self tool_name manual rhc,
     (∀ log q, ∃ err contents,
        BioinfoSkillConverter.parse_skill self (BioinfoSkillConverter.client self log q)
        = Ret (0%Z, err, contents)) →
     ∀ fuel log, ∃ reqs,
       BioinfoSkillConverter.convert_skill fuel self tool_name manual rhc log
       = (Ret None, log ++ reqs)
       ∧ length reqs = S fuel)
  ∧ (∀ self tool_name manual rhc,
       (∀ log q, ∃ err code,
          BioinfoMCP.parse_mcpcode self (BioinfoMCP.client self log q)
          = Ret (0%Z, err, code)) →
       ∀ fuel log, ∃ reqs,
         BioinfoMCP.convert_mcptool fuel self tool_name manual rhc log
         = (Ret None, log ++ reqs)
         ∧ length reqs = S fuel).
Proof.
  split; intros self tool_name manual rhc Hbad fuel log.
  - rewrite convert_skill_eq.
    destruct (Hbad log (BioinfoSkillConverter.sys_prompt self,
                        skill_original_prompt self tool_name manual rhc))
      as (err & contents & ->).
    unfold BioinfoSkillConverter.retry_loop.
    edestruct (while_failing_stuck
                (λ result : BioinfoSkillConverter.skill_result, result.1.1)
                (λ result, result.2)
                (BioinfoSkillConverter.retry_once self tool_name manual rhc))
      as (reqs & Hrun & Hlen).
    3:{ rewrite Hrun. eexists (_ :: reqs). rewrite <- app_assoc. split; [done|].
        simpl. by rewrite Hlen. }
    + intros r l. destruct (skill_retry_once_eq self tool_name manual rhc r l)
        as (q & -> & _). destruct (Hbad l q) as (err' & contents' & ->).
      by exists (0%Z, err', contents'), q.
    + done.
  - rewrite convert_mcptool_eq.
    destruct (Hbad log (BioinfoMCP.sys_prompt self,
                        mcp_original_prompt self tool_name manual rhc))
      as (err & code & ->).
    unfold BioinfoMCP.retry_loop.
    edestruct (while_failing_stuck
                (λ conv_result : BioinfoMCP.mcp_result, conv_result.1.1)
                (λ conv_result, conv_result.2)
                (BioinfoMCP.retry_once self tool_name manual rhc))
      as (reqs & Hrun & Hlen).
    3:{ rewrite Hrun. eexists (_ :: reqs). rewrite <- app_assoc. split; [done|].
        simpl. by rewrite Hlen. }
    + intros r l. destruct (mcp_retry_once_eq self tool_name manual rhc r l)
        as (q & -> & _). destruct (Hbad l q) as (err' & code' & ->).
      by exists (0%Z, err', code'), q.
    + done.
Qed.

Lemma conversion_has_no_retry_cap_witness :
  (∃ reqs,
     BioinfoSkillConverter.convert_skill 3 (sample_skill_self [] cpython_sample)
       (str "fastqc") (str "fastqc.md") false []
     = (Ret None, [] ++ reqs)
     ∧ length reqs = 4)
  ∧ (∃ reqs,
       BioinfoMCP.convert_mcptool 3 (sample_mcp_self [] cpython_sample)
         (str "fastqc") (str "fastqc.md") false []
       = (Ret None, [] ++ reqs)
       ∧ length reqs = 4).
Proof.
  split.
  - apply (proj1 conversion_has_no_retry_cap). intros log q.
    assert (BioinfoSkillConverter.client (sample_skill_self [] cpython_sample) log q = [])
      as -> by (simpl; unfold canned_client; by destruct (length log)).
    eexists _, _. vm_compute. reflexivity.
  - apply (proj2 conversion_has_no_retry_cap). intros log q.
    assert (BioinfoMCP.client (sample_mcp_self [] cpython_sample) log q = [])
      as -> by (simpl; unfold canned_client; by destruct (length log)).
    eexists _, _. vm_compute. reflexivity.
Defined.

(** X13.  What [convert_skill] returns has passed every check: it is the
    dictionary of the three artifacts extracted from the answer to the last
    request sent, the guide and the reference pass their validators and the
    example script passes its own. *)
Theorem skill_conversion_result_is_valid fuel self tool_name manual rhc log contents log' :
  BioinfoSkillConverter.convert_skill fuel self tool_name manual rhc log
  = (Ret (Some contents), log') →
  ∃ log0 q,
    log' = log0 ++ [q]
    ∧ let resp := BioinfoSkillConverter.client self log0 q in
      let skill_md := BioinfoSkillConverter.extract_skill_md resp in
      let reference_md := BioinfoSkillConverter.extract_reference_md resp in
      let example_script := BioinfoSkillConverter.extract_example_script resp in
      contents = BioinfoSkillConverter.make_contents skill_md reference_md example_script
      ∧ validate_skill_md skill_md = (1%Z, None)
      ∧ validate_reference_md reference_md = (1%Z, None)
      ∧ validate_example_script (BioinfoSkillConverter.ast_parse self) example_script
        = Ret (1%Z, None).
Proof.
  intros (log0 & q & -> & Hparse)%convert_skill_returns_passed.
  exists log0, q. split; [done|]. by apply parse_skill_pass_iff in Hparse.
Qed.

Lemma skill_conversion_result_is_valid_witness :
  let self := sample_skill_self
                [ sample_completion sample_guide_no_metadata;
                  sample_completion sample_guide ] cpython_sample in
  ∃ log0 q,
    [ (BioinfoSkillConverter.sys_prompt self,
       skill_original_prompt self (str "fastqc") (str "fastqc.md") false);
      (BioinfoSkillConverter.sys_prompt self,
       BioinfoSkillConverter.refine_prompt (str "fastqc")
         (BioinfoSkillConverter.make_contents sample_guide_no_metadata sample_reference
            sample_script)
         (Some (str "SKILL.md validation failed: YAML frontmatter is missing required key: metadata"))) ]
    = log0 ++ [q]
    ∧ let resp := BioinfoSkillConverter.client self log0 q in
      let skill_md := BioinfoSkillConverter.extract_skill_md resp in
      let reference_md := BioinfoSkillConverter.extract_reference_md resp in
      let example_script := BioinfoSkillConverter.extract_example_script resp in
      BioinfoSkillConverter.make_contents sample_guide sample_reference sample_script
      = BioinfoSkillConverter.make_contents skill_md reference_md example_script
      ∧ validate_skill_md skill_md = (1%Z, None)
      ∧ validate_reference_md reference_md = (1%Z, None)
      ∧ validate_example_script (BioinfoSkillConverter.ast_parse self) example_script
        = Ret (1%Z, None).
Proof.
  intros self.
  apply (skill_conversion_result_is_valid 3 self (str "fastqc") (str "fastqc.md") false []).
  vm_compute. reflexivity.
Defined.

(** X14.  What [convert_mcptool] writes to the server file is never [None]:
    it is the first fenced block of the answer to the last request sent,
    [ast.parse] accepted it, and it holds the text [@mcp.tool]. *)
Theorem mcp_conversion_result_is_valid fuel self tool_name manual rhc log code log' :
  BioinfoMCP.convert_mcptool fuel self tool_name manual rhc log
  = (Ret (Some code), log') →
  ∃ log0 q c,
    log' = log0 ++ [q]
    ∧ code = Some c
    ∧ head (re_findall re_DOTALL code_fence_re (BioinfoMCP.client self log0 q)) = Some c
    ∧ BioinfoMCP.ast_parse self c = Parsed
    ∧ str_in (str "@mcp.tool") c = true.
Proof.
  intros (log0 & q & -> & Hparse)%convert_mcptool_returns_passed.
  apply parse_mcpcode_pass_iff in Hparse as (c & -> & Hhd & Hp & Hd).
  by exists log0, q, c.
Qed.

Lemma mcp_conversion_result_is_valid_witness :
  let self := sample_mcp_self [ str "I cannot help with that."; fenced sample_code ]
                cpython_sample in
  let first := (BioinfoMCP.sys_prompt self,
                mcp_original_prompt self (str "fastqc") (str "fastqc.pdf") false) in
  ∃ log0 q c,
    [first; first] = log0 ++ [q]
    ∧ Some sample_code = Some c
    ∧ head (re_findall re_DOTALL code_fence_re (BioinfoMCP.client self log0 q)) = Some c
    ∧ BioinfoMCP.ast_parse self c = Parsed
    ∧ str_in (str "@mcp.tool") c = true.
Proof.
  intros self first.
  apply (mcp_conversion_result_is_valid 3 self (str "fastqc") (str "fastqc.pdf") false []).
  vm_compute. reflexivity.
Defined.

(** X15.  Neither loop catches anything: when [ast.parse] makes the parse
    of an answer raise, at the first attempt or at a later turn, the
    conversion ends with that exception, and the request that was answered
    is the last one sent. *)
Theorem parser_exception_ends_conversion :
  (∀ fuel self tool_name manual rhc log e,
     let q := (BioinfoSkillConverter.sys_prompt self,
               skill_original_prompt self tool_name manual rhc) in
     BioinfoSkillConverter.parse_skill self (BioinfoSkillConverter.client self log q)
     = Raise e →
     BioinfoSkillConverter.convert_skill fuel self tool_name manual rhc log
     = (Raise e, log ++ [q]))
  ∧ (∀ fuel self tool_name manual rhc result log n result' log' e,
       nsteps (skill_step self tool_name manual rhc) n (result, log) (result', log') →
       n < fuel → truthy result'.1.1 = false →
       let q := skill_next_request self tool_name manual rhc result' in
       BioinfoSkillConverter.parse_skill self (BioinfoSkillConverter.client self log' q)
       = Raise e →
       BioinfoSkillConverter.retry_loop fuel self tool_name manual rhc result log
       = (Raise e, log' ++ [q]))
  ∧ (∀ fuel self tool manual rhc log e,
       let q := (BioinfoMCP.sys_prompt self, mcp_original_prompt self tool manual rhc) in
       BioinfoMCP.parse_mcpcode self (BioinfoMCP.client self log q) = Raise e →
       BioinfoMCP.convert_mcptool fuel self tool manual rhc log = (Raise e, log ++ [q]))
  ∧ (∀ fuel self tool manual rhc conv_result log n conv_result' log' e,
       nsteps (mcp_step self tool manual rhc) n (conv_result, log) (conv_result', log') →
       n < fuel → truthy conv_result'.1.1 = false →
       let q := mcp_next_request self tool manual rhc conv_result' in
       BioinfoMCP.parse_mcpcode self (BioinfoMCP.client self log' q) = Raise e →
       BioinfoMCP.retry_loop fuel self tool manual rhc conv_result log
       = (Raise e, log' ++ [q])).
Proof.
  split_and!.
  - intros fuel self tool_name manual rhc log e q H. rewrite convert_skill_eq.
    fold q. by rewrite H.
  - intros fuel self tool_name manual rhc result log n result' log' e Hsteps Hn Hok q H.
    unfold BioinfoSkillConverter.retry_loop.
    eapply while_failing_raises; [exact Hsteps|done|done|].
    rewrite skill_retry_once_next. fold q. by rewrite H.
  - intros fuel self tool manual rhc log e q H. rewrite convert_mcptool_eq.
    fold q. by rewrite H.
  - intros fuel self tool manual rhc conv_result log n conv_result' log' e Hsteps Hn Hok q H.
    unfold BioinfoMCP.retry_loop.
    eapply while_failing_raises; [exact Hsteps|done|done|].
    rewrite mcp_retry_once_next. fold q. by rewrite H.
Qed.

Lemma parser_exception_ends_conversion_witness :
  let self := sample_mcp_self [ fenced [0%N] ] cpython_sample in
  let q := (BioinfoMCP.sys_prompt self,
            mcp_original_prompt self (str "fastqc") (str "fastqc.pdf") false) in
  BioinfoMCP.convert_mcptool 3 self (str "fastqc") (str "fastqc.pdf") false []
  = (Raise (Exn (str "ValueError") (str "source code string cannot contain null bytes")),
     [] ++ [q]).
Proof.
  intros self q.
  apply (proj1 (proj2 (proj2 parser_exception_ends_conversion))).
  vm_compute. reflexivity.
Defined.

End further_loops.

Section further_files.
Import skill_validator BioinfoSkillConverter.
Context {path : Type} (Path : pystr → path) (joinpath : path → pystr → path).


End further_files.

Section files_examples.
Import skill_validator BioinfoSkillConverter.


End files_examples.

Section further_prompts.

(** X19.  Neither converter looks at what [extract_help_document] returned:
    when it is [None] (the help command could not be run), the first request
    is sent all the same, with the text [None] where the help document
    belongs. *)
Theorem missing_help_is_sent_as_None :
  (∀ self tool_name manual rhc log,
     BioinfoSkillConverter.extract_help_document self tool_name manual rhc = None →
     ∃ prompt,
       (BioinfoSkillConverter.autogenerate_skill self tool_name manual rhc log).2
       = log ++ [(BioinfoSkillConverter.sys_prompt self, prompt)]
       ∧ str_in (str "Help Document:" ++ [LF] ++ str "None" ++ [LF]) prompt = true)
  ∧ (∀ self tool_name manual rhc log,
       BioinfoMCP.extract_help_document self tool_name manual rhc = None →
       ∃ prompt,
         (BioinfoMCP.autogenerate_mcp_tool self tool_name manual rhc log).2
         = log ++ [(BioinfoMCP.sys_prompt self, prompt)]
         ∧ str_in (str "Help Document:" ++ [LF] ++ str "None" ++ [LF]) prompt = true).
Proof.
  split; intros self tool_name manual rhc log Hnone.
  - eexists. split; [apply skill_autogenerate_sent|].
    unfold skill_original_prompt, BioinfoSkillConverter.generate_prompt.
    rewrite Hnone. cbn [format_value].
    do 6 apply str_in_skip. vm_compute. reflexivity.
  - eexists. split; [apply mcp_autogenerate_sent|].
    unfold mcp_original_prompt, BioinfoMCP.generate_prompt.
    rewrite Hnone. cbn [format_value].
    do 2 apply str_in_skip. vm_compute. reflexivity.
Qed.

Lemma missing_help_is_sent_as_None_witness :
  let self := BioinfoMCP.Self (str "You write MCP servers.") (canned_client [])
                cpython_sample (λ _ _ _, None) in
  ∃ prompt,
    (BioinfoMCP.autogenerate_mcp_tool self (str "fastqc") (str "--help") true []).2
    = [] ++ [(BioinfoMCP.sys_prompt self, prompt)]
    ∧ str_in (str "Help Document:" ++ [LF] ++ str "None" ++ [LF]) prompt = true.
Proof.
  intros self. apply (proj2 missing_help_is_sent_as_None). reflexivity.
Defined.

End further_prompts.
